(** * Habit tracker: the habit entity and its schedule, streak and statistics
      algorithms (src/habit/js/habit.js), the reminder times
      (src/habit/js/notifications.js) and the storage of the habits
      (src/habit/js/storage.js), embedded in Rocq.

    The development has six parts.

    - [JS]: the parts of the JavaScript runtime the class relies on: arrays
      ([includes], [indexOf], [splice], the default [sort]), strings
      ([split], [padStart], [parseInt], number-to-string conversion),
      numbers (the rounding of a quotient and of a product to a double,
      [Math.round]) and the [Date] object (time values in milliseconds, the
      proleptic Gregorian calendar, local time at a fixed offset from
      UTC).
    - The [Habit] class, one definition per method, in the order of the
      source.  A method that changes the object returns the object
      afterwards; a method that can throw returns its outcome as well.  The
      clock and the zone are read from a [Host].
    - The notifications module: [shouldNotifyForHabit] and
      [getNextNotificationTime].  The functions that talk to the page
      (permission, display, timers) are left out.
    - The storage module over a model of [localStorage]; [getStorageStats],
      which measures the stored text in bytes, is left out.
    - The vocabulary of the properties and the sample hosts and habits.
    - The properties: facts about the runtime, then completion tracking,
      the current streak, the longest streak, the completion rate, the
      schedule, serialization, the schedule mutator, the schedule label and
      construction; then further properties of the three modules, from the
      texts of numbers and days to the comparison of the two streaks. *)

From Stdlib Require Import ZArith List String Ascii Bool Lia.
From Stdlib Require Import Sorted Permutation Mergesort Orders.
From Stdlib Require Import QArith Qround Qabs Qpower Lqa SpecFloat.
From Stdlib Require Import DecimalString DecimalZ.
Import ListNotations.

Open Scope string_scope.
Open Scope Z_scope.

(* ================================================================== *)
(** * The JavaScript runtime *)
(* ================================================================== *)

Module JS.

(** ** Equality used by [Array.prototype.includes] and [indexOf]

    On strings and on integer numbers SameValueZero and strict equality
    coincide with structural equality. *)

Class JsEq (A : Type) := js_eqb : A -> A -> bool.

#[export] Instance JsEq_string : JsEq string := String.eqb.
#[export] Instance JsEq_Z : JsEq Z := Z.eqb.

(** ** Arrays *)

Definition includes {A} `{JsEq A} (l : list A) (x : A) : bool :=
  existsb (js_eqb x) l.

(** [l.indexOf(x)]: position of the first occurrence, [-1] when absent. *)
Fixpoint indexOfFrom {A} `{JsEq A} (i : Z) (l : list A) (x : A) : Z :=
  match l with
  | [] => -1
  | y :: r => if js_eqb y x then i else indexOfFrom (i + 1) r x
  end.

Definition indexOf {A} `{JsEq A} (l : list A) (x : A) : Z :=
  indexOfFrom 0 l x.

(** [l.splice(index, 1)] for [0 <= index]: the array without the element at
    [index]. *)
Definition splice1 {A} (l : list A) (index : Z) : list A :=
  firstn (Z.to_nat index) l ++ skipn (S (Z.to_nat index)) l.

Definition push {A} (l : list A) (x : A) : list A := l ++ [x].

(** [l.every(p)] *)
Definition every {A} (p : A -> bool) (l : list A) : bool := forallb p l.

(** [[...new Set(l)]]: the elements of [l] in order of first occurrence. *)
Fixpoint setOf {A} `{JsEq A} (seen : list A) (l : list A) : list A :=
  match l with
  | [] => []
  | x :: r => if includes seen x then setOf seen r
              else x :: setOf (x :: seen) r
  end.

(** ** Strings *)

(** [s.split(sep)] for a one-character separator. *)
Fixpoint split (sep : ascii) (s : string) : list string :=
  match s with
  | EmptyString => [EmptyString]
  | String c r =>
      if Ascii.eqb c sep then EmptyString :: split sep r
      else match split sep r with
           | w :: ws => String c w :: ws
           | [] => [String c EmptyString]
           end
  end.

(** [s.padStart(n, fill)] for a one-character filler. *)
Fixpoint repeatChar (n : nat) (c : ascii) : string :=
  match n with
  | O => EmptyString
  | S k => String c (repeatChar k c)
  end.

Definition padStart (n : nat) (fill : ascii) (s : string) : string :=
  repeatChar (n - String.length s) fill ++ s.

(** [String(n)] for an integer number. *)
Definition toString (n : Z) : string := NilZero.string_of_int (Z.to_int n).


(** [parseInt(s)] with the radix left out: leading white space is skipped, a
    sign is read, a [0x] prefix selects base 16, and the longest prefix of
    digits is the value; [None] is [NaN].  Only the ASCII white space
    characters are recognised. *)
Definition isWhiteSpace (c : ascii) : bool :=
  let n := nat_of_ascii c in
  (Nat.eqb n 32 || (Nat.leb 9 n && Nat.leb n 13))%bool.

Fixpoint trimStart (s : string) : string :=
  match s with
  | String c r => if isWhiteSpace c then trimStart r else s
  | EmptyString => EmptyString
  end.

Definition digitValue (radix : Z) (c : ascii) : option Z :=
  let n := Z.of_nat (nat_of_ascii c) in
  let v := if (48 <=? n) && (n <=? 57) then n - 48
           else if (97 <=? n) && (n <=? 122) then n - 87
           else if (65 <=? n) && (n <=? 90) then n - 55
           else radix in
  if v <? radix then Some v else None.

Fixpoint digitsPrefix (radix : Z) (s : string) (acc : option Z) : option Z :=
  match s with
  | String c r =>
      match digitValue radix c with
      | Some v =>
          digitsPrefix radix r
            (Some (radix * match acc with Some a => a | None => 0 end + v))
      | None => acc
      end
  | EmptyString => acc
  end.

Definition parseInt (s : string) : option Z :=
  let s1 := trimStart s in
  let '(sign, s2) :=
    match s1 with
    | String "-" r => (-1, r)
    | String "+" r => (1, r)
    | _ => (1, s1)
    end in
  let '(radix, s3) :=
    match s2 with
    | String "0" (String "x" r) => (16, r)
    | String "0" (String "X" r) => (16, r)
    | _ => (10, s2)
    end in
  option_map (Z.mul sign) (digitsPrefix radix s3 None).

(** [parseInt(parts[i])]: a missing element is [undefined], whose integer
    value is [NaN]. *)
Definition parseIntAt (parts : list string) (i : nat) : option Z :=
  match nth_error parts i with
  | Some s => parseInt s
  | None => None
  end.

(** ** Numbers *)

(** A number of the language is an IEEE 754 double, kept here as the
    rational it denotes.  The integers the class computes with (array
    lengths, day counts, time values) are below [2 ^ 53] and are doubles
    themselves.  A quotient or a product is the double nearest to the exact
    result, a tie going to the even significand of 53 bits.  Overflow,
    subnormal numbers and [NaN] do not arise from such operands and are not
    modelled. *)

(** The nearest integer, a tie going to the even one. *)
Definition roundHalfEven (x : Q) : Z :=
  let f := Qfloor x in
  match (x - inject_Z f ?= 1 # 2)%Q with
  | Lt => f
  | Gt => f + 1
  | Eq => if Z.even f then f else f + 1
  end.

(** For a positive [x], the exponent [b] with [2 ^ b <= x < 2 ^ (b + 1)]. *)
Definition binade (x : Q) : Z :=
  let lg := Z.log2 (Qnum x) - Z.log2 (Zpos (Qden x)) in
  if Qle_bool (2 ^ lg) x then lg else lg - 1.

(** The double nearest to a positive [x]: an integer significand of 53
    bits times a power of two. *)
Definition roundDoublePos (x : Q) : Q :=
  let e := binade x - 52 in
  (inject_Z (roundHalfEven (x * 2 ^ (- e))) * 2 ^ e)%Q.

Definition roundDouble (x : Q) : Q :=
  match (x ?= 0)%Q with
  | Eq => 0%Q
  | Gt => roundDoublePos x
  | Lt => (- roundDoublePos (- x))%Q
  end.

(** [x / y] and [x * y] on doubles. *)
Definition double_div (x y : Q) : Q := roundDouble (x / y).
Definition double_mul (x y : Q) : Q := roundDouble (x * y).

(** [Math.round] of a double: the nearest integer, a half rounded up. *)
Definition Math_round (q : Q) : Z := Qfloor (q + (1 # 2))%Q.

(** ** The calendar

    Day numbers count days from 1970-01-01; months are numbered from 1 in
    [daysFromCivil] and [civilFromDays]. *)

Definition msPerDay : Z := 86400000.

Definition daysFromCivil (y m d : Z) : Z :=
  let y' := if m <=? 2 then y - 1 else y in
  let era := y' / 400 in
  let yoe := y' - era * 400 in
  let mp := if 2 <? m then m - 3 else m + 9 in
  let doy := (153 * mp + 2) / 5 + d - 1 in
  let doe := yoe * 365 + yoe / 4 - yoe / 100 + doy in
  era * 146097 + doe - 719468.

Definition civilFromDays (day : Z) : Z * Z * Z :=
  let z := day + 719468 in
  let era := z / 146097 in
  let doe := z - era * 146097 in
  let yoe := (doe - doe / 1460 + doe / 36524 - doe / 146096) / 365 in
  let doy := doe - (365 * yoe + yoe / 4 - yoe / 100) in
  let mp := (5 * doy + 2) / 153 in
  let d := doy - (153 * mp + 2) / 5 + 1 in
  let m := if mp <? 10 then mp + 3 else mp - 9 in
  let y := yoe + era * 400 in
  ((if m <=? 2 then y + 1 else y), m, d).

Definition isLeapYear (y : Z) : bool :=
  ((y mod 4 =? 0) && negb (y mod 100 =? 0) || (y mod 400 =? 0))%bool.

Definition daysInMonth (y m : Z) : Z :=
  if m =? 2 then (if isLeapYear y then 29 else 28)
  else if (m =? 4) || (m =? 6) || (m =? 9) || (m =? 11) then 30
  else 31.

(** [Day(t)] and [WeekDay(t)] of the language definition. *)
Definition Day (t : Z) : Z := t / msPerDay.
Definition WeekDay (t : Z) : Z := (Day t + 4) mod 7.

(** ** The host: the clock and the time zone

    [now] is the time value [new Date()] returns; [LocalTZA] is the offset
    of local time from UTC in milliseconds.  The zone has one fixed offset:
    a host is UTC or a zone without daylight saving, or any zone over a
    span of time in which its clocks do not change.  Whatever depends on
    [addDays], [startOfDay] or [setHours] beyond the local day they land on
    holds for such zones only.  The clock stands still while a function
    runs. *)
Record Host := { now : Z; LocalTZA : Z }.

(** ** Date objects

    A valid [Date] is its time value, the milliseconds since the epoch; an
    invalid one ([NaN]) is [None] where a constructor can produce it.  Time
    values are unbounded here except in [Date_ymd], which clips as the
    language does. *)

Section Dates.
Variable host : Host.

Definition LocalTime (t : Z) : Z := t + LocalTZA host.

Definition getDay (t : Z) : Z := WeekDay (LocalTime t).
Definition getFullYear (t : Z) : Z := fst (fst (civilFromDays (Day (LocalTime t)))).
Definition getMonth (t : Z) : Z := snd (fst (civilFromDays (Day (LocalTime t)))) - 1.
Definition getDate (t : Z) : Z := snd (civilFromDays (Day (LocalTime t))).

(** [d.setDate(d.getDate() + k)]: the same local time of the day, [k]
    local days on, which at a fixed offset is [k] times 24 hours on. *)
Definition addDays (t : Z) (k : Z) : Z := t + k * msPerDay.

(** [d.setHours(0, 0, 0, 0)]: the midnight that starts the local day of
    [d], at the offset of the host. *)
Definition startOfDay (t : Z) : Z :=
  Day (LocalTime t) * msPerDay - LocalTZA host.

(** [new Date(year, monthIndex, day)]: local midnight of the given day;
    years 0 to 99 mean 1900 to 1999; months and days out of range carry
    over. *)
Definition Date_ymd (year monthIndex day : option Z) : option Z :=
  match year, monthIndex, day with
  | Some y, Some m, Some d =>
      let yr := if (0 <=? y) && (y <=? 99) then 1900 + y else y in
      let ym := yr + m / 12 in
      let mn := m mod 12 in
      let t := (daysFromCivil ym (mn + 1) 1 + d - 1) * msPerDay
               - LocalTZA host in
      if Z.abs t <=? 8640000000000000 then Some t else None
  | _, _, _ => None
  end.
End Dates.

(** Four decimal digits, as in the date-only form [YYYY-MM-DD]. *)
Definition isDigit (c : ascii) : bool :=
  let n := nat_of_ascii c in (Nat.leb 48 n && Nat.leb n 57)%bool.

Definition digitsOnly (s : string) : bool :=
  forallb isDigit (list_ascii_of_string s).

(** [new Date(s)] for a string: the date-only form [YYYY-MM-DD] of a
    calendar day is UTC midnight of that day.  These are the texts the
    class writes ([createdDate] and the completions of [markCompleted]), and
    on them the definition is the language.  Every other string is taken
    as an invalid date; the language reads more (a time of the day after
    [T], expanded years) and leaves forms such as [2024-1-2] or a 30th of
    February to the implementation. *)
Definition Date_parse (s : string) : option Z :=
  match split "-" s with
  | [ys; ms; ds] =>
      if (Nat.eqb (String.length ys) 4 && Nat.eqb (String.length ms) 2
          && Nat.eqb (String.length ds) 2
          && digitsOnly ys && digitsOnly ms && digitsOnly ds)%bool
      then
        match digitsPrefix 10 ys None, digitsPrefix 10 ms None,
              digitsPrefix 10 ds None with
        | Some y, Some m, Some d =>
            if ((1 <=? m) && (m <=? 12) && (1 <=? d)
                && (d <=? daysInMonth y m))%bool
            then Some (daysFromCivil y m d * msPerDay)
            else None
        | _, _, _ => None
        end
      else None
  | _ => None
  end.

(** [d.toISOString().split('T')[0]]: the UTC calendar day of a time value. *)
Definition isoYear (y : Z) : string :=
  if (0 <=? y) && (y <=? 9999) then padStart 4 "0" (toString y)
  else (if y <? 0 then "-" else "+") ++ padStart 6 "0" (toString (Z.abs y)).

Definition toISODate (t : Z) : string :=
  let '(y, m, d) := civilFromDays (Day t) in
  isoYear y ++ "-" ++ padStart 2 "0" (toString m)
            ++ "-" ++ padStart 2 "0" (toString d).

(** ** The clock of a date and more of strings and numbers *)

Definition msPerHour : Z := 3600000.
Definition msPerMinute : Z := 60000.
Definition msPerSecond : Z := 1000.

Section Clock.
Variable host : Host.

(** [d.getHours()] and [d.getMinutes()], in local time. *)
Definition getHours (t : Z) : Z := (LocalTime host t / msPerHour) mod 24.
Definition getMinutes (t : Z) : Z := (LocalTime host t / msPerMinute) mod 60.

(** [d.setHours(hour, min, sec, ms)]: the local day of [d] at the given
    time of the day; an argument that is [NaN] gives an invalid date.
    Hours and minutes out of range carry over, as in the language.  At the
    fixed offset of the host every time of the day exists once on every
    day. *)
Definition setHours (t : Z) (hour min sec ms : option Z) : option Z :=
  match hour, min, sec, ms with
  | Some h, Some m, Some s, Some milli =>
      Some (Day (LocalTime host t) * msPerDay
            + (h * msPerHour + m * msPerMinute + s * msPerSecond + milli)
            - LocalTZA host)
  | _, _, _, _ => None
  end.
End Clock.

(** [s.trim()], on the ASCII white space characters. *)
Fixpoint trimEnd (s : string) : string :=
  match s with
  | EmptyString => EmptyString
  | String c r =>
      let r' := trimEnd r in
      if (isWhiteSpace c && (r' =? "")%string)%bool then EmptyString
      else String c r'
  end.

Definition trim (s : string) : string := trimEnd (trimStart s).

(** [Number(s)] on a string; [None] is [NaN].  White space around the text
    is dropped, the empty text is 0 and a decimal integer, with or without
    sign, is its value.  The other numeric forms of the language (fractions,
    exponents, radix prefixes, [Infinity]) are not integers in general and
    are read as [NaN] here; the properties apply [Number] to the two digit
    groups of a text [HH:MM] only. *)
Definition Number (s : string) : option Z :=
  let t := trim s in
  if (t =? "")%string then Some 0
  else
    let '(sign, body) :=
      match t with
      | String "-" r => (-1, r)
      | String "+" r => (1, r)
      | _ => (1, t)
      end in
    if (negb (body =? "")%string && digitsOnly body)%bool
    then option_map (Z.mul sign) (digitsPrefix 10 body None)
    else None.

(** [d.toISOString()] for a valid date. *)
Definition toISOString (t : Z) : string :=
  let ms := t mod msPerDay in
  toISODate t ++ "T"
    ++ padStart 2 "0" (toString (ms / msPerHour)) ++ ":"
    ++ padStart 2 "0" (toString ((ms / msPerMinute) mod 60)) ++ ":"
    ++ padStart 2 "0" (toString ((ms / msPerSecond) mod 60)) ++ "."
    ++ padStart 3 "0" (toString (ms mod msPerSecond)) ++ "Z".

(** [l.findIndex(p)]: position of the first element that satisfies [p],
    [-1] when there is none. *)
Fixpoint findIndexFrom {A} (i : Z) (p : A -> bool) (l : list A) : Z :=
  match l with
  | [] => -1
  | y :: r => if p y then i else findIndexFrom (i + 1) p r
  end.

Definition findIndex {A} (p : A -> bool) (l : list A) : Z :=
  findIndexFrom 0 p l.

(** [l[index] = x] for an index inside the array. *)
Definition setAt {A} (l : list A) (index : Z) (x : A) : list A :=
  firstn (Z.to_nat index) l ++ x :: skipn (S (Z.to_nat index)) l.

(** ** The default [Array.prototype.sort]

    Without a comparison function the elements are ordered by their string
    forms, compared code unit by code unit (character by character on the
    8-bit strings used here).  The order is total, so every sorting
    algorithm yields the same array up to the position of elements with
    equal string forms; merge sort is used here. *)

Module StringOrder <: TotalLeBool.
Definition t := string.
Definition leb : t -> t -> bool := String.leb.
Definition leb_total : forall a b, leb a b = true \/ leb b a = true :=
  String.leb_total.
End StringOrder.

Module StringSort := Sort StringOrder.

Module NumberOrder <: TotalLeBool.
Definition t := Z.
Definition leb (a b : t) : bool := String.leb (toString a) (toString b).
Definition leb_total : forall a b, leb a b = true \/ leb b a = true :=
  fun a b => String.leb_total (toString a) (toString b).
End NumberOrder.

Module NumberSort := Sort NumberOrder.

End JS.

Import JS.

(* ================================================================== *)
(** * The Habit class *)
(* ================================================================== *)

(** The fields of a [Habit] object.  [notificationTime] and [daysOfWeek] are
    [null] or a value. *)
Record Habit := {
  id : string;
  name : string;
  createdDate : string;
  completions : list string;
  notificationTime : option string;
  daysOfWeek : option (list Z);
  notes : string;
  tags : list string
}.

Definition set_id (v : string) (h : Habit) : Habit :=
  {| id := v; name := name h; createdDate := createdDate h;
     completions := completions h; notificationTime := notificationTime h;
     daysOfWeek := daysOfWeek h; notes := notes h; tags := tags h |}.

Definition set_name (v : string) (h : Habit) : Habit :=
  {| id := id h; name := v; createdDate := createdDate h;
     completions := completions h; notificationTime := notificationTime h;
     daysOfWeek := daysOfWeek h; notes := notes h; tags := tags h |}.

Definition set_completions (v : list string) (h : Habit) : Habit :=
  {| id := id h; name := name h; createdDate := createdDate h;
     completions := v; notificationTime := notificationTime h;
     daysOfWeek := daysOfWeek h; notes := notes h; tags := tags h |}.

Definition set_notificationTime (v : option string) (h : Habit) : Habit :=
  {| id := id h; name := name h; createdDate := createdDate h;
     completions := completions h; notificationTime := v;
     daysOfWeek := daysOfWeek h; notes := notes h; tags := tags h |}.

Definition set_daysOfWeek (v : option (list Z)) (h : Habit) : Habit :=
  {| id := id h; name := name h; createdDate := createdDate h;
     completions := completions h; notificationTime := notificationTime h;
     daysOfWeek := v; notes := notes h; tags := tags h |}.

Definition set_notes (v : string) (h : Habit) : Habit :=
  {| id := id h; name := name h; createdDate := createdDate h;
     completions := completions h; notificationTime := notificationTime h;
     daysOfWeek := daysOfWeek h; notes := v; tags := tags h |}.

Definition set_tags (v : list string) (h : Habit) : Habit :=
  {| id := id h; name := name h; createdDate := createdDate h;
     completions := completions h; notificationTime := notificationTime h;
     daysOfWeek := daysOfWeek h; notes := notes h; tags := v |}.

(** The plain object [toJSON] builds and [fromJSON] reads.  A field that
    [fromJSON] passes through a default ([x || d]) may be missing. *)
Record PlainObject := {
  obj_id : string;
  obj_name : string;
  obj_createdDate : option string;
  obj_completions : option (list string);
  obj_notificationTime : option string;
  obj_daysOfWeek : option (list Z);
  obj_notes : option string;
  obj_tags : option (list string)
}.

(** A date argument: an ISO date string or a [Date] object. *)
Inductive DateArg :=
| DateString (s : string)
| DateObject (t : Z).

(** The argument of [isActiveOnDay]: a day number, a [Date] object or a
    date string. *)
Inductive DayArg :=
| DayNumber (n : Z)
| DayDate (t : Z)
| DayString (s : string).

(** An element of the array handed to [setDaysOfWeek]: an integer number,
    or a value [Number.isInteger] rejects (a fraction, [NaN], a string). *)
Inductive Value :=
| VInt (n : Z)
| VNotInteger.

(** How a method that can throw ends. *)
Inductive Outcome :=
| Returned
| Thrown (message : string).

(** The state of the loop of [calculateStreak]. *)
Record Walk := {
  currentDate : Z;
  streak : Z;
  checkingToday : bool;
  daysChecked : Z
}.

(** The object [getStatistics] returns; [None] is [NaN]. *)
Record Statistics := {
  totalCompletions : Z;
  currentStreak : Z;
  longestStreak : Z;
  completionRate : Z;
  daysSinceCreation : option Z;
  scheduledDaysPassed : option Z
}.

Section HabitClass.
Variable host : Host.

(** [x || d] on a string that may be missing: the empty string is falsy. *)
Definition orString (x : option string) (d : string) : string :=
  match x with
  | Some s => if (s =? "")%string then d else s
  | None => d
  end.

(** [x || d] on an array that may be missing: every array is truthy. *)
Definition orArray {A} (x : option (list A)) (d : list A) : list A :=
  match x with
  | Some l => l
  | None => d
  end.

(** [_generateId]: [random] is the text
    [Math.random().toString(36).substr(2, 9)] produced. *)
Definition _generateId (random : string) : string :=
  "habit_" ++ toString (now host) ++ "_" ++ random.

(** [constructor]; [random] feeds [_generateId]. *)
Definition new_Habit (random : string) (name : string)
    (createdDate : option string) (completions : option (list string))
    (notificationTime : option string) (daysOfWeek : option (list Z))
    (notes : option string) (tags : option (list string)) : Habit :=
  {| id := _generateId random;
     name := name;
     createdDate := orString createdDate (toISODate (now host));
     completions := orArray completions [];
     notificationTime := notificationTime;
     daysOfWeek := daysOfWeek;
     notes := orString notes "";
     tags := orArray tags [] |}.

(** [_normalizeDate] *)
Definition _normalizeDate (date : DateArg) : string :=
  match date with
  | DateString s => nth 0 (split "T" s) ""
  | DateObject t =>
      let year := getFullYear host t in
      let month := padStart 2 "0" (toString (getMonth host t + 1)) in
      let day := padStart 2 "0" (toString (getDate host t)) in
      toString year ++ "-" ++ month ++ "-" ++ day
  end.

(** [markCompleted] *)
Definition markCompleted (date : DateArg) (h : Habit) : Habit :=
  let dateStr := _normalizeDate date in
  if negb (includes (completions h) dateStr)
  then set_completions (StringSort.sort (push (completions h) dateStr)) h
  else h.

(** [markIncomplete] *)
Definition markIncomplete (date : DateArg) (h : Habit) : Habit :=
  let dateStr := _normalizeDate date in
  let index := indexOf (completions h) dateStr in
  if -1 <? index
  then set_completions (splice1 (completions h) index) h
  else h.

(** [isCompletedOn] *)
Definition isCompletedOn (h : Habit) (date : DateArg) : bool :=
  let dateStr := _normalizeDate date in
  includes (completions h) dateStr.

(** The weekday [isActiveOnDay] derives from its argument; [None] is the
    [NaN] an invalid date gives. *)
Definition dayOfWeekOf (dayOrDate : DayArg) : option Z :=
  match dayOrDate with
  | DayNumber n => Some n
  | DayDate t => Some (getDay host t)
  | DayString s =>
      let parts := split "-" s in
      let date := Date_ymd host (parseIntAt parts 0)
                    (option_map (fun m => m - 1) (parseIntAt parts 1))
                    (parseIntAt parts 2) in
      option_map (getDay host) date
  end.

(** [isActiveOnDay] *)
Definition isActiveOnDay (h : Habit) (dayOrDate : DayArg) : bool :=
  match daysOfWeek h with
  | None => true
  | Some days =>
      if (List.length days =? 0)%nat then true
      else match dayOfWeekOf dayOrDate with
           | Some dayOfWeek => includes days dayOfWeek
           | None => false
           end
  end.

(** One turn of the loop of [calculateStreak]: [None] is [break]. *)
Definition streakStep (h : Habit) (w : Walk) : option Walk :=
  let dateStr := _normalizeDate (DateObject (currentDate w)) in
  let next (s : Z) (c : bool) :=
    Some {| currentDate := addDays (currentDate w) (-1);
            streak := s;
            checkingToday := c;
            daysChecked := daysChecked w + 1 |} in
  if isActiveOnDay h (DayDate (currentDate w)) then
    if isCompletedOn h (DateString dateStr) then next (streak w + 1) false
    else if checkingToday w then next (streak w) false
    else None
  else next (streak w) (checkingToday w).

(** [while (daysChecked < 365) { ... }] *)
Fixpoint streakLoop (fuel : nat) (h : Habit) (w : Walk) : Walk :=
  match fuel with
  | O => w
  | S fuel' =>
      if daysChecked w <? 365 then
        match streakStep h w with
        | Some w' => streakLoop fuel' h w'
        | None => w
        end
      else w
  end.

Definition streakStart : Walk :=
  {| currentDate := startOfDay host (now host);
     streak := 0;
     checkingToday := true;
     daysChecked := 0 |}.

(** The state in which the loop of [calculateStreak] ends.  The loop runs
    at most 365 times, so 365 units of fuel never run out. *)
Definition streakWalk (h : Habit) : Walk := streakLoop 365 h streakStart.

(** [calculateStreak] *)
Definition calculateStreak (h : Habit) : Z :=
  if (List.length (completions h) =? 0)%nat then 0
  else streak (streakWalk h).

(** The inner loop of the longest-streak computation:
    [while (checkDate < currDate) { ... }]; the result is
    [allScheduledDaysCompleted]. *)
Fixpoint gapLoop (fuel : nat) (h : Habit) (checkDate currDate : Z) : bool :=
  match fuel with
  | O => true
  | S fuel' =>
      if checkDate <? currDate then
        if isActiveOnDay h (DayDate checkDate) then false
        else gapLoop fuel' h (addDays checkDate 1) currDate
      else true
  end.

(** Turns the loop from [checkDate] up to [limit] can take at most. *)
Definition daysBetween (checkDate limit : Z) : nat :=
  Z.to_nat ((limit - checkDate) / msPerDay + 1).

(** [allScheduledDaysCompleted] for two neighbouring completions.  A
    comparison with an invalid date is false, so the loop is skipped. *)
Definition allScheduledDaysCompleted (h : Habit) (prev curr : string) : bool :=
  match Date_parse prev, Date_parse curr with
  | Some prevDate, Some currDate =>
      let checkDate := addDays prevDate 1 in
      gapLoop (daysBetween checkDate currDate) h checkDate currDate
  | _, _ => true
  end.

(** The [for] loop over [sortedCompletions]; [prev] is
    [sortedCompletions[i - 1]], missing when [i] is 0.  The result is the
    pair of [longestStreak] and [tempStreak]. *)
Fixpoint longestLoop (h : Habit) (prev : option string) (rest : list string)
    (longest temp : Z) : Z * Z :=
  match rest with
  | [] => (longest, temp)
  | curr :: rest' =>
      match prev with
      | None => longestLoop h (Some curr) rest' longest 1
      | Some p =>
          if allScheduledDaysCompleted h p curr
          then longestLoop h (Some curr) rest' longest (temp + 1)
          else longestLoop h (Some curr) rest' (Z.max longest temp) 1
      end
  end.

Definition computeLongestStreak (h : Habit) : Z :=
  let sortedCompletions := StringSort.sort (completions h) in
  let '(longest, temp) := longestLoop h None sortedCompletions 0 0 in
  Z.max longest temp.

(** [while (checkDate <= today) { ... }], counting scheduled days. *)
Fixpoint countLoop (fuel : nat) (h : Habit) (checkDate today : Z)
    (scheduled : Z) : Z :=
  match fuel with
  | O => scheduled
  | S fuel' =>
      if checkDate <=? today then
        countLoop fuel' h (addDays checkDate 1) today
          (if isActiveOnDay h (DayDate checkDate) then scheduled + 1
           else scheduled)
      else scheduled
  end.

Definition hasDayRestriction (h : Habit) : bool :=
  match daysOfWeek h with
  | Some days => (0 <? List.length days)%nat
  | None => false
  end.

(** [Math.floor((today - createdDateObj) / (1000 * 60 * 60 * 24)) + 1];
    [None] is [NaN].  The quotient is taken on the integers, which is the
    floor of the quotient of the doubles for dates less than [2 ^ 53]
    milliseconds apart. *)
Definition computeDaysSinceCreation (h : Habit) : option Z :=
  match Date_parse (createdDate h) with
  | Some createdDateObj => Some ((now host - createdDateObj) / msPerDay + 1)
  | None => None
  end.

Definition computeScheduledDaysPassed (h : Habit) : option Z :=
  if hasDayRestriction h then
    match Date_parse (createdDate h) with
    | Some createdDateObj =>
        Some (countLoop (daysBetween createdDateObj (now host)) h
                createdDateObj (now host) 0)
    | None => Some 0
    end
  else computeDaysSinceCreation h.

Definition computeCompletionRate (total : Z) (scheduled : option Z) : Z :=
  match scheduled with
  | Some s =>
      if 0 <? s
      then Math_round
             (double_mul (double_div (inject_Z total) (inject_Z s))
                (inject_Z 100))
      else 0
  | None => 0
  end.

(** [getStatistics] *)
Definition getStatistics (h : Habit) : Statistics :=
  let total := Z.of_nat (List.length (completions h)) in
  let scheduled := computeScheduledDaysPassed h in
  {| totalCompletions := total;
     currentStreak := calculateStreak h;
     longestStreak := computeLongestStreak h;
     completionRate := computeCompletionRate total scheduled;
     daysSinceCreation := computeDaysSinceCreation h;
     scheduledDaysPassed := scheduled |}.

(** [_isValidTimeString]: the pattern
    [^([0-1][0-9]|2[0-3]):([0-5][0-9])$]. *)
Definition charBetween (lo hi c : ascii) : bool :=
  (Nat.leb (nat_of_ascii lo) (nat_of_ascii c)
   && Nat.leb (nat_of_ascii c) (nat_of_ascii hi))%bool.

Definition _isValidTimeString (time : string) : bool :=
  match list_ascii_of_string time with
  | [h1; h2; colon; m1; m2] =>
      ((charBetween "0" "1" h1 && charBetween "0" "9" h2
        || Ascii.eqb h1 "2" && charBetween "0" "3" h2)
       && Ascii.eqb colon ":"
       && charBetween "0" "5" m1 && charBetween "0" "9" m2)%bool
  | _ => false
  end.

(** [setNotificationTime]: the outcome and the habit afterwards.  The
    message is the one of the source without the quotation marks around its
    two examples. *)
Definition setNotificationTime (time : option string) (h : Habit)
    : Outcome * Habit :=
  match time with
  | None => (Returned, set_notificationTime None h)
  | Some t =>
      if (t =? "")%string then (Returned, set_notificationTime None h)
      else if _isValidTimeString t
      then (Returned, set_notificationTime (Some t) h)
      else (Thrown "Invalid time format. Use HH:MM format (e.g., 09:00 or 14:30)", h)
  end.

Definition getNotificationTime (h : Habit) : option string :=
  notificationTime h.

(** The test [Number.isInteger(d) && d >= 0 && d <= 6]. *)
Definition isWeekdayNumber (d : Value) : bool :=
  match d with
  | VInt n => (0 <=? n) && (n <=? 6)
  | VNotInteger => false
  end.

(** The numbers of an array that passed [isWeekdayNumber]. *)
Definition numbersOf (days : list Value) : list Z :=
  flat_map (fun d => match d with VInt n => [n] | VNotInteger => [] end) days.

(** [setDaysOfWeek]: the outcome and the habit afterwards. *)
Definition setDaysOfWeek (days : option (list Value)) (h : Habit)
    : Outcome * Habit :=
  match days with
  | None => (Returned, set_daysOfWeek None h)
  | Some l =>
      if (List.length l =? 0)%nat then (Returned, set_daysOfWeek None h)
      else if every isWeekdayNumber l
      then (Returned,
            set_daysOfWeek (Some (NumberSort.sort (setOf [] (numbersOf l)))) h)
      else (Thrown "Invalid days array. Must be an array of integers between 0-6", h)
  end.

Definition getDaysOfWeek (h : Habit) : option (list Z) := daysOfWeek h.




(** [toJSON] *)
Definition toJSON (h : Habit) : PlainObject :=
  {| obj_id := id h;
     obj_name := name h;
     obj_createdDate := Some (createdDate h);
     obj_completions := Some (completions h);
     obj_notificationTime := notificationTime h;
     obj_daysOfWeek := daysOfWeek h;
     obj_notes := Some (notes h);
     obj_tags := Some (tags h) |}.

(** [fromJSON]; [random] feeds the identifier the constructor generates
    before [obj.id] replaces it. *)
Definition fromJSON (random : string) (obj : PlainObject) : Habit :=
  let habit := new_Habit random (obj_name obj) (obj_createdDate obj)
                 (obj_completions obj) (obj_notificationTime obj)
                 (obj_daysOfWeek obj) (obj_notes obj) (obj_tags obj) in
  set_id (obj_id obj) habit.
End HabitClass.

(* ================================================================== *)
(** * The notifications module (src/habit/js/notifications.js) *)
(* ================================================================== *)

Section NotificationsModule.
Variable host : Host.

(** [habit.notificationTime.split(':').map(Number)], destructured at
    position [i]; a missing element is [undefined], which like [NaN] never
    equals a number. *)
Definition timePart (time : string) (i : nat) : option Z :=
  match nth_error (map Number (split ":" time)) i with
  | Some n => n
  | None => None
  end.

(** [a === b] for a number [a] and the value [b] of [timePart]. *)
Definition sameNumber (a : Z) (b : option Z) : bool :=
  match b with
  | Some x => a =? x
  | None => false
  end.

(** [shouldNotifyForHabit] *)
Definition shouldNotifyForHabit (h : Habit) : bool :=
  match notificationTime h with
  | None => false
  | Some time =>
      if (time =? "")%string then false
      else
        let today := toISODate (now host) in
        if negb (isActiveOnDay host h (DayDate (now host))) then false
        else if isCompletedOn host h (DateString today) then false
        else
          let notifHour := timePart time 0 in
          let notifMinute := timePart time 1 in
          let currentHour := getHours host (now host) in
          let currentMinute := getMinutes host (now host) in
          (sameNumber currentHour notifHour
           && sameNumber currentMinute notifMinute)%bool
  end.

(** The loop of [getNextNotificationTime]:
    [while (daysChecked < 7) { ... }] on a valid date. *)
Fixpoint nextActiveDay (fuel : nat) (days : list Z) (notificationTime : Z)
    (daysChecked : Z) : Z :=
  match fuel with
  | O => notificationTime
  | S fuel' =>
      if daysChecked <? 7 then
        let dayOfWeek := getDay host notificationTime in
        if includes days dayOfWeek then notificationTime
        else nextActiveDay fuel' days (addDays notificationTime 1)
               (daysChecked + 1)
      else notificationTime
  end.

(** The test [habit.daysOfWeek && habit.daysOfWeek.length > 0 &&
    habit.daysOfWeek.length < 7]. *)
Definition hasSomeDays (h : Habit) : option (list Z) :=
  match daysOfWeek h with
  | Some days =>
      if ((0 <? List.length days)%nat && (List.length days <? 7)%nat)%bool
      then Some days else None
  | None => None
  end.

(** [getNextNotificationTime]: [None] is [null]; the date returned is
    [None] when it is invalid, which the loop leaves as it is. *)
Definition getNextNotificationTime (h : Habit) : option (option Z) :=
  match notificationTime h with
  | None => None
  | Some time =>
      if (time =? "")%string then None
      else
        let hour := timePart time 0 in
        let minute := timePart time 1 in
        match setHours host (now host) hour minute (Some 0) (Some 0) with
        | None => Some None
        | Some atToday =>
            let notificationTime :=
              if atToday <=? now host then addDays atToday 1 else atToday in
            match hasSomeDays h with
            | Some days => Some (Some (nextActiveDay 7 days notificationTime 0))
            | None => Some (Some notificationTime)
            end
        end
  end.
End NotificationsModule.

(* ================================================================== *)
(** * The storage module (src/habit/js/storage.js) *)
(* ================================================================== *)

Definition STORAGE_KEY : string := "habitTracker_habits".
Definition STORAGE_VERSION_KEY : string := "habitTracker_version".
Definition CURRENT_VERSION : string := "1.0".

(** A text kept in [localStorage].  The text [JSON.stringify] writes for an
    array of habit records is kept as that array, which is what
    [JSON.parse] reads back from it: the records hold strings, integers,
    arrays of these and [null] only.  Every other text is [ItemText]; it is
    assumed not to be the JSON of an array.  Arrays whose elements are not
    habit records are outside the model. *)
Inductive Item :=
| ItemText (text : string)
| ItemHabits (data : list PlainObject).

(** [localStorage]: whether it can be used at all (every access throws
    when it cannot), and its keys with their texts.  There is no quota: a
    write to a usable storage succeeds. *)
Record LocalStorage := {
  usable : bool;
  items : list (string * Item)
}.

(** The text handed to [importData]: the JSON of an object with a [habits]
    array, or anything else (a text that is not JSON, or JSON without such
    an array). *)
Inductive ImportText :=
| ImportOther
| ImportDocument (version exportDate : string) (habits : list PlainObject).

Fixpoint lookupItem (key : string) (l : list (string * Item)) : option Item :=
  match l with
  | [] => None
  | (k, v) :: r => if (k =? key)%string then Some v else lookupItem key r
  end.

Fixpoint removeKey (key : string) (l : list (string * Item))
    : list (string * Item) :=
  match l with
  | [] => []
  | (k, v) :: r =>
      if (k =? key)%string then removeKey key r else (k, v) :: removeKey key r
  end.

(** [localStorage.getItem], [setItem] and [removeItem] on a usable
    storage. *)
Definition getItem (ls : LocalStorage) (key : string) : option Item :=
  lookupItem key (items ls).

Definition setItem (ls : LocalStorage) (key : string) (value : Item)
    : LocalStorage :=
  {| usable := usable ls;
     items := (key, value) :: removeKey key (items ls) |}.

Definition removeItem (ls : LocalStorage) (key : string) : LocalStorage :=
  {| usable := usable ls; items := removeKey key (items ls) |}.

(** The upsert of [saveHabit] and of the merge of [importData]:
    [findIndex] by identifier, then replace in place or [push]. *)
Definition upsert (habits : list Habit) (habit : Habit) : list Habit :=
  let existingIndex := findIndex (fun h => (id h =? id habit)%string) habits in
  if 0 <=? existingIndex then setAt habits existingIndex habit
  else push habits habit.

Section StorageModule.
Variable host : Host.

(** The text [Math.random] leads to in the [i]-th call of [_generateId]
    [fromJSON] makes while an array is read. *)
Variable random : nat -> string.

(** [data.map(d => Habit.fromJSON(d))] *)
Fixpoint fromJSONFrom (i : nat) (data : list PlainObject) : list Habit :=
  match data with
  | [] => []
  | d :: r => fromJSON host (random i) d :: fromJSONFrom (S i) r
  end.

(** [saveHabits]: the result and the storage afterwards. *)
Definition saveHabits (habits : list Habit) (ls : LocalStorage)
    : bool * LocalStorage :=
  if usable ls then
    let habitsData := map toJSON habits in
    let ls1 := setItem ls STORAGE_KEY (ItemHabits habitsData) in
    let ls2 := setItem ls1 STORAGE_VERSION_KEY (ItemText CURRENT_VERSION) in
    (true, ls2)
  else (false, ls).

(** [loadHabits] *)
Definition loadHabits (ls : LocalStorage) : list Habit :=
  if usable ls then
    match getItem ls STORAGE_KEY with
    | None => []
    | Some (ItemText _) => []
    | Some (ItemHabits habitsData) => fromJSONFrom 0 habitsData
    end
  else [].

(** [saveHabit] *)
Definition saveHabit (habit : Habit) (ls : LocalStorage)
    : bool * LocalStorage :=
  let habits := loadHabits ls in
  saveHabits (upsert habits habit) ls.

(** [deleteHabit] *)
Definition deleteHabit (habitId : string) (ls : LocalStorage)
    : bool * LocalStorage :=
  let habits := loadHabits ls in
  let filteredHabits :=
    filter (fun h => negb (id h =? habitId)%string) habits in
  if (List.length filteredHabits =? List.length habits)%nat then (false, ls)
  else saveHabits filteredHabits ls.

(** [getHabitById]: [None] is [null]. *)
Definition getHabitById (habitId : string) (ls : LocalStorage)
    : option Habit :=
  let habits := loadHabits ls in
  find (fun h => (id h =? habitId)%string) habits.

(** [clearAllData] *)
Definition clearAllData (ls : LocalStorage) : bool * LocalStorage :=
  if usable ls then
    (true, removeItem (removeItem ls STORAGE_KEY) STORAGE_VERSION_KEY)
  else (false, ls).

(** [getStorageVersion]: the text kept under the version key, [None] when
    there is none or the storage cannot be used. *)
Definition getStorageVersion (ls : LocalStorage) : option Item :=
  if usable ls then getItem ls STORAGE_VERSION_KEY else None.

(** [isStorageAvailable] *)
Definition isStorageAvailable (ls : LocalStorage) : bool * LocalStorage :=
  if usable ls then
    let testKey := "__storage_test__" in
    (true, removeItem (setItem ls testKey (ItemText "test")) testKey)
  else (false, ls).

(** [exportData]: the text returned, as [importData] reads it. *)
Definition exportData (ls : LocalStorage) : ImportText :=
  let habits := loadHabits ls in
  ImportDocument CURRENT_VERSION (toISOString (now host)) (map toJSON habits).

(** The [for] loop of the merge in [importData]. *)
Definition mergeHabits (allHabits importedHabits : list Habit) : list Habit :=
  fold_left upsert importedHabits allHabits.

(** [importData] *)
Definition importData (jsonString : ImportText) (merge : bool)
    (ls : LocalStorage) : bool * LocalStorage :=
  match jsonString with
  | ImportOther => (false, ls)
  | ImportDocument _ _ habits =>
      let importedHabits := fromJSONFrom 0 habits in
      if merge then
        let existingHabits := loadHabits ls in
        saveHabits (mergeHabits existingHabits importedHabits) ls
      else saveHabits importedHabits ls
  end.
End StorageModule.

(* ================================================================== *)
(** * The vocabulary of the properties *)
(* ================================================================== *)

Definition strLt (a b : string) : Prop := String.ltb a b = true.
Definition strLe (a b : string) : Prop := String.leb a b = true.

Definition StrictlyAscending (l : list string) : Prop :=
  StronglySorted strLt l.

(** A call of one of the two mutators of [completions], with the host it
    is made on (the clock and the zone may change between calls). *)
Inductive CompletionCall :=
| CallMarkCompleted (host : Host) (date : DateArg)
| CallMarkIncomplete (host : Host) (date : DateArg).

Definition call (c : CompletionCall) (h : Habit) : Habit :=
  match c with
  | CallMarkCompleted host date => markCompleted host date h
  | CallMarkIncomplete host date => markIncomplete host date h
  end.

(** The calls of [cs] made one after the other, the first one first. *)
Definition callAll (cs : list CompletionCall) (h : Habit) : Habit :=
  fold_left (fun h c => call c h) cs h.

(** The weekday of a day number. *)
Definition weekDayOfDay (d : Z) : Z := (d + 4) mod 7.

(** The [n] day numbers from [from] on. *)
Fixpoint dayRange (from : Z) (n : nat) : list Z :=
  match n with
  | O => []
  | S n' => from :: dayRange (from + 1) n'
  end.

(** The string of a day number, as [toISOString] writes it. *)
Definition dayString (d : Z) : string := toISODate (d * msPerDay).

(** The days from [first] through [last] whose weekday the habit
    schedules. *)
Definition scheduledDays (host : Host) (h : Habit) (first last : Z) : list Z :=
  filter (fun d => isActiveOnDay host h (DayNumber (weekDayOfDay d)))
         (dayRange first (Z.to_nat (last - first + 1))).

(** An array that holds each of the seven weekday numbers. *)
Definition coversWeek (days : list Z) : Prop :=
  forall d : Z, 0 <= d <= 6 -> In d days.

(** An argument of [isActiveOnDay] that denotes a day: a weekday number from
    0 to 6, a [Date] object, or a string whose parts give a valid date. *)
Definition validDay (host : Host) (x : DayArg) : Prop :=
  match dayOfWeekOf host x with
  | Some w => 0 <= w <= 6
  | None => False
  end.

Definition everyWeekday : list Z := [0; 1; 2; 3; 4; 5; 6].

(** The habits the program can build: made by the constructor or by
    [fromJSON], then changed by the mutators and by the assignments to
    [name], [notes] and [tags] the controller makes. *)
Inductive Reachable : Habit -> Prop :=
| Reach_new (host : Host) (random name : string)
    (createdDate : option string) (completions : option (list string))
    (notificationTime : option string) (daysOfWeek : option (list Z))
    (notes : option string) (tags : option (list string)) :
    Reachable (new_Habit host random name createdDate completions
                 notificationTime daysOfWeek notes tags)
| Reach_fromJSON (host : Host) (random : string) (obj : PlainObject) :
    Reachable (fromJSON host random obj)
| Reach_markCompleted (host : Host) (date : DateArg) (h : Habit) :
    Reachable h -> Reachable (markCompleted host date h)
| Reach_markIncomplete (host : Host) (date : DateArg) (h : Habit) :
    Reachable h -> Reachable (markIncomplete host date h)
| Reach_setNotificationTime (time : option string) (h : Habit) :
    Reachable h -> Reachable (snd (setNotificationTime time h))
| Reach_setDaysOfWeek (days : option (list Value)) (h : Habit) :
    Reachable h -> Reachable (snd (setDaysOfWeek days h))
| Reach_name (v : string) (h : Habit) :
    Reachable h -> Reachable (set_name v h)
| Reach_notes (v : string) (h : Habit) :
    Reachable h -> Reachable (set_notes v h)
| Reach_tags (v : list string) (h : Habit) :
    Reachable h -> Reachable (set_tags v h).


(** The invariant of [daysOfWeek] in the data model: ascending without
    repetition, every element a weekday number. *)
Definition ScheduleInvariant (days : list Z) : Prop :=
  StronglySorted Z.lt days /\ Forall (fun d => 0 <= d <= 6) days.

Definition HabitScheduleInvariant (h : Habit) : Prop :=
  forall days, daysOfWeek h = Some days -> ScheduleInvariant days.

(** The days from 2020-01-01 through 2029-12-31, on which the calendar
    functions and the texts of the days are checked by evaluation. *)
Definition checkedFrom : Z := 18262.
Definition checkedTo : Z := 21915.

Definition parsesBack (d : Z) : bool :=
  match Date_parse (dayString d) with
  | Some t => t =? d * msPerDay
  | None => false
  end.

Definition nextIsGreater (d : Z) : bool :=
  String.ltb (dayString d) (dayString (d + 1)).

(** The relative error of one rounding to a double, [2 ^ -53]. *)
Definition doubleEpsilon : Q := 1 # 9007199254740992.

(** The product [(total / s) * 100] computed with the binary64 operations
    of the Standard Library's specification of floating point, against
    which the arithmetic of [JS] is checked by evaluation. *)
Definition SFofZ (z : Z) : spec_float := binary_normalize 53 1024 z 0 false.

Definition SF2Q (f : spec_float) : option Q :=
  match f with
  | S754_zero _ => Some 0%Q
  | S754_finite s m e =>
      Some ((if s then - inject_Z (Zpos m) else inject_Z (Zpos m)) * 2 ^ e)%Q
  | S754_infinity _ => None
  | S754_nan => None
  end.

Definition specFloatPercent (total s : Z) : option Q :=
  SF2Q (SFmul 53 1024 (SFdiv 53 1024 (SFofZ total) (SFofZ s)) (SFofZ 100)).

Definition agreesWithSpecFloat (total s : Z) : bool :=
  match specFloatPercent total s with
  | Some q =>
      Qeq_bool q
        (double_mul (double_div (inject_Z total) (inject_Z s)) (inject_Z 100))
  | None => false
  end.

(** The ratios of the check: every [total] from 0 to [2 * s] for [s] from 1
    to 60, and some large operands. *)
Definition checkedRatios : list (Z * Z) :=
  flat_map (fun s => map (fun total => (total, s))
                       (dayRange 0 (Z.to_nat (2 * s + 1))))
    (dayRange 1 60)
  ++ flat_map (fun s => map (fun total => (total, s))
                          [4294967295; 2147483648; 123456789; 1000003])
       [1; 3; 7; 36524; 86400000; 99999989; 4294967296; 9007199254740991].

(** ** The vocabulary of the further properties *)

(** A text without the character [c]. *)
Definition lacks (c : ascii) (s : string) : Prop :=
  ~ In c (list_ascii_of_string s).

(** Two-digit and four-digit texts, checked on all their values. *)
Definition twoDigits (v : Z) : string := padStart 2 "0" (toString v).

Definition twoDigitsChecked (v : Z) : bool :=
  (Nat.eqb (String.length (twoDigits v)) 2
   && match digitsPrefix 10 (twoDigits v) None with
      | Some x => x =? v
      | None => false
      end
   && match parseInt (twoDigits v) with
      | Some x => x =? v
      | None => false
      end
   && match Number (twoDigits v) with
      | Some x => x =? v
      | None => false
      end)%bool.

Definition fourDigitsChecked (y : Z) : bool :=
  (Nat.eqb (String.length (padStart 4 "0" (toString y))) 4
   && match digitsPrefix 10 (padStart 4 "0" (toString y)) None with
      | Some x => x =? y
      | None => false
      end)%bool.

Definition yearTextChecked (y : Z) : bool :=
  ((padStart 4 "0" (toString y) =? toString y)%string
   && match parseInt (toString y) with
      | Some x => x =? y
      | None => false
      end)%bool.

(** The calendar year of a day number. *)
Definition yearOfDay (d : Z) : Z := fst (fst (civilFromDays d)).

(** The text [_normalizeDate] writes for the local day [d]. *)
Definition formatDay (d : Z) : string :=
  let '(y, m, dd) := civilFromDays d in
  toString y ++ "-" ++ twoDigits m ++ "-" ++ twoDigits dd.

(** [l] without the first occurrence of [x]. *)
Fixpoint removeFirst (x : string) (l : list string) : list string :=
  match l with
  | [] => []
  | y :: r => if (y =? x)%string then r else y :: removeFirst x r
  end.

(** The text of a time of the day. *)
Definition timeText (hour minute : Z) : string :=
  twoDigits hour ++ ":" ++ twoDigits minute.

(** The character of a decimal digit. *)
Definition digitChar (v : Z) : ascii := ascii_of_nat (48 + Z.to_nat v).

Definition twoDigitsShape (v : Z) : bool :=
  (twoDigits v
   =? String (digitChar (v / 10)) (String (digitChar (v mod 10)) ""))%string.

Definition timeTextAccepted (minuteOfDay : Z) : bool :=
  _isValidTimeString (timeText (minuteOfDay / 60) (minuteOfDay mod 60)).

(** Two states of the walk of [calculateStreak], each on its host, that
    stand on the same local day and differ by [k] in the streak only. *)
Definition sameWalk (host1 host2 : Host) (k : Z) (w1 w2 : Walk) : Prop :=
  Day (LocalTime host1 (currentDate w1)) = Day (LocalTime host2 (currentDate w2))
  /\ streak w2 = streak w1 + k
  /\ checkingToday w2 = checkingToday w1
  /\ daysChecked w2 = daysChecked w1.

(** What the walk of [calculateStreak] has found when it stands on a day:
    the days [ds] it has counted, each completed, and [top], the latest of
    them; every scheduled day from the one after the walk's day through
    [top] is counted. *)
Definition countedRun (host : Host) (h : Habit) (today : Z) (w : Walk)
    (ds : list Z) (top : Z) : Prop :=
  let D := Day (LocalTime host (currentDate w)) in
  D = today - daysChecked w
  /\ 0 <= daysChecked w
  /\ NoDup ds
  /\ Z.of_nat (List.length ds) = streak w
  /\ (forall d, In d ds -> D < d <= top /\ In (formatDay d) (completions h))
  /\ (forall d, D < d <= top ->
        isActiveOnDay host h (DayNumber (weekDayOfDay d)) = true -> In d ds)
  /\ D <= top <= today
  /\ (checkingToday w = true -> ds = [])
  /\ (ds = [] -> top = D).

(** The local time of the day of a time value, in milliseconds since the
    local midnight. *)
Definition timeOfDay (host : Host) (t : Z) : Z := LocalTime host t mod msPerDay.

(** The time of the day [hour:minute], in milliseconds. *)
Definition clockTime (hour minute : Z) : Z :=
  hour * msPerHour + minute * msPerMinute.

(** The same zone at the moment [t]. *)
Definition hostAt (host : Host) (t : Z) : Host :=
  {| now := t; LocalTZA := LocalTZA host |}.

(** A habit whose creation date is not the empty text. *)
Definition hasCreatedDate (h : Habit) : Prop := createdDate h <> "".

(** Whether a habit has the identifier [i]. *)
Definition hasId (i : string) (h : Habit) : bool := (id h =? i)%string.

(** The days before the first of March of the year [y], up to a
    constant. *)
Definition daysBeforeMarch (y : Z) : Z := 365 * y + y / 4 - y / 100 + y / 400.

(** The date [(y1, m1, d1)] comes before [(y2, m2, d2)]. *)
Definition dateBefore (a b : Z * Z * Z) : Prop :=
  let '(y1, m1, d1) := a in
  let '(y2, m2, d2) := b in
  y1 < y2 \/ (y1 = y2 /\ (m1 < m2 \/ (m1 = m2 /\ d1 < d2))).

Definition validDate (a : Z * Z * Z) : Prop :=
  let '(y, m, d) := a in 1 <= m <= 12 /\ 1 <= d <= daysInMonth y m.

(** The month index counted from March. *)
Definition marchMonth (m : Z) : Z := if 2 <? m then m - 3 else m + 9.

(** A year in four digits. *)
Definition fourDigits (y : Z) : string := padStart 4 "0" (toString y).

Definition nextTwoDigitsGreater (v : Z) : bool :=
  String.ltb (twoDigits v) (twoDigits (v + 1)).

Definition fourDigitsSplit (y : Z) : bool :=
  (fourDigits y =? twoDigits (y / 100) ++ twoDigits (y mod 100))%string.

(** The run test passes between each two neighbours of [prev :: rest]. *)
Fixpoint allPass (host : Host) (h : Habit) (prev : string)
    (rest : list string) : bool :=
  match rest with
  | [] => true
  | y :: r => allScheduledDaysCompleted host h prev y && allPass host h y r
  end.

(** The texts from [lo] through [hi] in the order of the strings. *)
Definition textBetween (lo hi x : string) : bool :=
  (String.leb lo x && String.leb x hi)%bool.

(** The day [d] put at its place in an ascending list of days. *)
Fixpoint insertDay (d : Z) (days : list Z) : list Z :=
  match days with
  | [] => [d]
  | x :: r =>
      if d <? x then d :: days
      else if d =? x then days
      else x :: insertDay d r
  end.

(* ================================================================== *)
(** * Sample hosts and habits *)
(* ================================================================== *)

(** Sunday 2024-01-07, 12:00 UTC, in a zone on UTC. *)
Definition sundayNoonUTC : Host :=
  {| now := 1704628800000; LocalTZA := 0 |}.

(** Tuesday 2024-01-09, 12:00 local time, five hours west of UTC. *)
Definition tuesdayNoonWest : Host :=
  {| now := 1704819600000; LocalTZA := -18000000 |}.

(** The same instant in a zone on UTC. *)
Definition tuesdayUTC : Host :=
  {| now := 1704819600000; LocalTZA := 0 |}.

(** A habit scheduled on Monday, Wednesday and Friday, completed on
    Wednesday 2024-01-03 only. *)
Definition mwfHabit : Habit :=
  {| id := "habit_1704067200000_k3x9q2m1z";
     name := "Run";
     createdDate := "2024-01-01";
     completions := ["2024-01-03"];
     notificationTime := None;
     daysOfWeek := Some [1; 3; 5];
     notes := "";
     tags := [] |}.

(** A habit scheduled on Saturday only, completed on Saturday 2024-01-06
    and on Monday 2024-01-08. *)
Definition saturdayHabit : Habit :=
  {| id := "habit_1704067200000_p0o9i8u7y";
     name := "Market";
     createdDate := "2024-01-01";
     completions := ["2024-01-06"; "2024-01-08"];
     notificationTime := None;
     daysOfWeek := Some [6];
     notes := "";
     tags := [] |}.

(** The [n] calendar days that end with the UTC day of [t], oldest first. *)
Definition lastDays (t : Z) (n : nat) : list string :=
  rev (map (fun k => toISODate (t - Z.of_nat k * msPerDay)) (seq 0 n)).

(** A habit without day restriction, completed on each of the last 400
    days. *)
Definition longRunHabit : Habit :=
  {| id := "habit_1670000000000_a1b2c3d4e";
     name := "Read";
     createdDate := "2022-12-01";
     completions := lastDays (now sundayNoonUTC) 400;
     notificationTime := None;
     daysOfWeek := None;
     notes := "";
     tags := [] |}.

(** A habit without day restriction, completed on the given days. *)
Definition dailyHabit (completed : list string) : Habit :=
  {| id := "habit_1703000000000_d4a1l2y3h";
     name := "Journal";
     createdDate := "2023-12-01";
     completions := completed;
     notificationTime := None;
     daysOfWeek := None;
     notes := "";
     tags := [] |}.

(** A habit created at [sundayNoonUTC] through the constructor, scheduled on
    Monday only: a brand-new habit whose creation day is not scheduled. *)
Definition mondayHabitCreatedToday : Habit :=
  new_Habit sundayNoonUTC "k3x9q2m1z" "Gym" None None None (Some [1]) None None.

(** A habit created on 2024-01-07 whose completions name that day twice,
    as the completions of a stored record can. *)
Definition twiceTodayHabit : Habit :=
  {| id := "habit_1704585600000_t2w1c3e4x";
     name := "Water";
     createdDate := "2024-01-07";
     completions := ["2024-01-07"; "2024-01-07"];
     notificationTime := None;
     daysOfWeek := None;
     notes := "";
     tags := [] |}.

(** A habit whose recorded creation day, 2024-01-09, lies two days after
    the day of [sundayNoonUTC]. *)
Definition habitCreatedAhead : Habit :=
  {| id := "habit_1704758400000_q7w8e9r0t";
     name := "Stretch";
     createdDate := "2024-01-09";
     completions := [];
     notificationTime := None;
     daysOfWeek := None;
     notes := "";
     tags := [] |}.

(** A stored record whose completions are out of order and name
    2024-01-05 twice. *)
Definition unsortedRecord : PlainObject :=
  {| obj_id := "habit_1704067200000_m5n6b7v8c";
     obj_name := "Walk";
     obj_createdDate := Some "2024-01-01";
     obj_completions := Some ["2024-01-05"; "2024-01-03"; "2024-01-05"];
     obj_notificationTime := None;
     obj_daysOfWeek := None;
     obj_notes := Some "";
     obj_tags := Some [] |}.

(** Late on Sunday 2024-01-07 in a zone five hours east of UTC: the same
    local day as [sundayNoonUTC], another instant and another zone. *)
Definition sundayEveningEast : Host :=
  {| now := 1704650400000; LocalTZA := 18000000 |}.

(** A habit scheduled on Monday, Wednesday and Friday with a reminder at
    half past seven in the morning. *)
Definition mwfMorningHabit : Habit :=
  set_notificationTime (Some (timeText 7 30)) mwfHabit.

(** A usable storage that holds nothing. *)
Definition emptyStorage : LocalStorage := {| usable := true; items := [] |}.

(** The random texts of the sample runs. *)
Definition sampleRandom (i : nat) : string := "r4nd0mt3x".

(** A storage that holds [mwfHabit] and [saturdayHabit]. *)
Definition twoHabitStorage : LocalStorage :=
  snd (saveHabits [mwfHabit; saturdayHabit] emptyStorage).

(* ================================================================== *)
(** * Facts about the runtime *)
(* ================================================================== *)

(** ** The order on strings *)

Lemma ascii_compare_refl (a : ascii) : Ascii.compare a a = Eq.
Proof. unfold Ascii.compare. apply N.compare_refl. Qed.

Lemma ascii_compare_lt_trans (a b c : ascii) :
  Ascii.compare a b = Lt -> Ascii.compare b c = Lt -> Ascii.compare a c = Lt.
Proof.
  unfold Ascii.compare. rewrite !N.compare_lt_iff. apply N.lt_trans.
Qed.

Lemma string_compare_refl (s : string) : String.compare s s = Eq.
Proof.
  induction s as [|a s IH]; simpl; [reflexivity|].
  now rewrite ascii_compare_refl.
Qed.

Lemma string_compare_lt_trans (a b c : string) :
  String.compare a b = Lt -> String.compare b c = Lt -> String.compare a c = Lt.
Proof.
  revert b c.
  induction a as [|x a IH]; intros [|y b] [|z c]; simpl; try discriminate; auto.
  destruct (Ascii.compare x y) eqn:Exy; try discriminate;
    destruct (Ascii.compare y z) eqn:Eyz; try discriminate; intros Hab Hbc.
  - apply Ascii.compare_eq_iff in Exy, Eyz. subst.
    rewrite ascii_compare_refl. eauto.
  - apply Ascii.compare_eq_iff in Exy. subst. now rewrite Eyz.
  - apply Ascii.compare_eq_iff in Eyz. subst. now rewrite Exy.
  - now rewrite (ascii_compare_lt_trans _ _ _ Exy Eyz).
Qed.

Lemma strLt_trans (a b c : string) : strLt a b -> strLt b c -> strLt a c.
Proof.
  unfold strLt, String.ltb. intros Hab Hbc.
  destruct (String.compare a b) eqn:Eab; try discriminate.
  destruct (String.compare b c) eqn:Ebc; try discriminate.
  now rewrite (string_compare_lt_trans _ _ _ Eab Ebc).
Qed.

Lemma strLt_irrefl (a : string) : ~ strLt a a.
Proof.
  unfold strLt, String.ltb. now rewrite string_compare_refl.
Qed.

Lemma strLe_neq_strLt (a b : string) : strLe a b -> a <> b -> strLt a b.
Proof.
  unfold strLe, strLt, String.leb, String.ltb. intros Hle Hne.
  destruct (String.compare a b) eqn:E; try discriminate; auto.
  apply String.compare_eq_iff in E. contradiction.
Qed.

(** ** Strictly ascending arrays *)

Lemma StrictlyAscending_NoDup (l : list string) :
  StrictlyAscending l -> NoDup l.
Proof.
  induction 1 as [|a l Hs IH Hall]; constructor; auto.
  intros Hin. rewrite Forall_forall in Hall.
  exact (strLt_irrefl a (Hall a Hin)).
Qed.

Lemma StronglySorted_app_inv {A} (R : A -> A -> Prop) (l1 l2 : list A) :
  StronglySorted R (l1 ++ l2) ->
  StronglySorted R l1 /\ StronglySorted R l2
  /\ (forall x y, In x l1 -> In y l2 -> R x y).
Proof.
  induction l1 as [|a l1 IH]; simpl; intros H.
  - repeat split; [constructor | assumption | contradiction].
  - apply StronglySorted_inv in H. destruct H as [Hs Hall].
    destruct (IH Hs) as (H1 & H2 & H12).
    rewrite Forall_app in Hall. destruct Hall as [Ha1 Ha2].
    repeat split; auto.
    + constructor; assumption.
    + intros x y [->|Hx] Hy; [|auto].
      rewrite Forall_forall in Ha2. auto.
Qed.

Lemma StronglySorted_app {A} (R : A -> A -> Prop) (l1 l2 : list A) :
  StronglySorted R l1 -> StronglySorted R l2 ->
  (forall x y, In x l1 -> In y l2 -> R x y) ->
  StronglySorted R (l1 ++ l2).
Proof.
  induction l1 as [|a l1 IH]; simpl; intros H1 H2 H12; [assumption|].
  apply StronglySorted_inv in H1. destruct H1 as [Hs Hall].
  constructor.
  - apply IH; auto.
  - rewrite Forall_app. split; [assumption|].
    rewrite Forall_forall. intros y Hy. apply H12; auto.
Qed.

(** Taking one element out of a sorted array leaves it sorted. *)
Lemma StronglySorted_splice1 {A} (R : A -> A -> Prop) (l : list A) (i : Z) :
  StronglySorted R l -> StronglySorted R (splice1 l i).
Proof.
  unfold splice1. intros H.
  rewrite <- (firstn_skipn (Z.to_nat i) l) in H.
  apply StronglySorted_app_inv in H. destruct H as (H1 & H2 & H12).
  apply StronglySorted_app; auto.
  - destruct (skipn (Z.to_nat i) l) as [|a r] eqn:E.
    + replace (skipn (S (Z.to_nat i)) l) with (@nil A); [constructor|].
      change (S (Z.to_nat i)) with (1 + Z.to_nat i)%nat.
      now rewrite <- skipn_skipn, E.
    + replace (skipn (S (Z.to_nat i)) l) with r.
      * now apply StronglySorted_inv in H2.
      * change (S (Z.to_nat i)) with (1 + Z.to_nat i)%nat.
        now rewrite <- skipn_skipn, E.
  - intros x y Hx Hy. apply H12; auto.
    change (S (Z.to_nat i)) with (1 + Z.to_nat i)%nat in Hy.
    rewrite <- skipn_skipn in Hy.
    destruct (skipn (Z.to_nat i) l); simpl in Hy; [contradiction|].
    now right.
Qed.

(** ** [includes] and [indexOf] *)

Lemma includes_string_In (l : list string) (x : string) :
  includes l x = true <-> In x l.
Proof.
  unfold includes. rewrite existsb_exists. split.
  - intros (y & Hy & E). apply String.eqb_eq in E. now subst.
  - intros H. exists x. split; [assumption | apply String.eqb_refl].
Qed.

Lemma includes_Z_In (l : list Z) (x : Z) :
  includes l x = true <-> In x l.
Proof.
  unfold includes. rewrite existsb_exists. split.
  - intros (y & Hy & E). apply Z.eqb_eq in E. now subst.
  - intros H. exists x. split; [assumption | apply Z.eqb_refl].
Qed.

(** ** The default sort on strings *)

Lemma Sorted_leb_NoDup_strict (l : list string) :
  Sorted (fun a b => is_true (String.leb a b)) l -> NoDup l ->
  Sorted strLt l.
Proof.
  induction 1 as [|a l Hs IH Hhd]; intros Hnd; constructor.
  - apply IH. now inversion Hnd.
  - inversion Hnd as [|? ? Hnotin _]; subst.
    destruct Hhd as [|b l Hab]; constructor.
    apply strLe_neq_strLt; [exact Hab|].
    intros ->. apply Hnotin. now left.
Qed.

Lemma sort_StrictlyAscending (l : list string) :
  NoDup l -> StrictlyAscending (StringSort.sort l).
Proof.
  intros Hnd. apply Sorted_StronglySorted; [exact strLt_trans|].
  apply Sorted_leb_NoDup_strict.
  - apply StringSort.Sorted_sort.
  - apply (Permutation_NoDup (StringSort.Permuted_sort l) Hnd).
Qed.

Lemma sort_In (l : list string) (x : string) :
  In x (StringSort.sort l) <-> In x l.
Proof.
  split; apply Permutation_in;
    [apply Permutation_sym |]; apply StringSort.Permuted_sort.
Qed.

(** ** The calendar and the texts of the days, checked by evaluation *)

Lemma dayRange_length (from : Z) (n : nat) : List.length (dayRange from n) = n.
Proof.
  revert from. induction n as [|n IH]; intros from; simpl; [reflexivity|].
  now rewrite IH.
Qed.

Lemma dayRange_In (from : Z) (n : nat) (d : Z) :
  In d (dayRange from n) <-> from <= d < from + Z.of_nat n.
Proof.
  revert from. induction n as [|n IH]; intros from; simpl; [lia|].
  rewrite IH. lia.
Qed.

(** [new Date(s)] reads the string [toISOString] writes for a day as the
    UTC midnight of that day. *)
Lemma Date_parse_dayString (d : Z) :
  checkedFrom <= d < checkedTo ->
  Date_parse (dayString d) = Some (d * msPerDay).
Proof.
  intros Hd.
  assert (H : forallb parsesBack
                (dayRange checkedFrom (Z.to_nat (checkedTo - checkedFrom)))
              = true)
    by (vm_compute; reflexivity).
  rewrite forallb_forall in H. specialize (H d).
  unfold parsesBack in H.
  destruct (Date_parse (dayString d)) as [t|].
  - f_equal. apply Z.eqb_eq, H, dayRange_In.
    unfold checkedFrom, checkedTo in *. lia.
  - discriminate H. apply dayRange_In.
    unfold checkedFrom, checkedTo in *. lia.
Qed.

(** The order of the day strings is the order of the days. *)
Lemma dayString_next (d : Z) :
  checkedFrom <= d < checkedTo - 1 ->
  strLt (dayString d) (dayString (d + 1)).
Proof.
  intros Hd.
  assert (H : forallb nextIsGreater
                (dayRange checkedFrom (Z.to_nat (checkedTo - 1 - checkedFrom)))
              = true)
    by (vm_compute; reflexivity).
  rewrite forallb_forall in H. apply (H d), dayRange_In.
  unfold checkedFrom, checkedTo in *. lia.
Qed.

Lemma dayString_lt (d1 d2 : Z) :
  checkedFrom <= d1 -> d1 < d2 -> d2 < checkedTo ->
  strLt (dayString d1) (dayString d2).
Proof.
  intros H0 Hlt Hmax.
  assert (Hn : forall n : nat,
             d1 + 1 + Z.of_nat n < checkedTo ->
             strLt (dayString d1) (dayString (d1 + 1 + Z.of_nat n))).
  { induction n as [|n IH]; intros Hb.
    - rewrite Z.add_0_r. apply dayString_next. lia.
    - apply (strLt_trans _ (dayString (d1 + 1 + Z.of_nat n))).
      + apply IH. lia.
      + replace (d1 + 1 + Z.of_nat (S n))
          with (d1 + 1 + Z.of_nat n + 1) by lia.
        apply dayString_next. lia. }
  specialize (Hn (Z.to_nat (d2 - d1 - 1))).
  replace (d1 + 1 + Z.of_nat (Z.to_nat (d2 - d1 - 1))) with d2 in Hn by lia.
  auto.
Qed.

(* ================================================================== *)
(** * Completion tracking *)
(* ================================================================== *)

Section CompletionTracking.
Variable host : Host.

Lemma markCompleted_completions (date : DateArg) (h : Habit) :
  completions (markCompleted host date h) =
  if includes (completions h) (_normalizeDate host date)
  then completions h
  else StringSort.sort (completions h ++ [_normalizeDate host date]).
Proof.
  unfold markCompleted, push.
  now destruct (includes (completions h) (_normalizeDate host date)).
Qed.

Lemma markCompleted_ascending (date : DateArg) (h : Habit) :
  StrictlyAscending (completions h) ->
  StrictlyAscending (completions (markCompleted host date h)).
Proof.
  intros Hs. rewrite markCompleted_completions.
  destruct (includes (completions h) (_normalizeDate host date)) eqn:E;
    [assumption|].
  apply sort_StrictlyAscending.
  apply NoDup_app; [now apply StrictlyAscending_NoDup | | ].
  - constructor; [intros [] | constructor].
  - intros x Hx [<-|[]].
    apply includes_string_In in Hx. congruence.
Qed.

Lemma markIncomplete_ascending (date : DateArg) (h : Habit) :
  StrictlyAscending (completions h) ->
  StrictlyAscending (completions (markIncomplete host date h)).
Proof.
  intros Hs. unfold markIncomplete.
  destruct (-1 <? indexOf (completions h) (_normalizeDate host date));
    [|assumption].
  simpl. now apply StronglySorted_splice1.
Qed.

(** Marking a day that is already completed changes nothing. *)
Lemma markCompleted_completed (date : DateArg) (h : Habit) :
  isCompletedOn host h date = true -> markCompleted host date h = h.
Proof.
  unfold isCompletedOn, markCompleted. now intros ->.
Qed.

Lemma isCompletedOn_markCompleted (date : DateArg) (h : Habit) :
  isCompletedOn host (markCompleted host date h) date = true.
Proof.
  unfold isCompletedOn. rewrite markCompleted_completions.
  destruct (includes (completions h) (_normalizeDate host date)) eqn:E;
    [assumption|].
  apply includes_string_In, sort_In, in_or_app. right. now left.
Qed.

Lemma markCompleted_twice (date : DateArg) (h : Habit) :
  markCompleted host date (markCompleted host date h) =
  markCompleted host date h.
Proof.
  apply markCompleted_completed, isCompletedOn_markCompleted.
Qed.
End CompletionTracking.

Lemma callAll_ascending (cs : list CompletionCall) (h : Habit) :
  StrictlyAscending (completions h) ->
  StrictlyAscending (completions (callAll cs h)).
Proof.
  unfold callAll. revert h.
  induction cs as [|c cs IH]; intros h Hs; simpl; [assumption|].
  apply IH. destruct c; simpl.
  - now apply markCompleted_ascending.
  - now apply markIncomplete_ascending.
Qed.

(** C4. From a habit whose [completions] is strictly ascending (hence
    without a duplicate day), every sequence of [markCompleted] and
    [markIncomplete] calls leaves [completions] strictly ascending and
    duplicate free.  Calling [markCompleted] twice with the same day gives
    the very habit one call gives, so [completions] has the same size and
    contents; and [markCompleted] on a day that is already completed returns
    normally and changes nothing. *)
Theorem C4_completions_stay_strictly_ascending :
  forall (h : Habit),
    StrictlyAscending (completions h) ->
    (forall cs : list CompletionCall,
        StrictlyAscending (completions (callAll cs h))
        /\ NoDup (completions (callAll cs h)))
    /\ (forall (cs : list CompletionCall) (host : Host) (d : DateArg),
           let h' := callAll cs h in
           markCompleted host d (markCompleted host d h')
           = markCompleted host d h'
           /\ List.length (completions (markCompleted host d (markCompleted host d h')))
              = List.length (completions (markCompleted host d h')))
    /\ (forall (cs : list CompletionCall) (host : Host) (d : DateArg),
           let h' := callAll cs h in
           isCompletedOn host h' d = true ->
           markCompleted host d h' = h').
Proof.
  intros h Hs. split; [|split].
  - intros cs. pose proof (callAll_ascending cs h Hs) as H.
    split; [exact H | now apply StrictlyAscending_NoDup].
  - intros cs host d h'. rewrite markCompleted_twice. split; reflexivity.
  - intros cs host d h' Hd. now apply markCompleted_completed.
Qed.

(** The theorem at [saturdayHabit], whose two completions are in order. *)
Lemma C4_completions_stay_strictly_ascending_witness :
  StrictlyAscending (completions saturdayHabit)
  /\ forall cs : list CompletionCall,
       StrictlyAscending (completions (callAll cs saturdayHabit))
       /\ NoDup (completions (callAll cs saturdayHabit)).
Proof.
  assert (Hs : StrictlyAscending (completions saturdayHabit)).
  { unfold StrictlyAscending, saturdayHabit. simpl.
    repeat constructor. }
  split; [exact Hs|].
  exact (proj1 (C4_completions_stay_strictly_ascending saturdayHabit Hs)).
Defined.

(* ================================================================== *)
(** * The current streak *)
(* ================================================================== *)

Section StreakWalk.
Variable host : Host.
Variable h : Habit.

Lemma streakStep_next (w w' : Walk) :
  streakStep host h w = Some w' ->
  daysChecked w' = daysChecked w + 1
  /\ currentDate w' = addDays (currentDate w) (-1)
  /\ streak w <= streak w' <= streak w + 1.
Proof.
  unfold streakStep.
  destruct (isActiveOnDay host h (DayDate (currentDate w)));
    [destruct (isCompletedOn host h _); [|destruct (checkingToday w)]|];
    intros E; inversion E; subst; simpl; repeat split; lia.
Qed.

(** What the loop keeps true, whatever the fuel. *)
Lemma streakLoop_bounds (fuel : nat) (w : Walk) :
  let w' := streakLoop host fuel h w in
  daysChecked w <= daysChecked w'
  /\ daysChecked w' <= Z.max (daysChecked w) 365
  /\ streak w <= streak w'
  /\ streak w' - streak w <= daysChecked w' - daysChecked w.
Proof.
  revert w. induction fuel as [|fuel IH]; intros w; simpl; [lia|].
  destruct (daysChecked w <? 365) eqn:E; [|lia].
  apply Z.ltb_lt in E.
  destruct (streakStep host h w) as [w1|] eqn:Es; [|lia].
  apply streakStep_next in Es. specialize (IH w1). simpl in IH. lia.
Qed.

(** With at least [365 - daysChecked] units of fuel the loop stops
    because its condition fails or because it breaks. *)
Lemma streakLoop_exit (fuel : nat) (w : Walk) :
  365 - daysChecked w <= Z.of_nat fuel ->
  let w' := streakLoop host fuel h w in
  365 <= daysChecked w' \/ streakStep host h w' = None.
Proof.
  revert w. induction fuel as [|fuel IH]; intros w Hf; simpl.
  - left. lia.
  - destruct (daysChecked w <? 365) eqn:E.
    + destruct (streakStep host h w) as [w1|] eqn:Es; [|now right].
      apply IH. apply streakStep_next in Es. lia.
    + left. apply Z.ltb_ge in E. lia.
Qed.

(** More fuel than that changes nothing. *)
Lemma streakLoop_more_fuel (fuel extra : nat) (w : Walk) :
  365 - daysChecked w <= Z.of_nat fuel ->
  streakLoop host (fuel + extra) h w = streakLoop host fuel h w.
Proof.
  revert w. induction fuel as [|fuel IH]; intros w Hf; simpl.
  - destruct extra; simpl; [reflexivity|].
    replace (daysChecked w <? 365) with false; [reflexivity|].
    symmetry. apply Z.ltb_ge. lia.
  - destruct (daysChecked w <? 365) eqn:E; [|reflexivity].
    destruct (streakStep host h w) as [w1|] eqn:Es; [|reflexivity].
    apply IH. apply streakStep_next in Es. lia.
Qed.
End StreakWalk.

(** C5. [calculateStreak] is 0 when [completions] is empty; its loop
    examines at most 365 days and ends by its own condition or by [break];
    the streak counts examined days only, so it never exceeds 365. *)
Theorem C5_streak_examines_at_most_365_days :
  forall (host : Host) (h : Habit),
    (completions h = [] -> calculateStreak host h = 0)
    /\ 0 <= daysChecked (streakWalk host h) <= 365
    /\ (daysChecked (streakWalk host h) = 365
        \/ streakStep host h (streakWalk host h) = None)
    /\ (forall extra : nat,
           streakLoop host (365 + extra) h (streakStart host)
           = streakWalk host h)
    /\ 0 <= streak (streakWalk host h) <= daysChecked (streakWalk host h)
    /\ 0 <= calculateStreak host h <= 365.
Proof.
  intros host h.
  pose proof (streakLoop_bounds host h 365 (streakStart host)) as Hb.
  pose proof (streakLoop_exit host h 365 (streakStart host)) as He.
  fold (streakWalk host h) in Hb, He. simpl in Hb, He.
  split; [|split; [|split; [|split; [|split]]]].
  - intros E. unfold calculateStreak. now rewrite E.
  - lia.
  - destruct He as [He|He]; [lia | left; lia | now right].
  - intros extra. apply streakLoop_more_fuel. simpl. lia.
  - lia.
  - unfold calculateStreak.
    destruct (List.length (completions h) =? 0)%nat; lia.
Qed.

(** The loop of [calculateStreak] when it meets a scheduled day that is not
    completed: it goes on while [checkingToday] is set and breaks
    otherwise. *)
Lemma streakStep_incomplete (host : Host) (h : Habit) (w : Walk) :
  isActiveOnDay host h (DayDate (currentDate w)) = true ->
  isCompletedOn host h
    (DateString (_normalizeDate host (DateObject (currentDate w)))) = false ->
  streakStep host h w =
  if checkingToday w
  then Some {| currentDate := addDays (currentDate w) (-1);
               streak := streak w;
               checkingToday := false;
               daysChecked := daysChecked w + 1 |}
  else None.
Proof.
  intros Ha Hc. unfold streakStep. rewrite Ha, Hc. reflexivity.
Qed.

(** A day that is not scheduled leaves [checkingToday] as it is. *)
Lemma streakStep_unscheduled (host : Host) (h : Habit) (w : Walk) :
  isActiveOnDay host h (DayDate (currentDate w)) = false ->
  streakStep host h w =
  Some {| currentDate := addDays (currentDate w) (-1);
          streak := streak w;
          checkingToday := checkingToday w;
          daysChecked := daysChecked w + 1 |}.
Proof.
  intros Ha. unfold streakStep. now rewrite Ha.
Qed.

(** With today scheduled, a scheduled day that is not completed is
    tolerated on the first turn only: the flag is cleared by every scheduled
    day and never set again. *)
Lemma streakStep_scheduled_clears (host : Host) (h : Habit) (w w' : Walk) :
  isActiveOnDay host h (DayDate (currentDate w)) = true ->
  streakStep host h w = Some w' -> checkingToday w' = false.
Proof.
  intros Ha. unfold streakStep. rewrite Ha.
  destruct (isCompletedOn host h _); [|destruct (checkingToday w)];
    intros E; inversion E; reflexivity.
Qed.

Lemma streakStep_cleared_stays (host : Host) (h : Habit) (w w' : Walk) :
  checkingToday w = false ->
  streakStep host h w = Some w' -> checkingToday w' = false.
Proof.
  intros Hc. unfold streakStep. rewrite Hc.
  destruct (isActiveOnDay host h _); [destruct (isCompletedOn host h _)|];
    intros E; inversion E; reflexivity.
Qed.

(** The last five days completed and today not yet: the streak is 5. *)
Example streak_tolerates_today :
  calculateStreak sundayNoonUTC
    (dailyHabit ["2024-01-02"; "2024-01-03"; "2024-01-04"; "2024-01-05";
                 "2024-01-06"]) = 5.
Proof. vm_compute. reflexivity. Qed.

(** A completion ten days ago and one today, nothing between: the gap
    breaks the streak, which is 1. *)
Example streak_broken_by_gap :
  calculateStreak sundayNoonUTC (dailyHabit ["2023-12-28"; "2024-01-07"]) = 1.
Proof. vm_compute. reflexivity. Qed.

(** Monday, Wednesday and Friday completed on a habit scheduled on those
    days: the days between do not break the streak, which is 3. *)
Example streak_skips_unscheduled_days :
  calculateStreak sundayNoonUTC
    (set_completions ["2024-01-01"; "2024-01-03"; "2024-01-05"] mwfHabit) = 3.
Proof. vm_compute. reflexivity. Qed.

(** C1, at a failing input.  Today is Sunday 2024-01-07, which the habit
    does not schedule.  Friday 2024-01-05 lies strictly before today, is
    scheduled and is not completed; the walk does not stop there: it goes on
    to Wednesday, counts it, and stops on Monday 2024-01-01 after examining
    six days, with streak 1. *)
Theorem C1_incomplete_day_before_today_is_tolerated :
  let host := sundayNoonUTC in
  let today := startOfDay host (now host) in
  let friday := addDays today (-2) in
  _normalizeDate host (DateObject today) = "2024-01-07"
  /\ isActiveOnDay host mwfHabit (DayDate today) = false
  /\ _normalizeDate host (DateObject friday) = "2024-01-05"
  /\ isActiveOnDay host mwfHabit (DayDate friday) = true
  /\ isCompletedOn host mwfHabit (DateString "2024-01-05") = false
  /\ streakLoop host 2 mwfHabit (streakStart host)
     = {| currentDate := friday; streak := 0;
          checkingToday := true; daysChecked := 2 |}
  /\ streakWalk host mwfHabit
     = {| currentDate := addDays today (-6); streak := 1;
          checkingToday := false; daysChecked := 6 |}
  /\ calculateStreak host mwfHabit = 1.
Proof.
  vm_compute. repeat split; reflexivity.
Qed.

(** The cap at work: 400 completed days in a row give streak 365. *)
Lemma calculateStreak_long_run :
  List.length (completions longRunHabit) = 400%nat
  /\ calculateStreak sundayNoonUTC longRunHabit = 365.
Proof.
  vm_compute. split; reflexivity.
Qed.

(* ================================================================== *)
(** * The longest streak *)
(* ================================================================== *)

Section Gap.
Variable host : Host.
Variable h : Habit.

Lemma isActiveOnDay_DayDate (t : Z) :
  isActiveOnDay host h (DayDate t)
  = isActiveOnDay host h (DayNumber (getDay host t)).
Proof. reflexivity. Qed.

(** The inner loop answers [true] exactly when none of the instants
    [checkDate], [checkDate] plus one day, ... before [currDate] falls on
    a scheduled weekday; [daysBetween] units of fuel are enough. *)
Lemma gapLoop_spec (fuel : nat) (checkDate currDate : Z) :
  (currDate - checkDate) / msPerDay + 1 <= Z.of_nat fuel ->
  gapLoop host fuel h checkDate currDate = true
  <-> (forall k : Z, 0 <= k -> checkDate + k * msPerDay < currDate ->
       isActiveOnDay host h (DayDate (checkDate + k * msPerDay)) = false).
Proof.
  revert checkDate. induction fuel as [|fuel IH]; intros checkDate Hf.
  - simpl. split; [|reflexivity]. intros _ k Hk Hlt. exfalso.
    assert (0 <= (currDate - checkDate) / msPerDay).
    { apply Z.div_pos; unfold msPerDay in *; lia. }
    lia.
  - simpl. destruct (checkDate <? currDate) eqn:E.
    + apply Z.ltb_lt in E.
      destruct (isActiveOnDay host h (DayDate checkDate)) eqn:Ea.
      * split; [discriminate|]. intros Hall.
        specialize (Hall 0 ltac:(lia) ltac:(lia)).
        rewrite Z.add_0_r in Hall. congruence.
      * unfold addDays. rewrite IH.
        -- split; intros Hall k Hk Hlt.
           ++ destruct (Z.eq_dec k 0) as [->|Hne].
              ** now rewrite Z.add_0_r.
              ** specialize (Hall (k - 1) ltac:(lia)).
                 replace (checkDate + 1 * msPerDay + (k - 1) * msPerDay)
                   with (checkDate + k * msPerDay) in Hall by ring.
                 auto.
           ++ specialize (Hall (k + 1) ltac:(lia)).
              replace (checkDate + (k + 1) * msPerDay)
                with (checkDate + 1 * msPerDay + k * msPerDay) in Hall by ring.
              auto.
        -- replace (currDate - (checkDate + 1 * msPerDay))
             with (currDate - checkDate + (-1) * msPerDay) by ring.
           rewrite Z.div_add by (unfold msPerDay; lia). lia.
    + apply Z.ltb_ge in E. split; [|reflexivity].
      intros _ k Hk Hlt. unfold msPerDay in *. lia.
Qed.

Lemma daysBetween_enough (checkDate currDate : Z) :
  (currDate - checkDate) / msPerDay + 1
  <= Z.of_nat (daysBetween checkDate currDate).
Proof. unfold daysBetween. lia. Qed.

(** The weekday the loop tests for the UTC midnight of day [d] is the
    weekday of [d] itself in a zone on or east of UTC, and the weekday of
    the day before in a zone west of UTC. *)
Lemma getDay_utc_midnight_east (d : Z) :
  0 <= LocalTZA host < msPerDay ->
  getDay host (d * msPerDay) = weekDayOfDay d.
Proof.
  intros Hz. unfold getDay, WeekDay, LocalTime, Day, weekDayOfDay.
  f_equal. f_equal.
  rewrite Z.add_comm, Z.div_add by (unfold msPerDay; lia).
  rewrite Z.div_small by lia. lia.
Qed.

Lemma getDay_utc_midnight_west (d : Z) :
  - msPerDay <= LocalTZA host < 0 ->
  getDay host (d * msPerDay) = weekDayOfDay (d - 1).
Proof.
  intros Hz. unfold getDay, WeekDay, LocalTime, Day, weekDayOfDay.
  f_equal. f_equal.
  replace (d * msPerDay + LocalTZA host)
    with ((LocalTZA host + msPerDay) + (d - 1) * msPerDay) by ring.
  rewrite Z.div_add by (unfold msPerDay; lia).
  rewrite Z.div_small by lia. lia.
Qed.

(** What the run test decides between completions on days [p] and [c],
    zone by zone. *)
Lemma allScheduledDaysCompleted_days (prev curr : string) (p c shift : Z) :
  Date_parse prev = Some (p * msPerDay) ->
  Date_parse curr = Some (c * msPerDay) ->
  (forall d, getDay host (d * msPerDay) = weekDayOfDay (d - shift)) ->
  allScheduledDaysCompleted host h prev curr = true
  <-> (forall d : Z, p < d < c ->
       isActiveOnDay host h (DayNumber (weekDayOfDay (d - shift))) = false).
Proof.
  intros Hp Hc Hwd. unfold allScheduledDaysCompleted.
  rewrite Hp, Hc, gapLoop_spec by apply daysBetween_enough.
  unfold addDays. split; intros Hall.
  - intros d Hd. specialize (Hall (d - p - 1) ltac:(lia)).
    replace (p * msPerDay + 1 * msPerDay + (d - p - 1) * msPerDay)
      with (d * msPerDay) in Hall by ring.
    rewrite isActiveOnDay_DayDate, Hwd in Hall. apply Hall.
    unfold msPerDay. lia.
  - intros k Hk Hlt.
    replace (p * msPerDay + 1 * msPerDay + k * msPerDay)
      with ((p + 1 + k) * msPerDay) in * by ring.
    rewrite isActiveOnDay_DayDate, Hwd. apply Hall.
    unfold msPerDay in Hlt. lia.
Qed.

(** On or east of UTC, two neighbouring completions belong to one run
    exactly when no day strictly between them is scheduled. *)
Lemma allScheduledDaysCompleted_east (prev curr : string) (p c : Z) :
  0 <= LocalTZA host < msPerDay ->
  Date_parse prev = Some (p * msPerDay) ->
  Date_parse curr = Some (c * msPerDay) ->
  allScheduledDaysCompleted host h prev curr = true
  <-> (forall d : Z, p < d < c ->
       isActiveOnDay host h (DayNumber (weekDayOfDay d)) = false).
Proof.
  intros Hz Hp Hc.
  rewrite (allScheduledDaysCompleted_days prev curr p c 0 Hp Hc).
  - split; intros H d Hd; specialize (H d Hd);
      now rewrite Z.sub_0_r in *.
  - intros d. rewrite Z.sub_0_r. now apply getDay_utc_midnight_east.
Qed.

(** West of UTC the weekdays tested are those of the days from the
    earlier completion up to two days before the later one. *)
Lemma allScheduledDaysCompleted_west (prev curr : string) (p c : Z) :
  - msPerDay <= LocalTZA host < 0 ->
  Date_parse prev = Some (p * msPerDay) ->
  Date_parse curr = Some (c * msPerDay) ->
  allScheduledDaysCompleted host h prev curr = true
  <-> (forall d : Z, p <= d < c - 1 ->
       isActiveOnDay host h (DayNumber (weekDayOfDay d)) = false).
Proof.
  intros Hz Hp Hc.
  rewrite (allScheduledDaysCompleted_days prev curr p c 1 Hp Hc).
  - split; intros H d Hd.
    + specialize (H (d + 1) ltac:(lia)).
      now replace (d + 1 - 1) with d in H by ring.
    + apply H. lia.
  - intros d. now apply getDay_utc_midnight_west.
Qed.
End Gap.

(** No completion gives longest streak 0; one completion starts a run of
    length 1, which the final [Math.max] reports. *)
Lemma computeLongestStreak_none (host : Host) (h : Habit) :
  completions h = [] -> computeLongestStreak host h = 0.
Proof. intros E. unfold computeLongestStreak. now rewrite E. Qed.

Lemma computeLongestStreak_one (host : Host) (h : Habit) (s : string) :
  completions h = [s] -> computeLongestStreak host h = 1.
Proof. intros E. unfold computeLongestStreak. now rewrite E. Qed.

(** Two completions: one run of length 2 when the run test passes, two runs
    of length 1 when it fails. *)
Lemma computeLongestStreak_two (host : Host) (h : Habit) (a b : string) :
  StringSort.sort (completions h) = [a; b] ->
  computeLongestStreak host h
  = if allScheduledDaysCompleted host h a b then 2 else 1.
Proof.
  intros E. unfold computeLongestStreak. rewrite E. simpl.
  now destruct (allScheduledDaysCompleted host h a b).
Qed.

(** C2, at a failing input.  The one calendar day strictly between the two
    completions is Sunday 2024-01-07, which is not scheduled, so the two
    completions are one run of length 2.  Five hours west of UTC the loop
    tests 2024-01-07T00:00Z, which is Saturday evening local time, finds a
    scheduled day and breaks the run: the longest streak is 1.  In a zone on
    UTC the same habit has longest streak 2. *)
Theorem C2_longest_streak_breaks_run_west_of_utc :
  let host := tuesdayNoonWest in
  StringSort.sort (completions saturdayHabit) = ["2024-01-06"; "2024-01-08"]
  /\ Date_parse "2024-01-06" = Some (19728 * msPerDay)
  /\ Date_parse "2024-01-08" = Some (19730 * msPerDay)
  /\ (forall d : Z, 19728 < d < 19730 ->
      isActiveOnDay host saturdayHabit (DayNumber (weekDayOfDay d)) = false)
  /\ isActiveOnDay host saturdayHabit (DayString "2024-01-07") = false
  /\ getDay host (addDays (19728 * msPerDay) 1) = 6
  /\ allScheduledDaysCompleted host saturdayHabit "2024-01-06" "2024-01-08"
     = false
  /\ longestStreak (getStatistics host saturdayHabit) = 1
  /\ longestStreak (getStatistics tuesdayUTC saturdayHabit) = 2.
Proof.
  cbv zeta.
  split; [vm_compute; reflexivity|].
  split; [vm_compute; reflexivity|].
  split; [vm_compute; reflexivity|].
  split; [intros d Hd; assert (d = 19729) as -> by lia;
          vm_compute; reflexivity|].
  split; [vm_compute; reflexivity|].
  split; [vm_compute; reflexivity|].
  split; [vm_compute; reflexivity|].
  split; vm_compute; reflexivity.
Qed.

(* ================================================================== *)
(** * The completion rate *)
(* ================================================================== *)

Lemma mul_msPerDay_le (c t : Z) : c * msPerDay <= t <-> c <= Day t.
Proof.
  unfold Day, msPerDay.
  pose proof (Z.div_mod t 86400000 ltac:(lia)).
  pose proof (Z.mod_pos_bound t 86400000 ltac:(lia)). lia.
Qed.

Lemma Day_sub_mul (t c : Z) : (t - c * msPerDay) / msPerDay = Day t - c.
Proof.
  unfold Day. replace (t - c * msPerDay) with (t + (- c) * msPerDay) by ring.
  rewrite Z.div_add by (unfold msPerDay; lia). lia.
Qed.

(** ** The arithmetic of doubles *)

Lemma roundHalfEven_near (x : Q) :
  (Qabs (inject_Z (roundHalfEven x) - x) <= 1 # 2)%Q.
Proof.
  unfold roundHalfEven.
  pose proof (Qfloor_le x) as Hlo. pose proof (Qlt_floor x) as Hhi.
  rewrite inject_Z_plus in Hhi. change (inject_Z 1) with 1%Q in Hhi.
  set (f := Qfloor x) in *.
  apply Qabs_Qle_condition.
  destruct (Qcompare_spec (x - inject_Z f) (1 # 2)) as [E | E | E].
  - destruct (Z.even f);
      [|rewrite inject_Z_plus; change (inject_Z 1) with 1%Q]; lra.
  - lra.
  - rewrite inject_Z_plus. change (inject_Z 1) with 1%Q. lra.
Qed.

Lemma two_power_pos (k : Z) : (0 < 2 ^ k)%Q.
Proof. apply Qpower_0_lt. reflexivity. Qed.

Lemma two_power_succ (k : Z) : (2 ^ (k + 1) == 2 * 2 ^ k)%Q.
Proof.
  rewrite Qpower_plus by discriminate. change (2 ^ 1)%Q with 2%Q. lra.
Qed.

Lemma two_power_log2 (n : Z) :
  0 < n ->
  (2 ^ Z.log2 n <= inject_Z n)%Q /\ (inject_Z n < 2 * 2 ^ Z.log2 n)%Q.
Proof.
  intros Hn. destruct (Z.log2_spec n Hn) as [Hlo Hhi].
  pose proof (Z.log2_nonneg n) as H0.
  rewrite <- two_power_succ.
  change 2%Q with (inject_Z 2).
  rewrite <- !Zpower_Qpower by lia.
  rewrite <- Zle_Qle, <- Zlt_Qlt.
  replace (Z.log2 n + 1) with (Z.succ (Z.log2 n)) by lia.
  split; assumption.
Qed.

Lemma inject_Z_pos (z : Z) : 0 < z -> (0 < inject_Z z)%Q.
Proof. intros Hz. change 0%Q with (inject_Z 0). now rewrite <- Zlt_Qlt. Qed.

(** [binade x] is the exponent of the power of two at or below [x]. *)
Lemma binade_spec (x : Q) :
  (0 < x)%Q -> (2 ^ binade x <= x)%Q /\ (x < 2 * 2 ^ binade x)%Q.
Proof.
  intros Hx. unfold binade.
  destruct x as [n d]. cbn [Qnum Qden].
  assert (Hn : 0 < n) by (unfold Qlt in Hx; simpl in Hx; lia).
  destruct (two_power_log2 n Hn) as [Hn1 Hn2].
  destruct (two_power_log2 (Zpos d) ltac:(lia)) as [Hd1 Hd2].
  set (ln := Z.log2 n) in *. set (ld := Z.log2 (Zpos d)) in *.
  assert (Hsplit : (2 ^ ln == 2 ^ (ln - ld) * 2 ^ ld)%Q).
  { rewrite <- Qpower_plus by discriminate.
    now replace (ln - ld + ld) with ln by lia. }
  assert (Hxd : ((n # d) * inject_Z (Zpos d) == inject_Z n)%Q).
  { unfold Qeq, Qmult, inject_Z. simpl. lia. }
  pose proof (two_power_pos (ln - ld)) as HP.
  pose proof (two_power_pos ld) as HA.
  assert (Hhalf : (2 * 2 ^ (ln - ld - 1) == 2 ^ (ln - ld))%Q).
  { rewrite <- two_power_succ.
    now replace (ln - ld - 1 + 1) with (ln - ld) by lia. }
  remember (2 ^ (ln - ld))%Q as P eqn:EP.
  remember (2 ^ (ln - ld - 1))%Q as P' eqn:EP'.
  remember (2 ^ ld)%Q as A eqn:EA. remember (2 ^ ln)%Q as B eqn:EB.
  remember (inject_Z (Zpos d)) as D eqn:ED.
  remember (inject_Z n) as N eqn:EN. remember (n # d) as x eqn:Ex.
  clear EA EB ED EN Ex.
  assert (HD : (0 < D)%Q) by lra.
  destruct (Qle_bool P x) eqn:E; rewrite <- ?EP, <- ?EP'; clear EP EP'.
  - apply Qle_bool_iff in E. split; [exact E|].
    apply Qnot_le_lt. intros Hge.
    assert (0 <= (x - 2 * P) * D)%Q by (apply Qmult_le_0_compat; lra).
    assert (0 <= P * (D - A))%Q by (apply Qmult_le_0_compat; lra).
    lra.
  - assert (Hlt : (x < P)%Q).
    { apply Qnot_le_lt. intros Hle. apply Qle_bool_iff in Hle. congruence. }
    split; [|lra].
    apply Qnot_lt_le. intros Hbelow.
    assert (0 < (P - 2 * x) * D)%Q by (apply Qmult_lt_0_compat; lra).
    assert (0 < P * (2 * A - D))%Q by (apply Qmult_lt_0_compat; lra).
    lra.
Qed.

(** The double nearest to [x] is off by at most [x * 2 ^ -53]. *)
Lemma roundDouble_error (x : Q) :
  (0 < x)%Q -> (Qabs (roundDouble x - x) <= x * doubleEpsilon)%Q.
Proof.
  intros Hx. unfold roundDouble.
  destruct (Qcompare_spec x 0) as [E | E | E]; [lra | lra |].
  unfold roundDoublePos.
  destruct (binade_spec x Hx) as [Hlo _].
  set (b := binade x) in *. set (e := b - 52).
  pose proof (roundHalfEven_near (x * 2 ^ (- e))) as Hm.
  assert (Hinv : (2 ^ (- e) * 2 ^ e == 1)%Q).
  { rewrite <- Qpower_plus by discriminate.
    now replace (- e + e) with 0 by lia. }
  assert (Hb : (2 ^ b == 2 ^ e * 4503599627370496)%Q).
  { change 4503599627370496%Q with (2 ^ 52)%Q.
    rewrite <- Qpower_plus by discriminate.
    now replace (e + 52) with b by lia. }
  pose proof (two_power_pos e) as He. pose proof (two_power_pos (- e)) as He'.
  remember (inject_Z (roundHalfEven (x * 2 ^ (- e)))) as M eqn:EM.
  remember (2 ^ e)%Q as U eqn:EU. remember (2 ^ (- e))%Q as V eqn:EV.
  remember (2 ^ b)%Q as W eqn:EW.
  clear EU EV EW EM.
  apply Qabs_Qle_condition in Hm. apply Qabs_Qle_condition.
  unfold doubleEpsilon.
  assert (H1 : (0 <= (M - x * V + (1 # 2)) * U)%Q)
    by (apply Qmult_le_0_compat; lra).
  assert (H2 : (0 <= ((1 # 2) - (M - x * V)) * U)%Q)
    by (apply Qmult_le_0_compat; lra).
  assert (H3 : (x * (V * U) == x)%Q) by (rewrite Hinv; lra).
  lra.
Qed.

Lemma roundDouble_zero (x : Q) : (x == 0)%Q -> roundDouble x = 0%Q.
Proof.
  intros E. unfold roundDouble.
  destruct (Qcompare_spec x 0) as [_ | H | H]; [reflexivity | lra | lra].
Qed.

Lemma Qfloor_between (y : Q) (k : Z) :
  (inject_Z k <= y)%Q -> (y < inject_Z k + 1)%Q -> Qfloor y = k.
Proof.
  intros Hlo Hhi.
  pose proof (Qfloor_le y) as Hf. pose proof (Qlt_floor y) as Hg.
  rewrite inject_Z_plus in Hg. change (inject_Z 1) with 1%Q in Hg.
  assert (A : (inject_Z (Qfloor y) < inject_Z (k + 1))%Q).
  { rewrite inject_Z_plus. change (inject_Z 1) with 1%Q. lra. }
  assert (B : (inject_Z k < inject_Z (Qfloor y + 1))%Q).
  { rewrite inject_Z_plus. change (inject_Z 1) with 1%Q. lra. }
  rewrite <- Zlt_Qlt in A, B. lia.
Qed.

Lemma roundHalfEven_integer (x : Q) (n : Z) :
  (x == inject_Z n)%Q -> roundHalfEven x = n.
Proof.
  intros E. unfold roundHalfEven.
  assert (Hf : Qfloor x = n) by (rewrite E; apply Qfloor_Z).
  rewrite Hf.
  destruct (Qcompare_spec (x - inject_Z n) (1 # 2)) as [H | H | H];
    [lra | reflexivity | lra].
Qed.

(** An integer below [2 ^ 53] is a double. *)
Lemma roundDouble_integer (x : Q) (n : Z) :
  0 < n < 2 ^ 53 -> (x == inject_Z n)%Q -> (roundDouble x == inject_Z n)%Q.
Proof.
  intros Hn E.
  pose proof (inject_Z_pos n ltac:(lia)) as Hpos.
  assert (Hx : (0 < x)%Q) by lra.
  unfold roundDouble.
  destruct (Qcompare_spec x 0) as [H | H | H]; [lra | lra |].
  unfold roundDoublePos.
  destruct (binade_spec x Hx) as [Hlo _].
  set (b := binade x) in *.
  assert (Hb : b < 53).
  { apply (Qpower_lt_compat_l_inv 2); [|reflexivity].
    apply Qle_lt_trans with x; [exact Hlo|].
    rewrite E. change 2%Q with (inject_Z 2).
    rewrite <- Zpower_Qpower by lia. rewrite <- Zlt_Qlt. lia. }
  set (e := b - 52).
  assert (He : 0 <= - e) by (unfold e; lia).
  assert (Hpow : (2 ^ (- e) == inject_Z (2 ^ (- e)))%Q).
  { change 2%Q with (inject_Z 2). now rewrite <- Zpower_Qpower. }
  rewrite (roundHalfEven_integer _ (n * 2 ^ (- e)))
    by (rewrite inject_Z_mult, E, Hpow; reflexivity).
  rewrite inject_Z_mult, <- Hpow, <- Qmult_assoc.
  rewrite <- Qpower_plus by discriminate.
  replace (- e + e) with 0 by lia. change (2 ^ 0)%Q with 1%Q. lra.
Qed.

(** The double of the quotient of two integers, the first below
    [2 ^ 53]: the quotient itself when it is an integer, and strictly
    between the same two integers as the exact quotient when not. *)
Lemma double_div_integers (a b : Z) :
  0 < a < 2 ^ 53 -> 0 < b ->
  let y := double_div (inject_Z a) (inject_Z b) in
  (a mod b = 0 -> (y == inject_Z (a / b))%Q)
  /\ (a mod b <> 0 ->
      (inject_Z (a / b) < y)%Q /\ (y < inject_Z (a / b) + 1)%Q).
Proof.
  intros Ha Hb y. unfold double_div in y.
  pose proof (inject_Z_pos a ltac:(lia)) as HA.
  pose proof (inject_Z_pos b Hb) as HB.
  pose proof (Z.div_mod a b ltac:(lia)) as Hdm.
  pose proof (Z.mod_pos_bound a b Hb) as Hr.
  set (k := a / b) in *. set (r := a mod b) in *.
  assert (Hq : (0 < inject_Z a / inject_Z b)%Q)
    by (apply Qlt_shift_div_l; lra).
  assert (Hqb : (inject_Z a / inject_Z b * inject_Z b == inject_Z a)%Q)
    by (field; lra).
  assert (Hsum : (inject_Z a == inject_Z b * inject_Z k + inject_Z r)%Q).
  { rewrite <- inject_Z_mult, <- inject_Z_plus. now rewrite <- Hdm. }
  split.
  - intros E. apply roundDouble_integer.
    + assert (0 < k) by nia. assert (k <= a) by nia. lia.
    + rewrite E in Hsum. change (inject_Z 0) with 0%Q in Hsum.
      assert (Ha' : (inject_Z a == inject_Z k * inject_Z b)%Q) by lra.
      rewrite Ha'. apply Qdiv_mult_l. lra.
  - intros Hne.
    assert (HR : (1 <= inject_Z r)%Q).
    { change 1%Q with (inject_Z 1). rewrite <- Zle_Qle. lia. }
    assert (HR' : (inject_Z r + 1 <= inject_Z b)%Q).
    { change 1%Q with (inject_Z 1).
      rewrite <- inject_Z_plus, <- Zle_Qle. lia. }
    assert (HA53 : (inject_Z a < 9007199254740992)%Q).
    { change 9007199254740992%Q with (inject_Z (2 ^ 53)).
      rewrite <- Zlt_Qlt. lia. }
    pose proof (roundDouble_error _ Hq) as Herr.
    apply Qabs_Qle_condition in Herr. unfold doubleEpsilon in Herr.
    subst y.
    remember (roundDouble (inject_Z a / inject_Z b)) as y eqn:Ey. clear Ey.
    remember (inject_Z a / inject_Z b)%Q as q eqn:Eq. clear Eq.
    remember (inject_Z a) as A eqn:EA. remember (inject_Z b) as B eqn:EB.
    remember (inject_Z k) as K eqn:EK. remember (inject_Z r) as R eqn:ER.
    clear EA EB EK ER.
    assert (E1 : (0 <= (y - q + q * (1 # 9007199254740992)) * B)%Q)
      by (apply Qmult_le_0_compat; lra).
    assert (E2 : (0 <= (q * (1 # 9007199254740992) - (y - q)) * B)%Q)
      by (apply Qmult_le_0_compat; lra).
    split.
    + apply Qnot_le_lt. intros Hle.
      assert (0 <= (K - y) * B)%Q by (apply Qmult_le_0_compat; lra).
      lra.
    + apply Qnot_le_lt. intros Hge.
      assert (0 <= (y - (K + 1)) * B)%Q by (apply Qmult_le_0_compat; lra).
      lra.
Qed.

(** [Math.floor(a / b)] on integers, the first less than [2 ^ 53] in size,
    is the quotient of the integers, rounded down. *)
Lemma floor_double_div (a b : Z) :
  - 2 ^ 53 < a < 2 ^ 53 -> 0 < b ->
  Qfloor (double_div (inject_Z a) (inject_Z b)) = a / b.
Proof.
  intros Ha Hb.
  pose proof (inject_Z_pos b Hb) as HB.
  destruct (Z.lt_trichotomy a 0) as [Hneg | [-> | Hpos]].
  - pose proof (inject_Z_pos (- a) ltac:(lia)) as HA.
    rewrite inject_Z_opp in HA.
    assert (Hq : (inject_Z a / inject_Z b < 0)%Q).
    { assert (0 < - inject_Z a / inject_Z b)%Q
        by (apply Qlt_shift_div_l; lra).
      assert (- inject_Z a / inject_Z b == - (inject_Z a / inject_Z b))%Q
        by (field; lra).
      lra. }
    unfold double_div, roundDouble.
    destruct (Qcompare_spec (inject_Z a / inject_Z b) 0) as [H | H | H];
      [lra | | lra].
    assert (Eq : (- (inject_Z a / inject_Z b)
                  == inject_Z (- a) / inject_Z b)%Q).
    { rewrite inject_Z_opp. field. lra. }
    destruct (double_div_integers (- a) b ltac:(lia) Hb) as [Hint Hfrac].
    unfold double_div, roundDouble in Hint, Hfrac.
    destruct (Qcompare_spec (inject_Z (- a) / inject_Z b) 0)
      as [H' | H' | H']; [lra | lra |].
    assert (Epos : roundDoublePos (- (inject_Z a / inject_Z b))
                   = roundDoublePos (inject_Z (- a) / inject_Z b)).
    { f_equal. unfold Qdiv, Qmult, Qopp, inject_Z. cbn [Qnum Qden].
      f_equal. ring. }
    rewrite Epos.
    pose proof (Z.div_mod (- a) b ltac:(lia)) as Hdm.
    pose proof (Z.mod_pos_bound (- a) b Hb) as Hr.
    destruct (Z.eq_dec ((- a) mod b) 0) as [E0 | Hne].
    + rewrite (Hint E0), <- inject_Z_opp, Qfloor_Z.
      rewrite E0 in Hdm.
      apply (Z.div_unique _ _ _ 0); lia.
    + destruct (Hfrac Hne) as [Hlo Hhi].
      assert (Ek : a / b = - ((- a) / b) - 1).
      { symmetry. apply (Z.div_unique _ _ _ (b - (- a) mod b)); lia. }
      rewrite Ek. clear Ek Hdm.
      remember ((- a) / b) as k eqn:Ek. clear Ek.
      remember (roundDoublePos (inject_Z (- a) / inject_Z b)) as y eqn:Ey.
      clear Ey.
      apply Qfloor_between; unfold Z.sub;
        rewrite inject_Z_plus, inject_Z_opp;
        change (inject_Z (- (1))) with (- (1))%Q; lra.
  - unfold double_div.
    rewrite roundDouble_zero
      by (unfold Qdiv; change (inject_Z 0) with 0%Q; lra).
    reflexivity.
  - destruct (double_div_integers a b ltac:(lia) Hb) as [Hint Hfrac].
    destruct (Z.eq_dec (a mod b) 0) as [E0 | Hne].
    + rewrite (Hint E0). apply Qfloor_Z.
    + destruct (Hfrac Hne) as [Hlo Hhi].
      apply Qfloor_between; [apply Qlt_le_weak|]; assumption.
Qed.

(** On the ratios of [checkedRatios] the product [(total / s) * 100] of
    [JS] is the one of the Standard Library's binary64 operations. *)
Lemma double_agrees_with_SpecFloat :
  forallb (fun r => agreesWithSpecFloat (fst r) (snd r)) checkedRatios = true.
Proof. vm_compute. reflexivity. Qed.

(** [daysSinceCreation] divides two integers where the code divides two
    doubles and takes [Math.floor]: for dates less than [2 ^ 53]
    milliseconds apart the two are the same number. *)
Lemma daysSinceCreation_in_doubles (host : Host) (h : Habit) (t : Z) :
  Date_parse (createdDate h) = Some t ->
  - 2 ^ 53 < now host - t < 2 ^ 53 ->
  computeDaysSinceCreation host h
  = Some (Qfloor (double_div (inject_Z (now host - t)) (inject_Z msPerDay))
          + 1).
Proof.
  intros Hp Hd. unfold computeDaysSinceCreation. rewrite Hp.
  rewrite floor_double_div by (first [assumption | reflexivity]).
  reflexivity.
Qed.

(** ** The completion rate *)

Lemma computeCompletionRate_positive (total s : Z) :
  0 < s ->
  computeCompletionRate total (Some s)
  = Math_round
      (double_mul (double_div (inject_Z total) (inject_Z s)) (inject_Z 100)).
Proof.
  intros Hs. unfold computeCompletionRate.
  now replace (0 <? s) with true by (symmetry; now apply Z.ltb_lt).
Qed.

Lemma completionRate_zero (s : option Z) : computeCompletionRate 0 s = 0.
Proof.
  unfold computeCompletionRate. destruct s as [s|]; [|reflexivity].
  destruct (0 <? s); [|reflexivity].
  unfold double_mul, double_div.
  rewrite (roundDouble_zero (inject_Z 0 / inject_Z s))
    by (unfold Qdiv; change (inject_Z 0) with 0%Q; lra).
  rewrite roundDouble_zero by lra. reflexivity.
Qed.

(** The product [(total / s) * 100] of the code against the exact ratio
    [q = total / s]: the two roundings move it by less than
    [q / (4 * 10 ^ 13)]. *)
Lemma percent_product_error (total s : Z) :
  0 < total -> 0 < s ->
  let q := (inject_Z total / inject_Z s)%Q in
  let y :=
    double_mul (double_div (inject_Z total) (inject_Z s)) (inject_Z 100) in
  (0 < q)%Q
  /\ (q * inject_Z s == inject_Z total)%Q
  /\ (100 * q - q * (1 # 40000000000000) <= y)%Q
  /\ (y <= 100 * q + q * (1 # 40000000000000))%Q.
Proof.
  intros Ht Hs q y.
  pose proof (inject_Z_pos total Ht) as HT.
  pose proof (inject_Z_pos s Hs) as HS.
  assert (Hq : (0 < q)%Q) by (apply Qlt_shift_div_l; lra).
  assert (Hqs : (q * inject_Z s == inject_Z total)%Q).
  { unfold q. field. lra. }
  split; [exact Hq|]. split; [exact Hqs|].
  unfold y, double_mul, double_div. fold q.
  pose proof (roundDouble_error q Hq) as Hx.
  remember (roundDouble q) as x eqn:Ex. clear Ex.
  apply Qabs_Qle_condition in Hx. unfold doubleEpsilon in Hx.
  change (inject_Z 100) with 100%Q.
  assert (Hx0 : (0 < x * 100)%Q) by lra.
  pose proof (roundDouble_error (x * 100) Hx0) as Hy.
  remember (roundDouble (x * 100)) as y' eqn:Ey. clear Ey.
  apply Qabs_Qle_condition in Hy. unfold doubleEpsilon in Hy.
  remember q as q' eqn:Eq'. clear Eq' Hqs.
  split; lra.
Qed.

(** The rate is an integer nearest to [100 * total / s]: with [k] the
    rate, [k - 1/2 <= 100 * total / s <= k + 1/2]. *)
Lemma completionRate_nearest (total s : Z) :
  0 <= total < 2 ^ 32 -> 0 < s ->
  let k := computeCompletionRate total (Some s) in
  2 * s * k <= 200 * total + s <= 2 * s * (k + 1).
Proof.
  intros Ht Hs. cbv zeta.
  destruct (Z.eq_dec total 0) as [-> | Hne].
  { rewrite completionRate_zero. lia. }
  rewrite computeCompletionRate_positive by assumption.
  destruct (percent_product_error total s ltac:(lia) Hs)
    as (Hq & Hqs & Hlo & Hhi).
  unfold Math_round.
  remember (double_mul (double_div (inject_Z total) (inject_Z s))
              (inject_Z 100)) as y eqn:Ey.
  clear Ey.
  pose proof (Qfloor_le (y + (1 # 2))) as Hfl.
  pose proof (Qlt_floor (y + (1 # 2))) as Hfu.
  rewrite inject_Z_plus in Hfu. change (inject_Z 1) with 1%Q in Hfu.
  remember (Qfloor (y + (1 # 2))) as k eqn:Ek. clear Ek.
  pose proof (inject_Z_pos s Hs) as HS.
  assert (HT : (inject_Z total < 4294967296)%Q).
  { change 4294967296%Q with (inject_Z (2 ^ 32)). rewrite <- Zlt_Qlt. lia. }
  remember (inject_Z total / inject_Z s)%Q as q eqn:Eq. clear Eq.
  assert (A1 : (0 <= (y + (1 # 2) - inject_Z k) * inject_Z s)%Q)
    by (apply Qmult_le_0_compat; lra).
  assert (A2 : (0 <= (inject_Z k + 1 - (y + (1 # 2))) * inject_Z s)%Q)
    by (apply Qmult_le_0_compat; lra).
  assert (A3 : (0 <= (y - (100 * q - q * (1 # 40000000000000)))
                    * inject_Z s)%Q)
    by (apply Qmult_le_0_compat; lra).
  assert (A4 : (0 <= (100 * q + q * (1 # 40000000000000) - y)
                    * inject_Z s)%Q)
    by (apply Qmult_le_0_compat; lra).
  assert (B1 : (inject_Z (2 * s * k) < inject_Z (200 * total + s + 1))%Q).
  { rewrite !inject_Z_plus, !inject_Z_mult.
    change (inject_Z 2) with 2%Q. change (inject_Z 200) with 200%Q.
    change (inject_Z 1) with 1%Q.
    remember (inject_Z s) as S. remember (inject_Z total) as T.
    remember (inject_Z k) as K. lra. }
  assert (B2 : (inject_Z (200 * total + s - 1)
                < inject_Z (2 * s * (k + 1)))%Q).
  { unfold Z.sub. rewrite !inject_Z_plus, !inject_Z_mult, !inject_Z_plus.
    change (inject_Z 2) with 2%Q. change (inject_Z 200) with 200%Q.
    change (inject_Z 1) with 1%Q. change (inject_Z (- (1))) with (- (1))%Q.
    remember (inject_Z s) as S. remember (inject_Z total) as T.
    remember (inject_Z k) as K. lra. }
  rewrite <- Zlt_Qlt in B1, B2. lia.
Qed.

(** So the rate is [100 * total / s] rounded, a half up, unless the ratio
    lies exactly half way between two integers; then it is one of the
    two. *)
Lemma completionRate_rounds (total s : Z) :
  0 <= total < 2 ^ 32 -> 0 < s ->
  let exact := (200 * total + s) / (2 * s) in
  computeCompletionRate total (Some s) = exact
  \/ ((200 * total + s) mod (2 * s) = 0
      /\ computeCompletionRate total (Some s) = exact - 1).
Proof.
  intros Ht Hs. cbv zeta.
  pose proof (completionRate_nearest total s Ht Hs) as Hk. cbv zeta in Hk.
  set (k := computeCompletionRate total (Some s)) in *.
  destruct (Z.eq_dec (200 * total + s) (2 * s * (k + 1))) as [E | Hne].
  - right. rewrite E. rewrite Z.mul_comm, Z.mod_mul, Z.div_mul by lia.
    split; [reflexivity | lia].
  - left. apply (Z.div_unique _ _ _ (200 * total + s - 2 * s * k)).
    + left. lia.
    + lia.
Qed.

(** Both cases occur: 1 of 8 is 12.5 and gives 13; 23 of 40 is 57.5, the
    product of the doubles is just below it and gives 57.  The second is
    the rate of a habit created forty days ago and completed on the last
    23 days. *)
Lemma completionRate_at_a_half :
  let h := dailyHabit (lastDays (now tuesdayUTC) 23) in
  computeCompletionRate 1 (Some 8) = 13
  /\ computeCompletionRate 23 (Some 40) = 57
  /\ (200 * 23 + 40) / (2 * 40) = 58
  /\ totalCompletions (getStatistics tuesdayUTC h) = 23
  /\ scheduledDaysPassed (getStatistics tuesdayUTC h) = Some 40
  /\ completionRate (getStatistics tuesdayUTC h) = 57.
Proof. cbv zeta. repeat split; vm_compute; reflexivity. Qed.

Lemma completionRate_bounds (total s : Z) :
  0 <= total <= s ->
  0 <= computeCompletionRate total (Some s) <= 100.
Proof.
  intros Ht.
  destruct (Z.eq_dec total 0) as [-> | Hne].
  { rewrite completionRate_zero. lia. }
  assert (Hs : 0 < s) by lia.
  rewrite computeCompletionRate_positive by assumption.
  destruct (percent_product_error total s ltac:(lia) Hs)
    as (Hq & Hqs & Hlo & Hhi).
  unfold Math_round.
  remember (double_mul (double_div (inject_Z total) (inject_Z s))
              (inject_Z 100)) as y eqn:Ey.
  clear Ey.
  pose proof (Qfloor_le (y + (1 # 2))) as Hfl.
  pose proof (Qlt_floor (y + (1 # 2))) as Hfu.
  remember (Qfloor (y + (1 # 2))) as k eqn:Ek. clear Ek.
  pose proof (inject_Z_pos s Hs) as HS.
  assert (HT : (inject_Z total <= inject_Z s)%Q) by (rewrite <- Zle_Qle; lia).
  remember (inject_Z total / inject_Z s)%Q as q eqn:Eq. clear Eq.
  assert (Hq1 : (q <= 1)%Q).
  { apply Qnot_lt_le. intros Hgt.
    assert (0 < (q - 1) * inject_Z s)%Q by (apply Qmult_lt_0_compat; lra).
    lra. }
  assert (B1 : (inject_Z 0 < inject_Z (k + 1))%Q).
  { change (inject_Z 0) with 0%Q. lra. }
  assert (B2 : (inject_Z k < inject_Z 101)%Q).
  { change (inject_Z 101) with 101%Q. lra. }
  rewrite <- Zlt_Qlt in B1, B2. lia.
Qed.

Section Rate.
Variable host : Host.
Variable h : Habit.

Lemma getStatistics_scheduledDaysPassed :
  scheduledDaysPassed (getStatistics host h)
  = computeScheduledDaysPassed host h.
Proof. reflexivity. Qed.

Lemma getStatistics_daysSinceCreation :
  daysSinceCreation (getStatistics host h) = computeDaysSinceCreation host h.
Proof. reflexivity. Qed.

Lemma getStatistics_totalCompletions :
  totalCompletions (getStatistics host h)
  = Z.of_nat (List.length (completions h)).
Proof. reflexivity. Qed.

Lemma getStatistics_completionRate :
  completionRate (getStatistics host h)
  = computeCompletionRate (totalCompletions (getStatistics host h))
      (scheduledDaysPassed (getStatistics host h)).
Proof. reflexivity. Qed.

Lemma getStatistics_longestStreak :
  longestStreak (getStatistics host h) = computeLongestStreak host h.
Proof. reflexivity. Qed.

Lemma getStatistics_currentStreak :
  currentStreak (getStatistics host h) = calculateStreak host h.
Proof. reflexivity. Qed.

(** The counting loop started at the UTC midnight of day [c]: it visits
    the days from [c] through the UTC day of [now] and tests, for day [d],
    the weekday of day [d - shift], where [shift] depends on the zone. *)
Lemma countLoop_days (shift : Z) :
  (forall d, getDay host (d * msPerDay) = weekDayOfDay (d - shift)) ->
  forall (fuel : nat) (c acc : Z),
    Day (now host) - c + 1 <= Z.of_nat fuel ->
    countLoop host fuel h (c * msPerDay) (now host) acc
    = acc + Z.of_nat (List.length
        (filter (fun d => isActiveOnDay host h
                            (DayNumber (weekDayOfDay (d - shift))))
                (dayRange c (Z.to_nat (Day (now host) - c + 1))))).
Proof.
  intros Hwd. induction fuel as [|fuel IH]; intros c acc Hf.
  - simpl. replace (Z.to_nat (Day (now host) - c + 1)) with O by lia.
    simpl. lia.
  - simpl. destruct (c * msPerDay <=? now host) eqn:E.
    + apply Z.leb_le, mul_msPerDay_le in E.
      replace (Z.to_nat (Day (now host) - c + 1))
        with (S (Z.to_nat (Day (now host) - (c + 1) + 1))) by lia.
      simpl dayRange. simpl filter.
      unfold addDays.
      replace (c * msPerDay + 1 * msPerDay) with ((c + 1) * msPerDay) by ring.
      rewrite IH by lia.
      rewrite isActiveOnDay_DayDate, Hwd.
      destruct (isActiveOnDay host h (DayNumber (weekDayOfDay (c - shift))));
        simpl List.length; lia.
    + apply Z.leb_gt in E.
      assert (~ c <= Day (now host)) as Hc
          by (rewrite <- mul_msPerDay_le; lia).
      replace (Z.to_nat (Day (now host) - c + 1)) with O by lia.
      simpl. lia.
Qed.

Lemma daysBetween_created (c : Z) :
  daysBetween (c * msPerDay) (now host)
  = Z.to_nat (Day (now host) - c + 1).
Proof. unfold daysBetween. now rewrite Day_sub_mul. Qed.

Lemma computeDaysSinceCreation_day (c : Z) :
  Date_parse (createdDate h) = Some (c * msPerDay) ->
  computeDaysSinceCreation host h = Some (Day (now host) - c + 1).
Proof.
  intros Hp. unfold computeDaysSinceCreation. rewrite Hp.
  now rewrite Day_sub_mul.
Qed.

Lemma isActiveOnDay_unrestricted (x : DayArg) :
  hasDayRestriction h = false -> isActiveOnDay host h x = true.
Proof.
  unfold hasDayRestriction, isActiveOnDay.
  destruct (daysOfWeek h) as [[|d days]|]; simpl; [reflexivity| |reflexivity].
  discriminate.
Qed.

(** On or east of UTC, [scheduledDaysPassed] is the number of scheduled
    days from the creation day through the UTC day of [now]. *)
Lemma computeScheduledDaysPassed_east (c : Z) :
  0 <= LocalTZA host < msPerDay ->
  Date_parse (createdDate h) = Some (c * msPerDay) ->
  c <= Day (now host) ->
  computeScheduledDaysPassed host h
  = Some (Z.of_nat (List.length (scheduledDays host h c (Day (now host))))).
Proof.
  intros Hz Hp Hc. unfold computeScheduledDaysPassed, scheduledDays.
  destruct (hasDayRestriction h) eqn:Er.
  - rewrite Hp, daysBetween_created.
    rewrite (countLoop_days 0) by
      (first [ intros d; rewrite Z.sub_0_r;
               now apply getDay_utc_midnight_east | lia ]).
    simpl. f_equal. f_equal. f_equal.
    apply filter_ext. intros d. now rewrite Z.sub_0_r.
  - rewrite (computeDaysSinceCreation_day c Hp). f_equal.
    rewrite (filter_ext _ (fun _ => true)), filter_true, dayRange_length
      by (intros d; now apply isActiveOnDay_unrestricted).
    lia.
Qed.
End Rate.

(** C3, as stated, fails.  A habit created today with no completions has
    no scheduled day behind it when today's weekday is not one of its days,
    so [scheduledDaysPassed] is 0, not at least 1.  And a habit whose
    completions all name a scheduled day since creation, but name it twice,
    has rate 200. *)
Lemma C3_completion_rate_counterexample :
  createdDate mondayHabitCreatedToday = toISODate (now sundayNoonUTC)
  /\ completions mondayHabitCreatedToday = []
  /\ getStatistics sundayNoonUTC mondayHabitCreatedToday
     = {| totalCompletions := 0; currentStreak := 0; longestStreak := 0;
          completionRate := 0; daysSinceCreation := Some 1;
          scheduledDaysPassed := Some 0 |}
  /\ ~ (forall (host : Host) (random name : string) (days : option (list Z)),
          exists s : Z,
            scheduledDaysPassed
              (getStatistics host
                 (new_Habit host random name None None None days None None))
            = Some s
            /\ 1 <= s)
  /\ (forall s : string,
         In s (completions twiceTodayHabit) ->
         s = toISODate (now sundayNoonUTC)
         /\ isActiveOnDay sundayNoonUTC twiceTodayHabit (DayString s) = true)
  /\ completionRate (getStatistics sundayNoonUTC twiceTodayHabit) = 200.
Proof.
  split; [vm_compute; reflexivity|].
  split; [vm_compute; reflexivity|].
  split; [vm_compute; reflexivity|].
  split.
  - intros H.
    destruct (H sundayNoonUTC "k3x9q2m1z" "Gym" (Some [1])) as (s & Hs & Hle).
    vm_compute in Hs. inversion Hs. subst. lia.
  - split; [|vm_compute; reflexivity].
    intros s [<- | [<- | []]]; split; vm_compute; reflexivity.
Qed.

(** C3, amended.  [completionRate] is
    [Math.round((totalCompletions / scheduledDaysPassed) * 100)], in the
    doubles of the language, when [scheduledDaysPassed] is positive, and 0
    when it is 0 (or [NaN]).  For an array of completions (fewer than
    [2 ^ 32] elements) this is the percentage rounded to the nearest
    integer, a half up, except that at a percentage exactly half way
    between two integers the rounding of the doubles can give the lower
    one.  Without a day restriction [scheduledDaysPassed] is
    [daysSinceCreation].  Take a host in a zone with one fixed offset, on
    or east of UTC, at a moment when the local day is the UTC day, and a
    habit whose [createdDate] is day [c], not after today.  Then
    [daysSinceCreation] is the inclusive day count from [c] to today and
    [scheduledDaysPassed] is the number of days from [c] through today that
    the schedule admits; when [completions] names each of a duplicate-free
    list of those scheduled days once, the rate lies between 0 and 100; and
    a habit created today with no completions has rate 0 and one scheduled
    day passed if today is scheduled, none otherwise. *)
Theorem C3_completion_rate :
  forall (host : Host) (h : Habit),
    let stats := getStatistics host h in
    completionRate stats
    = match scheduledDaysPassed stats with
      | Some s =>
          if 0 <? s
          then Math_round
                 (double_mul
                    (double_div (inject_Z (totalCompletions stats))
                       (inject_Z s))
                    (inject_Z 100))
          else 0
      | None => 0
      end
    /\ (forall s : Z,
           scheduledDaysPassed stats = Some s -> 0 < s ->
           totalCompletions stats < 2 ^ 32 ->
           let exact := (200 * totalCompletions stats + s) / (2 * s) in
           completionRate stats = exact
           \/ ((200 * totalCompletions stats + s) mod (2 * s) = 0
               /\ completionRate stats = exact - 1))
    /\ (scheduledDaysPassed stats = Some 0 -> completionRate stats = 0)
    /\ (hasDayRestriction h = false ->
        scheduledDaysPassed stats = daysSinceCreation stats)
    /\ (forall c : Z,
           0 <= LocalTZA host < msPerDay ->
           Day (LocalTime host (now host)) = Day (now host) ->
           Date_parse (createdDate h) = Some (c * msPerDay) ->
           c <= Day (LocalTime host (now host)) ->
           let today := Day (LocalTime host (now host)) in
           let scheduled :=
             Z.of_nat (List.length (scheduledDays host h c today)) in
           scheduledDaysPassed stats = Some scheduled
           /\ daysSinceCreation stats = Some (today - c + 1)
           /\ (hasDayRestriction h = false -> scheduled = today - c + 1)
           /\ (forall ds : list Z,
                  NoDup ds -> incl ds (scheduledDays host h c today) ->
                  completions h = map dayString ds ->
                  0 <= completionRate stats <= 100)
           /\ (c = today -> completions h = [] ->
               completionRate stats = 0
               /\ scheduled
                  = (if isActiveOnDay host h (DayNumber (weekDayOfDay today))
                     then 1 else 0)
               /\ (hasDayRestriction h = false -> 1 <= scheduled))).
Proof.
  intros host h stats.
  split; [reflexivity|].
  split.
  { intros s E Hs Htot. unfold stats in *.
    rewrite getStatistics_completionRate, E.
    apply completionRate_rounds; [|assumption].
    rewrite getStatistics_totalCompletions in *. lia. }
  split.
  { intros E. unfold stats in *.
    rewrite getStatistics_completionRate, E. reflexivity. }
  split.
  { intros Hr. unfold stats.
    rewrite getStatistics_scheduledDaysPassed, getStatistics_daysSinceCreation.
    unfold computeScheduledDaysPassed. now rewrite Hr. }
  intros c Hz Hday Hp Hc today scheduled.
  assert (Hs : scheduledDaysPassed stats = Some scheduled).
  { unfold stats, scheduled, today.
    rewrite getStatistics_scheduledDaysPassed, Hday in *.
    now apply computeScheduledDaysPassed_east. }
  assert (Hrate : completionRate stats
                  = computeCompletionRate (totalCompletions stats)
                      (Some scheduled)).
  { unfold stats in *. rewrite getStatistics_completionRate.
    f_equal. exact Hs. }
  assert (Hunres : hasDayRestriction h = false ->
                   scheduled = today - c + 1).
  { intros Hr. unfold scheduled, scheduledDays.
    rewrite (filter_ext _ (fun _ => true)), filter_true, dayRange_length
      by (intros d; now apply isActiveOnDay_unrestricted).
    unfold today in *. lia. }
  split; [exact Hs|]. split; [|split; [exact Hunres|split]].
  - unfold stats, today.
    rewrite getStatistics_daysSinceCreation, Hday.
    now apply computeDaysSinceCreation_day.
  - intros ds Hnd Hincl Hcompl. rewrite Hrate.
    apply completionRate_bounds.
    assert (Htot : totalCompletions stats = Z.of_nat (List.length ds)).
    { unfold stats. rewrite getStatistics_totalCompletions.
      now rewrite Hcompl, length_map. }
    rewrite Htot. unfold scheduled.
    pose proof (NoDup_incl_length Hnd Hincl). lia.
  - intros Ect Hempty.
    assert (Hsched : scheduled
                     = if isActiveOnDay host h (DayNumber (weekDayOfDay today))
                       then 1 else 0).
    { unfold scheduled, scheduledDays. rewrite Ect.
      replace (Z.to_nat (today - today + 1)) with 1%nat by lia. simpl.
      now destruct (isActiveOnDay host h (DayNumber (weekDayOfDay today))). }
    split; [|split; [exact Hsched|]].
    + rewrite Hrate.
      assert (Htot : totalCompletions stats = 0).
      { unfold stats. rewrite getStatistics_totalCompletions.
        now rewrite Hempty. }
      rewrite Htot. apply completionRate_zero.
    + intros Hr. specialize (Hunres Hr). lia.
Qed.

(** The theorem at [mwfHabit], created on day 19723 (2024-01-01), seen on
    Sunday 2024-01-07: three scheduled days have passed and the one
    completion gives a rate between 0 and 100, which is 100 / 3 rounded. *)
Lemma C3_completion_rate_witness :
  (0 <= LocalTZA sundayNoonUTC < msPerDay)
  /\ Day (LocalTime sundayNoonUTC (now sundayNoonUTC))
     = Day (now sundayNoonUTC)
  /\ Date_parse (createdDate mwfHabit) = Some (19723 * msPerDay)
  /\ 19723 <= Day (LocalTime sundayNoonUTC (now sundayNoonUTC))
  /\ NoDup [19725]
  /\ incl [19725]
       (scheduledDays sundayNoonUTC mwfHabit 19723
          (Day (LocalTime sundayNoonUTC (now sundayNoonUTC))))
  /\ completions mwfHabit = map dayString [19725]
  /\ scheduledDaysPassed (getStatistics sundayNoonUTC mwfHabit)
     = Some (Z.of_nat (List.length
               (scheduledDays sundayNoonUTC mwfHabit 19723
                  (Day (LocalTime sundayNoonUTC (now sundayNoonUTC))))))
  /\ 0 <= completionRate (getStatistics sundayNoonUTC mwfHabit) <= 100
  /\ scheduledDaysPassed (getStatistics sundayNoonUTC mwfHabit) = Some 3
  /\ 0 < 3
  /\ totalCompletions (getStatistics sundayNoonUTC mwfHabit) < 2 ^ 32
  /\ (let stats := getStatistics sundayNoonUTC mwfHabit in
      let exact := (200 * totalCompletions stats + 3) / (2 * 3) in
      completionRate stats = exact
      \/ ((200 * totalCompletions stats + 3) mod (2 * 3) = 0
          /\ completionRate stats = exact - 1)).
Proof.
  assert (H1 : 0 <= LocalTZA sundayNoonUTC < msPerDay)
    by (vm_compute; split; [discriminate | reflexivity]).
  assert (H2 : Day (LocalTime sundayNoonUTC (now sundayNoonUTC))
               = Day (now sundayNoonUTC)) by (vm_compute; reflexivity).
  assert (H3 : Date_parse (createdDate mwfHabit) = Some (19723 * msPerDay))
    by (vm_compute; reflexivity).
  assert (H4 : 19723 <= Day (LocalTime sundayNoonUTC (now sundayNoonUTC)))
    by (vm_compute; discriminate).
  assert (H5 : NoDup [19725])
    by (constructor; [intros [] | constructor]).
  assert (H6 : incl [19725]
                 (scheduledDays sundayNoonUTC mwfHabit 19723
                    (Day (LocalTime sundayNoonUTC (now sundayNoonUTC))))).
  { intros d [<- | []]. vm_compute. right. left. reflexivity. }
  assert (H7 : completions mwfHabit = map dayString [19725])
    by (vm_compute; reflexivity).
  assert (H8 : scheduledDaysPassed (getStatistics sundayNoonUTC mwfHabit)
               = Some 3) by (vm_compute; reflexivity).
  assert (H9 : 0 < 3) by reflexivity.
  assert (H10 : totalCompletions (getStatistics sundayNoonUTC mwfHabit)
                < 2 ^ 32) by (vm_compute; reflexivity).
  destruct (C3_completion_rate sundayNoonUTC mwfHabit)
    as (_ & Hround & _ & _ & H).
  destruct (H 19723 H1 H2 H3 H4) as (Hs & _ & _ & Hb & _).
  split; [exact H1|]. split; [exact H2|]. split; [exact H3|].
  split; [exact H4|]. split; [exact H5|]. split; [exact H6|].
  split; [exact H7|]. split; [exact Hs|].
  split; [exact (Hb [19725] H5 H6 H7)|].
  split; [exact H8|]. split; [exact H9|]. split; [exact H10|].
  exact (Hround 3 H8 H9 H10).
Defined.

(* ================================================================== *)
(** * The schedule *)
(* ================================================================== *)

Lemma getDay_range (host : Host) (t : Z) : 0 <= getDay host t <= 6.
Proof.
  unfold getDay, WeekDay.
  pose proof (Z.mod_pos_bound (Day (LocalTime host t) + 4) 7 ltac:(lia)). lia.
Qed.

Lemma validDay_DayDate (host : Host) (t : Z) : validDay host (DayDate t).
Proof. unfold validDay. simpl. apply getDay_range. Qed.

Lemma isActiveOnDay_absent (host : Host) (h : Habit) (x : DayArg) :
  daysOfWeek h = None \/ daysOfWeek h = Some [] ->
  isActiveOnDay host h x = true.
Proof.
  unfold isActiveOnDay. now intros [-> | ->].
Qed.

Lemma isActiveOnDay_member (host : Host) (h : Habit) (days : list Z)
    (x : DayArg) :
  daysOfWeek h = Some days -> days <> [] ->
  isActiveOnDay host h x = true
  <-> exists w : Z, dayOfWeekOf host x = Some w /\ In w days.
Proof.
  intros Hd Hne. unfold isActiveOnDay. rewrite Hd.
  destruct days as [|d days]; [contradiction|].
  cbn [List.length Nat.eqb].
  destruct (dayOfWeekOf host x) as [w|].
  - rewrite includes_Z_In. split.
    + intros Hin. now exists w.
    + intros (w' & E & Hin). now inversion E; subst.
  - split; [discriminate|]. now intros (w & E & _).
Qed.

Lemma isActiveOnDay_coversWeek (host : Host) (h : Habit) (days : list Z)
    (x : DayArg) :
  daysOfWeek h = Some days -> coversWeek days -> validDay host x ->
  isActiveOnDay host h x = true.
Proof.
  intros Hd Hcov Hv.
  assert (Hne : days <> []).
  { intros ->. exact (Hcov 0 ltac:(lia)). }
  rewrite (isActiveOnDay_member host h days x Hd Hne).
  unfold validDay in Hv. destruct (dayOfWeekOf host x) as [w|]; [|contradiction].
  exists w. split; [reflexivity | now apply Hcov].
Qed.

(** Two habits with the same completions and the same answer of
    [isActiveOnDay] on every [Date] have the same streaks. *)
Section SameSchedule.
Variable host : Host.
Variables h1 h2 : Habit.
Hypothesis same_completions : completions h1 = completions h2.
Hypothesis same_schedule :
  forall t, isActiveOnDay host h1 (DayDate t) = isActiveOnDay host h2 (DayDate t).

Lemma same_isCompletedOn (date : DateArg) :
  isCompletedOn host h1 date = isCompletedOn host h2 date.
Proof. unfold isCompletedOn. now rewrite same_completions. Qed.

Lemma same_streakStep (w : Walk) : streakStep host h1 w = streakStep host h2 w.
Proof.
  unfold streakStep. now rewrite same_schedule, same_isCompletedOn.
Qed.

Lemma same_streakLoop (fuel : nat) (w : Walk) :
  streakLoop host fuel h1 w = streakLoop host fuel h2 w.
Proof.
  revert w. induction fuel as [|fuel IH]; intros w; simpl; [reflexivity|].
  rewrite same_streakStep.
  destruct (daysChecked w <? 365); [|reflexivity].
  destruct (streakStep host h2 w); [apply IH | reflexivity].
Qed.

Lemma same_calculateStreak : calculateStreak host h1 = calculateStreak host h2.
Proof.
  unfold calculateStreak, streakWalk.
  now rewrite same_completions, same_streakLoop.
Qed.

Lemma same_gapLoop (fuel : nat) (checkDate currDate : Z) :
  gapLoop host fuel h1 checkDate currDate
  = gapLoop host fuel h2 checkDate currDate.
Proof.
  revert checkDate. induction fuel as [|fuel IH]; intros checkDate; simpl;
    [reflexivity|].
  now rewrite same_schedule, IH.
Qed.

Lemma same_longestLoop (prev : option string) (rest : list string)
    (longest temp : Z) :
  longestLoop host h1 prev rest longest temp
  = longestLoop host h2 prev rest longest temp.
Proof.
  revert prev longest temp.
  induction rest as [|curr rest IH]; intros prev longest temp; simpl;
    [reflexivity|].
  destruct prev as [p|]; [|apply IH].
  unfold allScheduledDaysCompleted.
  destruct (Date_parse p), (Date_parse curr); rewrite ?same_gapLoop, !IH;
    reflexivity.
Qed.

Lemma same_computeLongestStreak :
  computeLongestStreak host h1 = computeLongestStreak host h2.
Proof.
  unfold computeLongestStreak.
  now rewrite same_completions, same_longestLoop.
Qed.
End SameSchedule.

(** When every day is scheduled the counting loop counts its turns. *)
Lemma countLoop_all_active (host : Host) (h : Habit) (today : Z) :
  (forall t, isActiveOnDay host h (DayDate t) = true) ->
  forall (fuel : nat) (checkDate acc : Z),
    (today - checkDate) / msPerDay + 1 <= Z.of_nat fuel ->
    countLoop host fuel h checkDate today acc
    = acc + Z.max 0 ((today - checkDate) / msPerDay + 1).
Proof.
  intros Hall. induction fuel as [|fuel IH]; intros checkDate acc Hf.
  - simpl. lia.
  - simpl. rewrite Hall. unfold addDays.
    assert (Hdiv : (today - (checkDate + 1 * msPerDay)) / msPerDay
                   = (today - checkDate) / msPerDay - 1).
    { replace (today - (checkDate + 1 * msPerDay))
        with (today - checkDate + (-1) * msPerDay) by ring.
      rewrite Z.div_add by (unfold msPerDay; lia). lia. }
    destruct (checkDate <=? today) eqn:E.
    + apply Z.leb_le in E. rewrite IH by lia. rewrite Hdiv.
      assert (0 <= (today - checkDate) / msPerDay)
        by (apply Z.div_pos; unfold msPerDay; lia).
      lia.
    + apply Z.leb_gt in E.
      assert ((today - checkDate) / msPerDay < 0)
        by (apply Z.div_lt_upper_bound; unfold msPerDay; lia).
      lia.
Qed.

Lemma computeCompletionRate_clamped (total s : Z) :
  computeCompletionRate total (Some (Z.max 0 s))
  = computeCompletionRate total (Some s).
Proof.
  unfold computeCompletionRate.
  destruct (Z.max_spec 0 s) as [[Hlt ->] | [Hle ->]]; [reflexivity|].
  destruct (0 <? s) eqn:E; [apply Z.ltb_lt in E; lia | reflexivity].
Qed.

Section EveryDay.
Variable host : Host.
Variable h : Habit.
Variable days : list Z.
Hypothesis days_cover : coversWeek days.

Let every : Habit := set_daysOfWeek (Some days) h.
Let absent : Habit := set_daysOfWeek None h.

Lemma every_active (x : DayArg) :
  validDay host x -> isActiveOnDay host every x = true.
Proof. now apply (isActiveOnDay_coversWeek host every days). Qed.

Lemma absent_active (x : DayArg) : isActiveOnDay host absent x = true.
Proof. apply isActiveOnDay_absent. now left. Qed.

Lemma every_absent_schedule (t : Z) :
  isActiveOnDay host every (DayDate t) = isActiveOnDay host absent (DayDate t).
Proof.
  rewrite absent_active. apply every_active, validDay_DayDate.
Qed.

Lemma every_hasDayRestriction : hasDayRestriction every = true.
Proof.
  unfold hasDayRestriction, every. simpl.
  destruct days as [|d l]; [|reflexivity].
  exfalso. exact (days_cover 0 ltac:(lia)).
Qed.

(** With all seven days listed, [scheduledDaysPassed] is the value the
    habit without day restriction has, raised to 0 when that is negative
    or [NaN]. *)
Lemma every_scheduledDaysPassed :
  computeScheduledDaysPassed host every
  = match computeScheduledDaysPassed host absent with
    | Some s => Some (Z.max 0 s)
    | None => Some 0
    end.
Proof.
  unfold computeScheduledDaysPassed at 1. rewrite every_hasDayRestriction.
  unfold computeScheduledDaysPassed, computeDaysSinceCreation. simpl.
  destruct (Date_parse (createdDate h)) as [t|]; [|reflexivity].
  rewrite (countLoop_all_active host every (now host)).
  - reflexivity.
  - intros t'. apply every_active, validDay_DayDate.
  - apply daysBetween_enough.
Qed.

Lemma every_completionRate :
  completionRate (getStatistics host every)
  = completionRate (getStatistics host absent).
Proof.
  rewrite !getStatistics_completionRate, !getStatistics_scheduledDaysPassed,
    !getStatistics_totalCompletions, every_scheduledDaysPassed.
  change (completions every) with (completions absent).
  destruct (computeScheduledDaysPassed host absent) as [s|].
  - apply computeCompletionRate_clamped.
  - reflexivity.
Qed.

Lemma every_getStatistics (t : Z) :
  Date_parse (createdDate h) = Some t -> t <= now host ->
  getStatistics host every = getStatistics host absent.
Proof.
  intros Hp Ht.
  assert (Hs : computeScheduledDaysPassed host every
               = computeScheduledDaysPassed host absent).
  { rewrite every_scheduledDaysPassed.
    unfold computeScheduledDaysPassed, computeDaysSinceCreation. simpl.
    rewrite Hp. f_equal.
    assert (0 <= (now host - t) / msPerDay)
      by (apply Z.div_pos; unfold msPerDay; lia).
    lia. }
  unfold getStatistics. rewrite Hs.
  rewrite (same_calculateStreak host every absent eq_refl every_absent_schedule).
  rewrite (same_computeLongestStreak host every absent eq_refl
             every_absent_schedule).
  reflexivity.
Qed.
End EveryDay.

Lemma everyWeekday_covers : coversWeek everyWeekday.
Proof.
  intros d Hd. unfold everyWeekday.
  assert (d = 0 \/ d = 1 \/ d = 2 \/ d = 3 \/ d = 4 \/ d = 5 \/ d = 6)
    as Hcases by lia.
  simpl. intuition.
Defined.

(** C6, as stated, fails: with a creation day after today the statistics of
    a habit that lists all seven days differ from those of the habit without
    [daysOfWeek] in [scheduledDaysPassed], which is 0 for the first and
    negative for the second. *)
Lemma C6_all_seven_days_differs_from_absent :
  let every := set_daysOfWeek (Some everyWeekday) habitCreatedAhead in
  let absent := set_daysOfWeek None habitCreatedAhead in
  coversWeek everyWeekday
  /\ scheduledDaysPassed (getStatistics sundayNoonUTC every) = Some 0
  /\ scheduledDaysPassed (getStatistics sundayNoonUTC absent) = Some (-1)
  /\ getStatistics sundayNoonUTC every <> getStatistics sundayNoonUTC absent.
Proof.
  cbv zeta.
  split; [exact everyWeekday_covers|].
  split; [vm_compute; reflexivity|].
  split; [vm_compute; reflexivity|].
  intros E.
  apply (f_equal scheduledDaysPassed) in E. vm_compute in E. discriminate.
Qed.

(** C6, amended.  [isActiveOnDay] answers [true] for every argument when
    [daysOfWeek] is absent or empty, and for every argument that denotes a
    day when [daysOfWeek] holds all seven weekday numbers; with any other
    non-empty [daysOfWeek] it answers [true] exactly when the weekday of the
    argument is an element.  A habit that lists all seven days agrees with
    the same habit without [daysOfWeek] on the schedule check of every day,
    on the current streak, on the longest streak, on the number of
    completions and on the days since creation.  In a zone with one fixed
    offset from UTC, which is what a [Host] is, the two agree on the
    completion rate as well, and on [scheduledDaysPassed], hence on the
    whole statistics object, when [createdDate] is a date not after the
    present moment.  (Where the offset of the zone changes between
    [createdDate] and now, the counting loop of the habit with seven days
    steps through local days while [daysSinceCreation] counts spans of 24
    hours, and the two can differ by one.) *)
Theorem C6_schedule_contract :
  forall (host : Host) (h : Habit),
    (forall x : DayArg,
        daysOfWeek h = None \/ daysOfWeek h = Some [] ->
        isActiveOnDay host h x = true)
    /\ (forall (days : list Z) (x : DayArg),
           daysOfWeek h = Some days -> coversWeek days -> validDay host x ->
           isActiveOnDay host h x = true)
    /\ (forall (days : list Z) (x : DayArg),
           daysOfWeek h = Some days -> days <> [] ->
           (isActiveOnDay host h x = true
            <-> exists w : Z, dayOfWeekOf host x = Some w /\ In w days))
    /\ (forall days : list Z,
           coversWeek days ->
           let every := set_daysOfWeek (Some days) h in
           let absent := set_daysOfWeek None h in
           (forall x : DayArg,
               validDay host x ->
               isActiveOnDay host every x = isActiveOnDay host absent x)
           /\ calculateStreak host every = calculateStreak host absent
           /\ currentStreak (getStatistics host every)
              = currentStreak (getStatistics host absent)
           /\ longestStreak (getStatistics host every)
              = longestStreak (getStatistics host absent)
           /\ totalCompletions (getStatistics host every)
              = totalCompletions (getStatistics host absent)
           /\ daysSinceCreation (getStatistics host every)
              = daysSinceCreation (getStatistics host absent)
           /\ completionRate (getStatistics host every)
              = completionRate (getStatistics host absent)
           /\ (forall t : Z,
                  Date_parse (createdDate h) = Some t -> t <= now host ->
                  getStatistics host every = getStatistics host absent)).
Proof.
  intros host h.
  split; [intros x; apply isActiveOnDay_absent|].
  split; [intros days x; apply isActiveOnDay_coversWeek|].
  split; [intros days x; apply isActiveOnDay_member|].
  intros days Hcov every absent.
  pose proof (every_absent_schedule host h days Hcov) as Hsched.
  split.
  { intros x Hx. unfold every, absent.
    now rewrite every_active, absent_active. }
  split; [exact (same_calculateStreak host every absent eq_refl Hsched)|].
  split.
  { rewrite !getStatistics_currentStreak.
    exact (same_calculateStreak host every absent eq_refl Hsched). }
  split.
  { rewrite !getStatistics_longestStreak.
    exact (same_computeLongestStreak host every absent eq_refl Hsched). }
  split; [reflexivity|].
  split; [reflexivity|].
  split; [now apply every_completionRate|].
  intros t. now apply every_getStatistics.
Qed.

(** The theorem at [mwfHabit] and the array of all seven days. *)
Lemma C6_schedule_contract_witness :
  coversWeek everyWeekday
  /\ Date_parse (createdDate mwfHabit) = Some (19723 * msPerDay)
  /\ 19723 * msPerDay <= now sundayNoonUTC
  /\ getStatistics sundayNoonUTC (set_daysOfWeek (Some everyWeekday) mwfHabit)
     = getStatistics sundayNoonUTC (set_daysOfWeek None mwfHabit).
Proof.
  assert (Hp : Date_parse (createdDate mwfHabit) = Some (19723 * msPerDay))
    by (vm_compute; reflexivity).
  assert (Hle : 19723 * msPerDay <= now sundayNoonUTC)
    by (vm_compute; discriminate).
  split; [exact everyWeekday_covers|].
  split; [exact Hp|]. split; [exact Hle|].
  destruct (C6_schedule_contract sundayNoonUTC mwfHabit) as (_ & _ & _ & H).
  destruct (H everyWeekday everyWeekday_covers)
    as (_ & _ & _ & _ & _ & _ & _ & Hall).
  exact (Hall (19723 * msPerDay) Hp Hle).
Defined.

(* ================================================================== *)
(** * Serialization *)
(* ================================================================== *)

Lemma append_dash_nonempty (s1 s2 : string) : (s1 ++ "-" ++ s2)%string <> "".
Proof. destruct s1; discriminate. Qed.

Lemma toISODate_nonempty (t : Z) : toISODate t <> "".
Proof.
  unfold toISODate. destruct (civilFromDays (Day t)) as [[y m] d].
  apply append_dash_nonempty.
Qed.

Lemma orString_nonempty (x : option string) (d : string) :
  d <> "" -> orString x d <> "".
Proof.
  intros Hd. unfold orString. destruct x as [s|]; [|assumption].
  destruct (s =? "")%string eqn:E; [assumption|].
  now apply String.eqb_neq in E.
Qed.

Lemma orString_Some (s d : string) : s <> "" -> orString (Some s) d = s.
Proof.
  intros Hs. unfold orString. apply String.eqb_neq in Hs. now rewrite Hs.
Qed.

Lemma orString_Some_empty_default (s : string) : orString (Some s) "" = s.
Proof.
  unfold orString. destruct (s =? "")%string eqn:E; [|reflexivity].
  apply String.eqb_eq in E. now subst.
Qed.

(** The creation date of a habit the program built is never empty. *)
Lemma Reachable_createdDate (h : Habit) : Reachable h -> createdDate h <> "".
Proof.
  induction 1 as [host random name cd cs nt dw ns ts
                 | host random obj
                 | host date h _ IH | host date h _ IH
                 | time h _ IH | days h _ IH
                 | v h _ IH | v h _ IH | v h _ IH];
    try exact IH.
  - simpl. apply orString_nonempty, toISODate_nonempty.
  - simpl. apply orString_nonempty, toISODate_nonempty.
  - unfold markCompleted. destruct (negb _); exact IH.
  - unfold markIncomplete. destruct (-1 <? _); exact IH.
  - unfold setNotificationTime. destruct time as [t|]; [|exact IH].
    destruct (t =? "")%string; [exact IH|].
    destruct (_isValidTimeString t); exact IH.
  - unfold setDaysOfWeek. destruct days as [l|]; [|exact IH].
    destruct (List.length l =? 0)%nat; [exact IH|].
    destruct (every isWeekdayNumber l); exact IH.
Qed.

Lemma fromJSON_toJSON (host : Host) (random : string) (h : Habit) :
  createdDate h <> "" -> fromJSON host random (toJSON h) = h.
Proof.
  intros Hc. destruct h as [i n cd cs nt dw ns ts].
  simpl in Hc. unfold fromJSON, toJSON, new_Habit, set_id.
  cbn -[orString].
  now rewrite orString_Some, orString_Some_empty_default.
Qed.

(** C7. Reading back the plain object of a habit gives a habit equal to it
    in every field: the identifier is the stored one, whatever identifier
    the constructor generated on the way. *)
Theorem C7_fromJSON_toJSON_roundtrip :
  forall (host : Host) (random : string) (h : Habit),
    Reachable h ->
    fromJSON host random (toJSON h) = h
    /\ id (fromJSON host random (toJSON h)) = id h
    /\ name (fromJSON host random (toJSON h)) = name h
    /\ createdDate (fromJSON host random (toJSON h)) = createdDate h
    /\ completions (fromJSON host random (toJSON h)) = completions h
    /\ notificationTime (fromJSON host random (toJSON h)) = notificationTime h
    /\ daysOfWeek (fromJSON host random (toJSON h)) = daysOfWeek h
    /\ notes (fromJSON host random (toJSON h)) = notes h
    /\ tags (fromJSON host random (toJSON h)) = tags h.
Proof.
  intros host random h Hr.
  rewrite (fromJSON_toJSON host random h (Reachable_createdDate h Hr)).
  repeat split.
Qed.

(** The theorem at a habit the constructor made at [sundayNoonUTC], read
    back two days later with another random text. *)
Lemma C7_fromJSON_toJSON_roundtrip_witness :
  Reachable mondayHabitCreatedToday
  /\ fromJSON tuesdayUTC "z1y2x3w4v" (toJSON mondayHabitCreatedToday)
     = mondayHabitCreatedToday.
Proof.
  assert (Hr : Reachable mondayHabitCreatedToday).
  { unfold mondayHabitCreatedToday. apply Reach_new. }
  split; [exact Hr|].
  exact (proj1 (C7_fromJSON_toJSON_roundtrip tuesdayUTC "z1y2x3w4v"
                  mondayHabitCreatedToday Hr)).
Defined.

(* ================================================================== *)
(** * Changing the schedule *)
(* ================================================================== *)










(* ================================================================== *)
(** * The schedule label *)
(* ================================================================== *)

Lemma StronglySorted_lt_NoDup (l : list Z) : StronglySorted Z.lt l -> NoDup l.
Proof.
  induction 1 as [|a l Hs IH Hall]; constructor; auto.
  intros Hin. rewrite Forall_forall in Hall. specialize (Hall a Hin). lia.
Qed.

Lemma invariant_incl_week (days : list Z) :
  ScheduleInvariant days -> incl days everyWeekday.
Proof.
  intros [_ Hr] d Hd. rewrite Forall_forall in Hr.
  apply everyWeekday_covers. auto.
Qed.

(** Under the invariant an array holds all seven days exactly when its
    length is 7. *)
Lemma invariant_covers_length (days : list Z) :
  ScheduleInvariant days ->
  coversWeek days <-> List.length days = 7%nat.
Proof.
  intros Hinv. pose proof (invariant_incl_week days Hinv) as Hincl.
  pose proof (StronglySorted_lt_NoDup days (proj1 Hinv)) as Hnd.
  split.
  - intros Hcov.
    assert (incl everyWeekday days) as Hincl'.
    { intros d Hd. apply Hcov. unfold everyWeekday in Hd. simpl in Hd. lia. }
    pose proof (NoDup_incl_length Hnd Hincl) as H1.
    assert (NoDup everyWeekday) as Hndw.
    { unfold everyWeekday.
      repeat (constructor; [simpl; lia|]). constructor. }
    pose proof (NoDup_incl_length Hndw Hincl') as H2.
    change (List.length everyWeekday) with 7%nat in *. lia.
  - intros Hlen d Hd.
    assert (incl everyWeekday days) as Hincl'.
    { apply (NoDup_length_incl Hnd); [|assumption].
      rewrite Hlen. apply Nat.le_refl. }
    apply Hincl'. now apply everyWeekday_covers.
Qed.







Section Label.
Variable h : Habit.
Hypothesis invariant : HabitScheduleInvariant h.




End Label.



(* ================================================================== *)
(** * Construction and the completions invariant *)
(* ================================================================== *)

(** C10. The constructor and [fromJSON] store the completions they are
    given as they are.  At [unsortedRecord], whose completions are neither
    ascending nor free of duplicates, the habit built has that very
    sequence; nothing sorts or de-duplicates at construction. *)
Theorem C10_construction_keeps_completions_verbatim :
  (forall (host : Host) (random name : string) (createdDate : option string)
          (l : list string) (notificationTime : option string)
          (daysOfWeek : option (list Z)) (notes : option string)
          (tags : option (list string)),
      completions (new_Habit host random name createdDate (Some l)
                     notificationTime daysOfWeek notes tags) = l)
  /\ (forall (host : Host) (random : string) (obj : PlainObject),
         completions (fromJSON host random obj)
         = orArray (obj_completions obj) [])
  /\ (forall (host : Host) (random : string),
         completions (fromJSON host random unsortedRecord)
         = ["2024-01-05"; "2024-01-03"; "2024-01-05"])
  /\ ~ StrictlyAscending ["2024-01-05"; "2024-01-03"; "2024-01-05"]
  /\ ~ NoDup ["2024-01-05"; "2024-01-03"; "2024-01-05"].
Proof.
  split; [reflexivity|]. split; [reflexivity|]. split; [reflexivity|].
  split.
  - intros Hs. apply StrictlyAscending_NoDup in Hs.
    inversion Hs as [|? ? Hnotin _]; subst. apply Hnotin. simpl. auto.
  - intros Hnd. inversion Hnd as [|? ? Hnotin _]; subst.
    apply Hnotin. simpl. auto.
Qed.

(* ================================================================== *)
(** * Numbers, days and their texts *)
(* ================================================================== *)

(** ** Texts of numbers *)

Lemma Z_to_int_not_nil (n : Z) :
  Z.to_int n <> Decimal.Pos Decimal.Nil /\ Z.to_int n <> Decimal.Neg Decimal.Nil.
Proof.
  split; intros E; pose proof (f_equal Z.of_int E) as E';
    rewrite DecimalZ.of_to in E'; simpl in E'; subst n;
    vm_compute in E; discriminate.
Qed.

Lemma toString_inj (a b : Z) : toString a = toString b -> a = b.
Proof.
  unfold toString. intros E.
  apply DecimalZ.to_int_inj.
  destruct (Z_to_int_not_nil a) as [Ha1 Ha2].
  destruct (Z_to_int_not_nil b) as [Hb1 Hb2].
  pose proof (NilZero.isi (Z.to_int a) Ha1 Ha2) as Pa.
  pose proof (NilZero.isi (Z.to_int b) Hb1 Hb2) as Pb.
  rewrite E in Pa. congruence.
Qed.

Lemma lacks_append (c : ascii) (s1 s2 : string) :
  lacks c (s1 ++ s2) <-> lacks c s1 /\ lacks c s2.
Proof.
  unfold lacks. induction s1 as [|a s1 IH]; simpl; [tauto|]. tauto.
Qed.

Lemma lacks_cons (c a : ascii) (s : string) :
  lacks c (String a s) <-> a <> c /\ lacks c s.
Proof. unfold lacks. simpl. tauto. Qed.

Lemma split_lacks (sep : ascii) (s : string) :
  lacks sep s -> split sep s = [s].
Proof.
  induction s as [|a s IH]; intros H; simpl; [reflexivity|].
  apply lacks_cons in H. destruct H as [Hne Hs].
  apply Ascii.eqb_neq in Hne. rewrite Hne, (IH Hs). reflexivity.
Qed.

Lemma split_append (sep : ascii) (a b : string) :
  lacks sep a -> split sep (a ++ String sep b) = a :: split sep b.
Proof.
  induction a as [|x a IH]; intros H; simpl.
  - now rewrite Ascii.eqb_refl.
  - apply lacks_cons in H. destruct H as [Hne Ha].
    apply Ascii.eqb_neq in Hne. rewrite Hne, (IH Ha). reflexivity.
Qed.

Lemma append_assoc (a b c : string) : ((a ++ b) ++ c = a ++ (b ++ c))%string.
Proof. induction a as [|x a IH]; simpl; [reflexivity | now rewrite IH]. Qed.

Lemma append_length (a b : string) :
  String.length (a ++ b) = (String.length a + String.length b)%nat.
Proof. induction a as [|x a IH]; simpl; [reflexivity | now rewrite IH]. Qed.

(** Two texts cut at the same length are equal part by part. *)
Lemma append_inj (a a' b b' : string) :
  String.length a = String.length a' ->
  (a ++ b = a' ++ b')%string -> a = a' /\ b = b'.
Proof.
  revert a'. induction a as [|x a IH]; intros [|x' a'] Hl E;
    simpl in *; try discriminate; [now split|].
  inversion E; subst. destruct (IH a' ltac:(lia) H1) as [-> ->]. now split.
Qed.

(** The text of a number holds digits, after a minus sign when the number
    is negative. *)
Lemma digitsOnly_cons (c : ascii) (s : string) :
  digitsOnly (String c s) = (isDigit c && digitsOnly s)%bool.
Proof. reflexivity. Qed.

Lemma string_of_uint_digits (d : Decimal.uint) :
  digitsOnly (NilEmpty.string_of_uint d) = true.
Proof.
  induction d; simpl; try reflexivity; rewrite digitsOnly_cons, IHd;
    reflexivity.
Qed.

Lemma toString_digits (n : Z) : 0 <= n -> digitsOnly (toString n) = true.
Proof.
  intros Hn. unfold toString. destruct n as [|p|p]; [reflexivity| |lia].
  simpl. unfold NilZero.string_of_uint.
  destruct (Pos.to_uint p) eqn:E; try (rewrite <- E; apply string_of_uint_digits).
  reflexivity.
Qed.

Lemma toString_negative (n : Z) :
  n < 0 -> exists s, toString n = String "-" s /\ digitsOnly s = true.
Proof.
  intros Hn. unfold toString. destruct n as [|p|p]; try lia.
  simpl. eexists. split; [reflexivity|].
  unfold NilZero.string_of_uint.
  destruct (Pos.to_uint p) eqn:E; try (rewrite <- E; apply string_of_uint_digits).
  reflexivity.
Qed.

Lemma digitsOnly_lacks (c : ascii) (s : string) :
  isDigit c = false -> digitsOnly s = true -> lacks c s.
Proof.
  intros Hc. induction s as [|a s IH]; intros Hs.
  - intros [].
  - rewrite digitsOnly_cons in Hs. apply andb_true_iff in Hs.
    destruct Hs as [Ha Hs]. apply lacks_cons. split; [|auto].
    intros ->. congruence.
Qed.

Lemma digitsOnly_append (a b : string) :
  digitsOnly (a ++ b) = (digitsOnly a && digitsOnly b)%bool.
Proof.
  induction a as [|x a IH]; simpl; [reflexivity|].
  rewrite !digitsOnly_cons, IH. now rewrite andb_assoc.
Qed.

Lemma digitsOnly_repeat_zero (n : nat) : digitsOnly (repeatChar n "0") = true.
Proof. induction n as [|n IH]; simpl; [reflexivity|]. now rewrite digitsOnly_cons, IH. Qed.

Lemma padStart_digits (n : nat) (s : string) :
  digitsOnly s = true -> digitsOnly (padStart n "0" s) = true.
Proof.
  intros Hs. unfold padStart.
  now rewrite digitsOnly_append, digitsOnly_repeat_zero, Hs.
Qed.

(** A number other than a minus sign or a digit is not in the text of a
    number. *)
Lemma toString_lacks (c : ascii) (n : Z) :
  isDigit c = false -> c <> "-"%char -> lacks c (toString n).
Proof.
  intros Hc Hm. destruct (Z.lt_ge_cases n 0) as [Hn|Hn].
  - destruct (toString_negative n Hn) as (s & -> & Hs).
    apply lacks_cons. split; [congruence|]. now apply digitsOnly_lacks.
  - apply digitsOnly_lacks; [assumption|]. now apply toString_digits.
Qed.

Lemma twoDigits_checked (v : Z) :
  0 <= v <= 99 -> twoDigitsChecked v = true.
Proof.
  intros Hv.
  assert (H : forallb twoDigitsChecked (dayRange 0 100) = true)
    by (vm_compute; reflexivity).
  rewrite forallb_forall in H. apply H, dayRange_In. lia.
Qed.

Lemma fourDigits_checked (y : Z) :
  0 <= y <= 9999 -> fourDigitsChecked y = true.
Proof.
  intros Hy.
  assert (H : forallb fourDigitsChecked (dayRange 0 (Z.to_nat 10000)) = true)
    by (vm_compute; reflexivity).
  rewrite forallb_forall in H. apply H, dayRange_In. lia.
Qed.

Lemma yearText_checked (y : Z) :
  1000 <= y <= 9999 -> yearTextChecked y = true.
Proof.
  intros Hy.
  assert (H : forallb yearTextChecked (dayRange 1000 (Z.to_nat 9000)) = true)
    by (vm_compute; reflexivity).
  rewrite forallb_forall in H. apply H, dayRange_In. lia.
Qed.

(** ** The calendar *)

(** [daysFromCivil] undoes [civilFromDays], whose months and days are those
    of the calendar. *)
Lemma civilFromDays_spec (z : Z) :
  let '(y, m, d) := civilFromDays z in
  daysFromCivil y m d = z /\ 1 <= m <= 12 /\ 1 <= d <= daysInMonth y m.
Proof.
  unfold civilFromDays, daysFromCivil.
  set (z1 := z + 719468).
  set (era := z1 / 146097).
  set (doe := z1 - era * 146097).
  set (yoe := (doe - doe / 1460 + doe / 36524 - doe / 146096) / 365).
  set (doy := doe - (365 * yoe + yoe / 4 - yoe / 100)).
  set (mp := (5 * doy + 2) / 153).
  set (d := doy - (153 * mp + 2) / 5 + 1).
  assert (Hdoe : 0 <= doe < 146097).
  { subst doe era. pose proof (Z.div_mod z1 146097 ltac:(lia)).
    pose proof (Z.mod_pos_bound z1 146097 ltac:(lia)). lia. }
  assert (Hyoe : 0 <= yoe <= 399).
  { subst yoe. Z.div_mod_to_equations; lia. }
  assert (Hdoy : 0 <= doy <= 365).
  { subst doy. subst yoe. Z.div_mod_to_equations; lia. }
  assert (Hmp : 0 <= mp <= 11).
  { subst mp. Z.div_mod_to_equations; lia. }
  assert (Hd : 1 <= d <= 31).
  { subst d mp. Z.div_mod_to_equations; lia. }
  assert (H30 : mp = 1 \/ mp = 3 \/ mp = 6 \/ mp = 8 -> d <= 30).
  { subst d mp. Z.div_mod_to_equations; lia. }
  assert (Hfeb : mp = 11 -> d <= 29).
  { subst d mp. Z.div_mod_to_equations; lia. }
  assert (Hleap : doy = 365 ->
                  (yoe + 1) mod 4 = 0
                  /\ ((yoe + 1) mod 100 <> 0 \/ (yoe + 1) mod 400 = 0)).
  { intros. subst doy yoe. Z.div_mod_to_equations; lia. }
  assert (Hnoleap : mp = 11 -> doy <> 365 -> d <= 28).
  { subst d mp. Z.div_mod_to_equations; lia. }
  destruct (mp <? 10) eqn:E10.
  - apply Z.ltb_lt in E10.
    replace (mp + 3 <=? 2) with false by (symmetry; apply Z.leb_gt; lia).
    replace (2 <? mp + 3) with true by (symmetry; apply Z.ltb_lt; lia).
    replace (mp + 3 - 3) with mp by lia.
    split; [|split].
    + subst d doy mp yoe. Z.div_mod_to_equations. lia.
    + lia.
    + unfold daysInMonth. clearbody d. clearbody mp.
      assert (mp = 0 \/ mp = 1 \/ mp = 2 \/ mp = 3 \/ mp = 4 \/ mp = 5
              \/ mp = 6 \/ mp = 7 \/ mp = 8 \/ mp = 9) as C by lia.
      repeat (destruct C as [C|C]); subst mp; simpl; lia.
  - apply Z.ltb_ge in E10.
    replace (mp - 9 <=? 2) with true by (symmetry; apply Z.leb_le; lia).
    replace (2 <? mp - 9) with false by (symmetry; apply Z.ltb_ge; lia).
    replace (mp - 9 + 9) with mp by lia.
    split; [|split].
    + subst d doy mp yoe. Z.div_mod_to_equations. lia.
    + lia.
    + unfold daysInMonth, isLeapYear.
      assert (mp = 10 \/ mp = 11) as C by lia.
      destruct C as [C|C].
      * clearbody d. clearbody mp. subst mp. simpl. lia.
      * assert (Hy : (yoe + era * 400 + 1) mod 4 = (yoe + 1) mod 4
                     /\ (yoe + era * 400 + 1) mod 100 = (yoe + 1) mod 100
                     /\ (yoe + era * 400 + 1) mod 400 = (yoe + 1) mod 400).
        { Z.div_mod_to_equations; lia. }
        destruct Hy as (-> & -> & ->).
        pose proof (Hfeb C) as H29.
        replace (mp - 9 =? 2) with true by (symmetry; apply Z.eqb_eq; lia).
        destruct (((yoe + 1) mod 4 =? 0) && negb ((yoe + 1) mod 100 =? 0)
                  || ((yoe + 1) mod 400 =? 0))%bool eqn:L.
        -- lia.
        -- assert (doy <> 365) as Hne.
           { intros H365. destruct (Hleap H365) as [H4 [H100|H400]].
             - rewrite H4 in L. apply Z.eqb_neq in H100.
               rewrite H100 in L. simpl in L. discriminate.
             - rewrite H400 in L. rewrite orb_true_r in L. discriminate. }
           pose proof (Hnoleap C Hne). lia.
Qed.

Lemma civilFromDays_inj (a b : Z) : civilFromDays a = civilFromDays b -> a = b.
Proof.
  intros E. pose proof (civilFromDays_spec a) as Ha.
  pose proof (civilFromDays_spec b) as Hb. rewrite E in Ha.
  destruct (civilFromDays b) as [[y m] d].
  destruct Ha as [Ha _], Hb as [Hb _]. congruence.
Qed.

Lemma daysInMonth_le_31 (y m : Z) : daysInMonth y m <= 31.
Proof.
  unfold daysInMonth.
  destruct (m =? 2); [destruct (isLeapYear y); lia|].
  destruct ((m =? 4) || (m =? 6) || (m =? 9) || (m =? 11))%bool; lia.
Qed.

Lemma twoDigits_length (v : Z) :
  0 <= v <= 99 -> String.length (twoDigits v) = 2%nat.
Proof.
  intros Hv. pose proof (twoDigits_checked v Hv) as H.
  unfold twoDigitsChecked in H. rewrite !andb_true_iff in H.
  destruct H as [[[H _] _] _]. now apply Nat.eqb_eq in H.
Qed.

Lemma twoDigits_parse (v : Z) :
  0 <= v <= 99 -> digitsPrefix 10 (twoDigits v) None = Some v.
Proof.
  intros Hv. pose proof (twoDigits_checked v Hv) as H.
  unfold twoDigitsChecked in H. rewrite !andb_true_iff in H.
  destruct H as [[[_ H] _] _].
  destruct (digitsPrefix 10 (twoDigits v) None); [|discriminate].
  apply Z.eqb_eq in H. now subst.
Qed.

Lemma twoDigits_parseInt (v : Z) :
  0 <= v <= 99 -> parseInt (twoDigits v) = Some v.
Proof.
  intros Hv. pose proof (twoDigits_checked v Hv) as H.
  unfold twoDigitsChecked in H. rewrite !andb_true_iff in H.
  destruct H as [[[_ _] H] _].
  destruct (parseInt (twoDigits v)); [|discriminate].
  apply Z.eqb_eq in H. now subst.
Qed.

Lemma twoDigits_Number (v : Z) :
  0 <= v <= 99 -> Number (twoDigits v) = Some v.
Proof.
  intros Hv. pose proof (twoDigits_checked v Hv) as H.
  unfold twoDigitsChecked in H. rewrite !andb_true_iff in H.
  destruct H as [_ H].
  destruct (Number (twoDigits v)); [|discriminate].
  apply Z.eqb_eq in H. now subst.
Qed.

Lemma twoDigits_inj (a b : Z) :
  0 <= a <= 99 -> 0 <= b <= 99 -> twoDigits a = twoDigits b -> a = b.
Proof.
  intros Ha Hb E. pose proof (twoDigits_parse a Ha) as Pa.
  rewrite E, (twoDigits_parse b Hb) in Pa. congruence.
Qed.

Lemma twoDigits_digits (v : Z) : 0 <= v -> digitsOnly (twoDigits v) = true.
Proof. intros Hv. apply padStart_digits. now apply toString_digits. Qed.

Lemma _normalizeDate_DateObject (host : Host) (t : Z) :
  _normalizeDate host (DateObject t) = formatDay (Day (LocalTime host t)).
Proof.
  unfold _normalizeDate, formatDay, getFullYear, getMonth, getDate, twoDigits.
  destruct (civilFromDays (Day (LocalTime host t))) as [[y m] d]. simpl.
  now replace (m - 1 + 1) with m by lia.
Qed.

Lemma formatDay_inj (a b : Z) : formatDay a = formatDay b -> a = b.
Proof.
  intros E. apply civilFromDays_inj.
  pose proof (civilFromDays_spec a) as Sa. pose proof (civilFromDays_spec b) as Sb.
  unfold formatDay in E.
  destruct (civilFromDays a) as [[ya ma] da], (civilFromDays b) as [[yb mb] db].
  destruct Sa as (_ & Hma & Hda), Sb as (_ & Hmb & Hdb).
  pose proof (daysInMonth_le_31 ya ma). pose proof (daysInMonth_le_31 yb mb).
  assert (Hl : String.length (toString ya) = String.length (toString yb)).
  { apply (f_equal String.length) in E. rewrite !append_length in E.
    rewrite !(twoDigits_length ma), !(twoDigits_length mb),
      !(twoDigits_length da), !(twoDigits_length db) in E by lia.
    simpl in E. lia. }
  destruct (append_inj _ _ _ _ Hl E) as [Ey E1].
  simpl in E1. inversion E1 as [E2].
  assert (Hl2 : String.length (twoDigits ma) = String.length (twoDigits mb))
    by (rewrite !twoDigits_length by lia; reflexivity).
  destruct (append_inj _ _ _ _ Hl2 E2) as [Em E3].
  simpl in E3. inversion E3 as [Ed].
  apply toString_inj in Ey. apply twoDigits_inj in Em, Ed; try lia.
  congruence.
Qed.

Lemma formatDay_lacks (c : ascii) (d : Z) :
  isDigit c = false -> c <> "-"%char -> lacks c (formatDay d).
Proof.
  intros Hc Hm. unfold formatDay.
  pose proof (civilFromDays_spec d) as S.
  destruct (civilFromDays d) as [[y m] dd]. destruct S as (_ & Hmm & Hdd).
  rewrite !lacks_append. repeat split.
  - now apply toString_lacks.
  - apply lacks_cons. split; [congruence | intros []].
  - apply digitsOnly_lacks; [assumption | apply twoDigits_digits; lia].
  - apply lacks_cons. split; [congruence | intros []].
  - apply digitsOnly_lacks; [assumption | apply twoDigits_digits; lia].
Qed.

(** [_normalizeDate] leaves the text it wrote for a [Date] as it is. *)
Lemma _normalizeDate_formatDay (host : Host) (d : Z) :
  _normalizeDate host (DateString (formatDay d)) = formatDay d.
Proof.
  unfold _normalizeDate. rewrite split_lacks; [reflexivity|].
  apply formatDay_lacks; [reflexivity | discriminate].
Qed.

(** For a four-digit year the text is the one [toISOString] writes. *)
Lemma formatDay_dayString (d : Z) :
  1000 <= yearOfDay d <= 9999 -> formatDay d = dayString d.
Proof.
  unfold yearOfDay, formatDay, dayString, toISODate, Day.
  rewrite Z.div_mul by (unfold msPerDay; lia).
  destruct (civilFromDays d) as [[y m] dd]. simpl. intros Hy.
  unfold isoYear.
  replace ((0 <=? y) && (y <=? 9999))%bool with true
    by (symmetry; apply andb_true_iff; split; apply Z.leb_le; lia).
  pose proof (yearText_checked y Hy) as H. unfold yearTextChecked in H.
  apply andb_true_iff in H. destruct H as [H _].
  apply String.eqb_eq in H. now rewrite H.
Qed.

(** [new Date(s)] reads the text [toISOString] writes for a day of the
    years 0 to 9999 as the UTC midnight of that day. *)
Lemma Date_parse_dayString_year (d : Z) :
  0 <= yearOfDay d <= 9999 -> Date_parse (dayString d) = Some (d * msPerDay).
Proof.
  unfold yearOfDay, dayString, toISODate, Day.
  rewrite Z.div_mul by (unfold msPerDay; lia).
  pose proof (civilFromDays_spec d) as S.
  destruct (civilFromDays d) as [[y m] dd]. simpl. intros Hy.
  destruct S as (Hrt & Hm & Hd).
  pose proof (daysInMonth_le_31 y m) as H31.
  unfold isoYear.
  replace ((0 <=? y) && (y <=? 9999))%bool with true
    by (symmetry; apply andb_true_iff; split; apply Z.leb_le; lia).
  pose proof (fourDigits_checked y Hy) as H4. unfold fourDigitsChecked in H4.
  apply andb_true_iff in H4. destruct H4 as [Hlen Hparse].
  set (ys := padStart 4 "0" (toString y)) in *.
  fold (twoDigits m). fold (twoDigits dd).
  assert (Hys : digitsOnly ys = true)
    by (apply padStart_digits, toString_digits; lia).
  assert (Hms : digitsOnly (twoDigits m) = true) by (apply twoDigits_digits; lia).
  assert (Hds : digitsOnly (twoDigits dd) = true) by (apply twoDigits_digits; lia).
  unfold Date_parse.
  change (ys ++ "-" ++ twoDigits m ++ "-" ++ twoDigits dd)
    with (ys ++ String "-" (twoDigits m ++ String "-" (twoDigits dd))).
  rewrite split_append by (now apply digitsOnly_lacks).
  rewrite split_append by (now apply digitsOnly_lacks).
  rewrite split_lacks by (now apply digitsOnly_lacks).
  rewrite Hlen, !twoDigits_length, Hys, Hms, Hds by lia. simpl.
  destruct (digitsPrefix 10 ys None) as [y'|]; [|discriminate].
  apply Z.eqb_eq in Hparse. subst y'.
  rewrite !twoDigits_parse by lia.
  replace ((1 <=? m) && (m <=? 12) && (1 <=? dd) && (dd <=? daysInMonth y m))%bool
    with true.
  - now rewrite Hrt.
  - symmetry. rewrite !andb_true_iff, !Z.leb_le. lia.
Qed.

(* ================================================================== *)
(** * Completion tracking, continued *)
(* ================================================================== *)

(** ** More on completion tracking *)

Lemma indexOfFrom_spec (x : string) (l : list string) (i : Z) :
  (~ In x l -> indexOfFrom i l x = -1)
  /\ (In x l ->
      exists k : nat,
        indexOfFrom i l x = i + Z.of_nat k
        /\ (firstn k l ++ skipn (S k) l)%list = removeFirst x l).
Proof.
  revert i. induction l as [|y r IH]; intros i; simpl.
  - split; [reflexivity | contradiction].
  - change (js_eqb y x) with (y =? x)%string.
    destruct (y =? x)%string eqn:E.
    + apply String.eqb_eq in E. subst y. split; [tauto|].
      intros _. exists O. split; [lia | reflexivity].
    + apply String.eqb_neq in E. destruct (IH (i + 1)) as [Hn Hy]. split.
      * intros Hnot. apply Hn. tauto.
      * intros [Hx | Hx]; [contradiction|].
        destruct (Hy Hx) as (k & Hk & Hr). exists (S k).
        split; [rewrite Hk; lia|]. rewrite <- Hr. reflexivity.
Qed.

Lemma removeFirst_In (x y : string) (l : list string) :
  NoDup l -> (In y (removeFirst x l) <-> In y l /\ y <> x).
Proof.
  induction l as [|a r IH]; intros Hnd; simpl; [tauto|].
  inversion Hnd as [|? ? Hnotin Hnd']; subst.
  destruct (a =? x)%string eqn:E.
  - apply String.eqb_eq in E. subst a. split.
    + intros Hy. split; [now right|]. intros ->. contradiction.
    + intros [[Ha | Hy] Hne]; [congruence | assumption].
  - apply String.eqb_neq in E. simpl. rewrite (IH Hnd'). split.
    + intros [<- | [Hy Hne]]; [split; [now left | assumption] | tauto].
    + intros [[<- | Hy] Hne]; [now left | tauto].
Qed.

Lemma removeFirst_absent (x : string) (l : list string) :
  ~ In x l -> removeFirst x l = l.
Proof.
  induction l as [|a r IH]; intros Hn; simpl; [reflexivity|].
  destruct (a =? x)%string eqn:E.
  - apply String.eqb_eq in E. subst. exfalso. apply Hn. now left.
  - rewrite IH; [reflexivity|]. intros H. apply Hn. now right.
Qed.

(** The record with its own completions put back is the record. *)
Lemma set_completions_same (h : Habit) : set_completions (completions h) h = h.
Proof. now destruct h. Qed.

Lemma set_completions_twice (l1 l2 : list string) (h : Habit) :
  set_completions l1 (set_completions l2 h) = set_completions l1 h.
Proof. reflexivity. Qed.

Section MoreCompletionTracking.
Variable host : Host.

Lemma markCompleted_set (date : DateArg) (h : Habit) :
  markCompleted host date h
  = set_completions (completions (markCompleted host date h)) h.
Proof.
  unfold markCompleted. destruct (negb _); simpl.
  - reflexivity.
  - now rewrite set_completions_same.
Qed.

Lemma markCompleted_In (date : DateArg) (h : Habit) (x : string) :
  In x (completions (markCompleted host date h))
  <-> In x (completions h) \/ x = _normalizeDate host date.
Proof.
  rewrite markCompleted_completions.
  destruct (includes (completions h) (_normalizeDate host date)) eqn:E.
  - apply includes_string_In in E. split; [tauto|].
    intros [H | ->]; assumption.
  - rewrite sort_In, in_app_iff. simpl. split.
    + intros [H | [<- | []]]; tauto.
    + intros [H | ->]; [now left | right; now left].
Qed.

(** What [markIncomplete] does to [completions]. *)
Lemma markIncomplete_completions (date : DateArg) (h : Habit) :
  completions (markIncomplete host date h)
  = removeFirst (_normalizeDate host date) (completions h).
Proof.
  unfold markIncomplete.
  destruct (indexOfFrom_spec (_normalizeDate host date) (completions h) 0)
    as [Hn Hy].
  destruct (in_dec string_dec (_normalizeDate host date) (completions h))
    as [Hin | Hnot].
  - destruct (Hy Hin) as (k & Hk & Hr). unfold indexOf. rewrite Hk.
    replace (-1 <? 0 + Z.of_nat k) with true by (symmetry; apply Z.ltb_lt; lia).
    cbn [set_completions completions]. unfold splice1.
    replace (Z.to_nat (0 + Z.of_nat k)) with k by lia. exact Hr.
  - unfold indexOf. rewrite (Hn Hnot). simpl.
    now rewrite removeFirst_absent.
Qed.

Lemma markIncomplete_set (date : DateArg) (h : Habit) :
  markIncomplete host date h
  = set_completions (completions (markIncomplete host date h)) h.
Proof.
  unfold markIncomplete. destruct (-1 <? _); simpl.
  - reflexivity.
  - now rewrite set_completions_same.
Qed.
End MoreCompletionTracking.

(** Two strictly ascending arrays with the same elements are equal. *)
Lemma StrictlyAscending_ext (l1 l2 : list string) :
  StrictlyAscending l1 -> StrictlyAscending l2 ->
  (forall x, In x l1 <-> In x l2) -> l1 = l2.
Proof.
  unfold StrictlyAscending. revert l2.
  induction l1 as [|a l1 IH]; intros l2 H1 H2 Hext.
  - destruct l2 as [|b l2]; [reflexivity|].
    exfalso. apply (Hext b). now left.
  - destruct l2 as [|b l2].
    { exfalso. apply (Hext a). now left. }
    apply StronglySorted_inv in H1. destruct H1 as [Hs1 Hall1].
    apply StronglySorted_inv in H2. destruct H2 as [Hs2 Hall2].
    rewrite Forall_forall in Hall1, Hall2.
    assert (a = b) as ->.
    { destruct (proj1 (Hext a) (or_introl eq_refl)) as [Hab | Hab];
        [now symmetry|].
      destruct (proj2 (Hext b) (or_introl eq_refl)) as [Hba | Hba];
        [assumption|].
      exfalso. apply (strLt_irrefl a).
      apply (strLt_trans a b a); auto. }
    f_equal. apply IH; auto.
    intros x. split; intros Hx.
    + destruct (proj1 (Hext x) (or_intror Hx)) as [<- | H]; [|assumption].
      exfalso. exact (strLt_irrefl b (Hall1 b Hx)).
    + destruct (proj2 (Hext x) (or_intror Hx)) as [<- | H]; [|assumption].
      exfalso. exact (strLt_irrefl b (Hall2 b Hx)).
Qed.

(** X1. [markCompleted] adds the normalised day and nothing else:
    afterwards the day is completed, the answer for every other day is as
    before, the array is one longer when the day was not completed, and the
    other fields are untouched. *)
Theorem markCompleted_adds_the_day :
  forall (host : Host) (date : DateArg) (h : Habit),
    let h' := markCompleted host date h in
    isCompletedOn host h' date = true
    /\ (forall other : DateArg,
           _normalizeDate host other <> _normalizeDate host date ->
           isCompletedOn host h' other = isCompletedOn host h other)
    /\ List.length (completions h')
       = (if isCompletedOn host h date
          then List.length (completions h)
          else S (List.length (completions h)))
    /\ h' = set_completions (completions h') h.
Proof.
  intros host date h h'. split; [apply isCompletedOn_markCompleted|].
  split; [|split; [|apply markCompleted_set]].
  - intros other Hne. unfold isCompletedOn.
    apply eq_true_iff_eq. rewrite !includes_string_In.
    unfold h'. rewrite markCompleted_In. tauto.
  - unfold h', isCompletedOn. rewrite markCompleted_completions.
    destruct (includes (completions h) (_normalizeDate host date));
      [reflexivity|].
    rewrite <- (Permutation_length (StringSort.Permuted_sort _)).
    rewrite length_app. simpl. lia.
Qed.

Lemma markCompleted_adds_the_day_witness :
  isCompletedOn sundayNoonUTC
    (markCompleted sundayNoonUTC (DateString "2024-01-07") saturdayHabit)
    (DateString "2024-01-06")
  = isCompletedOn sundayNoonUTC saturdayHabit (DateString "2024-01-06").
Proof.
  destruct (markCompleted_adds_the_day sundayNoonUTC (DateString "2024-01-07")
              saturdayHabit) as (_ & H & _).
  apply H. vm_compute. discriminate.
Defined.

(** X2. On completions without duplicates [markIncomplete] removes the
    normalised day and nothing else: afterwards the day is not completed,
    the answer for every other day is as before, and the other fields are
    untouched. *)
Theorem markIncomplete_removes_the_day :
  forall (host : Host) (date : DateArg) (h : Habit),
    NoDup (completions h) ->
    let h' := markIncomplete host date h in
    isCompletedOn host h' date = false
    /\ (forall other : DateArg,
           _normalizeDate host other <> _normalizeDate host date ->
           isCompletedOn host h' other = isCompletedOn host h other)
    /\ h' = set_completions (completions h') h.
Proof.
  intros host date h Hnd h'.
  assert (Hin : forall x, In x (completions h')
                          <-> In x (completions h)
                              /\ x <> _normalizeDate host date).
  { intros x. unfold h'. rewrite markIncomplete_completions.
    now apply removeFirst_In. }
  split; [|split; [|apply markIncomplete_set]].
  - unfold isCompletedOn. apply not_true_is_false.
    rewrite includes_string_In, Hin. tauto.
  - intros other Hne. unfold isCompletedOn.
    apply eq_true_iff_eq. rewrite !includes_string_In, Hin. tauto.
Qed.

Lemma markIncomplete_removes_the_day_witness :
  isCompletedOn sundayNoonUTC
    (markIncomplete sundayNoonUTC (DateString "2024-01-06") saturdayHabit)
    (DateString "2024-01-06") = false.
Proof.
  destruct (markIncomplete_removes_the_day sundayNoonUTC
              (DateString "2024-01-06") saturdayHabit) as (H & _).
  - constructor; [intros [E | []]; discriminate|].
    constructor; [intros [] | constructor].
  - exact H.
Defined.

Lemma markIncomplete_not_completed (host : Host) (date : DateArg) (h : Habit) :
  isCompletedOn host h date = false -> markIncomplete host date h = h.
Proof.
  intros Hc. rewrite markIncomplete_set, markIncomplete_completions.
  rewrite removeFirst_absent; [apply set_completions_same|].
  intros Hin. apply includes_string_In in Hin.
  unfold isCompletedOn in Hc. congruence.
Qed.

(** X3. On a habit whose completions are strictly ascending, marking a day
    that is not completed and then unmarking it gives the habit back. *)
Theorem markIncomplete_undoes_markCompleted :
  forall (host : Host) (date : DateArg) (h : Habit),
    StrictlyAscending (completions h) ->
    isCompletedOn host h date = false ->
    markIncomplete host date (markCompleted host date h) = h.
Proof.
  intros host date h Hs Hc.
  set (h1 := markCompleted host date h).
  pose proof (markCompleted_ascending host date h Hs) as Hs1. fold h1 in Hs1.
  assert (E : completions (markIncomplete host date h1) = completions h).
  { apply StrictlyAscending_ext;
      [now apply markIncomplete_ascending | assumption |].
    intros x.
    rewrite markIncomplete_completions,
      (removeFirst_In _ _ _ (StrictlyAscending_NoDup _ Hs1)).
    unfold h1. rewrite markCompleted_In.
    split; [intros [[H | H] Hne]; [assumption | contradiction]|].
    intros Hx. split; [now left|]. intros ->.
    apply includes_string_In in Hx. unfold isCompletedOn in Hc. congruence. }
  rewrite markIncomplete_set, E. unfold h1.
  rewrite markCompleted_set, set_completions_twice.
  apply set_completions_same.
Qed.

Lemma markIncomplete_undoes_markCompleted_witness :
  markIncomplete sundayNoonUTC (DateString "2024-01-07")
    (markCompleted sundayNoonUTC (DateString "2024-01-07") saturdayHabit)
  = saturdayHabit.
Proof.
  apply (markIncomplete_undoes_markCompleted sundayNoonUTC
           (DateString "2024-01-07") saturdayHabit).
  - constructor; [constructor; [constructor | constructor]|].
    constructor; [reflexivity | constructor].
  - reflexivity.
Defined.

(** X4. On a habit whose completions are strictly ascending the order of
    two [markCompleted] calls does not matter. *)
Theorem markCompleted_commutes :
  forall (host : Host) (d1 d2 : DateArg) (h : Habit),
    StrictlyAscending (completions h) ->
    markCompleted host d1 (markCompleted host d2 h)
    = markCompleted host d2 (markCompleted host d1 h).
Proof.
  intros host d1 d2 h Hs.
  rewrite (markCompleted_set host d1), (markCompleted_set host d2 h).
  rewrite (markCompleted_set host d2 (markCompleted host d1 h)),
    (markCompleted_set host d1 h).
  rewrite !set_completions_twice. f_equal.
  rewrite <- !markCompleted_set.
  apply StrictlyAscending_ext.
  - now do 2 apply markCompleted_ascending.
  - now do 2 apply markCompleted_ascending.
  - intros x. rewrite !markCompleted_In. tauto.
Qed.

Lemma markCompleted_commutes_witness :
  markCompleted sundayNoonUTC (DateString "2024-01-07")
    (markCompleted sundayNoonUTC (DateString "2024-01-05") saturdayHabit)
  = markCompleted sundayNoonUTC (DateString "2024-01-05")
      (markCompleted sundayNoonUTC (DateString "2024-01-07") saturdayHabit).
Proof.
  apply (markCompleted_commutes sundayNoonUTC (DateString "2024-01-07")
           (DateString "2024-01-05") saturdayHabit).
  constructor; [constructor; [constructor | constructor]|].
  constructor; [reflexivity | constructor].
Defined.

(* ================================================================== *)
(** * Normalised dates and the notification time *)
(* ================================================================== *)

(** ** Normalised dates *)

Lemma split_head_lacks (sep : ascii) (s : string) :
  lacks sep (nth 0 (split sep s) "").
Proof.
  induction s as [|c r IH]; simpl.
  - intros [].
  - destruct (Ascii.eqb c sep) eqn:E; simpl; [intros []|].
    apply Ascii.eqb_neq in E.
    destruct (split sep r) as [|w ws]; simpl in *.
    + apply lacks_cons. split; [assumption | intros []].
    + apply lacks_cons. split; assumption.
Qed.

(** X5. [_normalizeDate] is idempotent: its result, given back as a
    string, is returned as it is.  A string is cut at its first [T].  Two
    [Date] objects give the same text exactly when they fall on the same
    local day. *)
Theorem normalizeDate_idempotent :
  forall (host : Host),
    (forall date : DateArg,
        _normalizeDate host (DateString (_normalizeDate host date))
        = _normalizeDate host date)
    /\ (forall day rest : string,
           lacks "T" day ->
           _normalizeDate host (DateString (day ++ "T" ++ rest)) = day)
    /\ (forall t1 t2 : Z,
           _normalizeDate host (DateObject t1)
           = _normalizeDate host (DateObject t2)
           <-> Day (LocalTime host t1) = Day (LocalTime host t2)).
Proof.
  intros host. split; [|split].
  - intros [s | t].
    + unfold _normalizeDate at 1. rewrite split_lacks; [reflexivity|].
      apply split_head_lacks.
    + rewrite _normalizeDate_DateObject. apply _normalizeDate_formatDay.
  - intros day rest Hl. unfold _normalizeDate.
    change (day ++ "T" ++ rest) with (day ++ String "T" rest).
    now rewrite split_append.
  - intros t1 t2. rewrite !_normalizeDate_DateObject. split.
    + apply formatDay_inj.
    + now intros ->.
Qed.

Lemma normalizeDate_idempotent_witness :
  _normalizeDate tuesdayNoonWest
    (DateString ("2024-01-09" ++ "T" ++ "17:00:00.000Z")) = "2024-01-09".
Proof.
  destruct (normalizeDate_idempotent tuesdayNoonWest) as (_ & H & _).
  apply H. intros Hin. simpl in Hin. intuition discriminate.
Defined.

(** ** The notification time *)

Lemma twoDigits_shape (v : Z) :
  0 <= v <= 99 ->
  twoDigits v = String (digitChar (v / 10)) (String (digitChar (v mod 10)) "").
Proof.
  intros Hv.
  assert (H : forallb twoDigitsShape (dayRange 0 100) = true)
    by (vm_compute; reflexivity).
  rewrite forallb_forall in H. apply String.eqb_eq, (H v), dayRange_In. lia.
Qed.

Lemma timeText_accepted (hour minute : Z) :
  0 <= hour <= 23 -> 0 <= minute <= 59 ->
  _isValidTimeString (timeText hour minute) = true.
Proof.
  intros Hh Hm.
  assert (H : forallb timeTextAccepted (dayRange 0 1440) = true)
    by (vm_compute; reflexivity).
  rewrite forallb_forall in H.
  specialize (H (hour * 60 + minute)). unfold timeTextAccepted in H.
  replace ((hour * 60 + minute) / 60) with hour in H
    by (Z.div_mod_to_equations; lia).
  replace ((hour * 60 + minute) mod 60) with minute in H
    by (Z.div_mod_to_equations; lia).
  apply H, dayRange_In. lia.
Qed.

Lemma charBetween_spec (lo hi c : ascii) :
  charBetween lo hi c = true ->
  (nat_of_ascii lo <= nat_of_ascii c <= nat_of_ascii hi)%nat.
Proof.
  unfold charBetween. rewrite andb_true_iff, !Nat.leb_le. tauto.
Qed.

Lemma digitChar_of_char (c : ascii) :
  (48 <= nat_of_ascii c)%nat ->
  digitChar (Z.of_nat (nat_of_ascii c) - 48) = c.
Proof.
  intros Hc. unfold digitChar.
  replace (48 + Z.to_nat (Z.of_nat (nat_of_ascii c) - 48))%nat
    with (nat_of_ascii c) by lia.
  apply ascii_nat_embedding.
Qed.

(** A text [_isValidTimeString] accepts is the text of an hour and a
    minute. *)
Lemma isValidTimeString_form :
  forall time : string,
    _isValidTimeString time = true ->
    exists hour minute : Z,
      0 <= hour <= 23 /\ 0 <= minute <= 59 /\ time = timeText hour minute.
Proof.
  intros time.
  pose proof (string_of_list_ascii_of_string time) as Et.
  unfold _isValidTimeString.
  destruct (list_ascii_of_string time)
    as [|h1 [|h2 [|c [|m1 [|m2 [|x r]]]]]]; try discriminate.
  simpl in Et. subst time.
  rewrite !andb_true_iff, orb_true_iff, !andb_true_iff.
  intros [[[Hh Hc] Hm1] Hm2].
  apply Ascii.eqb_eq in Hc. subst c.
  apply charBetween_spec in Hm1, Hm2.
  change (nat_of_ascii "0") with 48%nat in *.
  change (nat_of_ascii "5") with 53%nat in *.
  change (nat_of_ascii "9") with 57%nat in *.
  set (a := Z.of_nat (nat_of_ascii h1) - 48).
  set (b := Z.of_nat (nat_of_ascii h2) - 48).
  set (p := Z.of_nat (nat_of_ascii m1) - 48).
  set (q := Z.of_nat (nat_of_ascii m2) - 48).
  assert (Hab : 0 <= a /\ 0 <= b <= 9 /\ 10 * a + b <= 23
                /\ (48 <= nat_of_ascii h1)%nat /\ (48 <= nat_of_ascii h2)%nat).
  { destruct Hh as [[H1 H2] | [H1 H2]].
    - apply charBetween_spec in H1, H2.
      change (nat_of_ascii "0") with 48%nat in *.
      change (nat_of_ascii "1") with 49%nat in *.
      change (nat_of_ascii "9") with 57%nat in *.
      subst a b. lia.
    - apply Ascii.eqb_eq in H1. subst h1.
      apply charBetween_spec in H2.
      change (nat_of_ascii "0") with 48%nat in *.
      change (nat_of_ascii "3") with 51%nat in *.
      change (nat_of_ascii "2") with 50%nat in *.
      subst a b. lia. }
  destruct Hab as (Ha & Hb & Hhour & Hh1 & Hh2).
  exists (10 * a + b), (10 * p + q).
  split; [lia|]. split; [subst p q; lia|].
  unfold timeText.
  rewrite (twoDigits_shape (10 * a + b)) by lia.
  rewrite (twoDigits_shape (10 * p + q)) by (subst p q; lia).
  replace ((10 * a + b) / 10) with a by (Z.div_mod_to_equations; lia).
  replace ((10 * a + b) mod 10) with b by (Z.div_mod_to_equations; lia).
  replace ((10 * p + q) / 10) with p
    by (subst p q; Z.div_mod_to_equations; lia).
  replace ((10 * p + q) mod 10) with q
    by (subst p q; Z.div_mod_to_equations; lia).
  subst a b p q.
  rewrite !digitChar_of_char by lia. reflexivity.
Qed.

(** X6. [_isValidTimeString] accepts exactly the texts [HH:MM] of an hour
    from 00 to 23 and a minute from 00 to 59, each in two digits. *)
Theorem isValidTimeString_spec :
  forall time : string,
    _isValidTimeString time = true
    <-> exists hour minute : Z,
          0 <= hour <= 23 /\ 0 <= minute <= 59
          /\ time = timeText hour minute.
Proof.
  intros time. split.
  - apply isValidTimeString_form.
  - intros (hour & minute & Hh & Hm & ->). now apply timeText_accepted.
Qed.



(* ================================================================== *)
(** * The current streak, continued *)
(* ================================================================== *)

(** ** The walk of [calculateStreak], day by day *)

Lemma Day_LocalTime_addDays (host : Host) (t k : Z) :
  Day (LocalTime host (addDays t k)) = Day (LocalTime host t) + k.
Proof.
  unfold Day, LocalTime, addDays.
  replace (t + k * msPerDay + LocalTZA host)
    with (t + LocalTZA host + k * msPerDay) by lia.
  apply Z.div_add. unfold msPerDay. lia.
Qed.

Lemma Day_LocalTime_startOfDay (host : Host) (t : Z) :
  Day (LocalTime host (startOfDay host t)) = Day (LocalTime host t).
Proof.
  unfold startOfDay.
  set (d := Day (LocalTime host t)). unfold LocalTime, Day.
  replace (d * msPerDay - LocalTZA host + LocalTZA host)
    with (d * msPerDay) by lia.
  apply Z.div_mul. unfold msPerDay. lia.
Qed.

Lemma isCompletedOn_formatDay (host : Host) (h : Habit) (d : Z) :
  isCompletedOn host h (DateString (formatDay d))
  = includes (completions h) (formatDay d).
Proof. unfold isCompletedOn. now rewrite _normalizeDate_formatDay. Qed.

Lemma isCompletedOn_normalized (host : Host) (h : Habit) (date : DateArg) :
  isCompletedOn host h date
  = includes (completions h) (_normalizeDate host date).
Proof. reflexivity. Qed.

Lemma isActiveOnDay_day (host : Host) (h : Habit) (t : Z) :
  isActiveOnDay host h (DayDate t)
  = isActiveOnDay host h (DayNumber (weekDayOfDay (Day (LocalTime host t)))).
Proof. reflexivity. Qed.

Lemma isActiveOnDay_DayNumber_same (host1 host2 : Host) (h1 h2 : Habit) (n : Z) :
  daysOfWeek h1 = daysOfWeek h2 ->
  isActiveOnDay host1 h1 (DayNumber n) = isActiveOnDay host2 h2 (DayNumber n).
Proof. unfold isActiveOnDay. now intros ->. Qed.

Section WalkSimulation.
Variables host1 host2 : Host.
Variables h1 h2 : Habit.
Variable bound : Z.
Hypothesis same_schedule : daysOfWeek h1 = daysOfWeek h2.
Hypothesis same_completions_below :
  forall d : Z, d <= bound ->
    includes (completions h1) (formatDay d)
    = includes (completions h2) (formatDay d).

Lemma streakStep_sameWalk (k : Z) (w1 w2 : Walk) :
  Day (LocalTime host1 (currentDate w1)) <= bound ->
  sameWalk host1 host2 k w1 w2 ->
  match streakStep host1 h1 w1, streakStep host2 h2 w2 with
  | Some a, Some b => sameWalk host1 host2 k a b
  | None, None => True
  | _, _ => False
  end.
Proof.
  intros Hb (Hd & Hs & Hc & Hn). unfold streakStep.
  rewrite !_normalizeDate_DateObject, !isCompletedOn_formatDay,
    !isActiveOnDay_day.
  rewrite <- Hd, Hc, <- (same_completions_below _ Hb).
  rewrite (isActiveOnDay_DayNumber_same host2 host1 h2 h1)
    by (symmetry; exact same_schedule).
  destruct (isActiveOnDay host1 h1 _);
    [destruct (includes (completions h1) _); [|destruct (checkingToday w1)]|];
    try exact I;
    unfold sameWalk; cbn [currentDate streak checkingToday daysChecked];
    rewrite !Day_LocalTime_addDays; repeat split; lia.
Qed.

Lemma streakLoop_sameWalk (fuel : nat) (k : Z) (w1 w2 : Walk) :
  Day (LocalTime host1 (currentDate w1)) <= bound ->
  sameWalk host1 host2 k w1 w2 ->
  sameWalk host1 host2 k (streakLoop host1 fuel h1 w1)
    (streakLoop host2 fuel h2 w2).
Proof.
  revert w1 w2. induction fuel as [|fuel IH]; intros w1 w2 Hb R; [exact R|].
  simpl. pose proof R as (_ & _ & _ & Hn). rewrite Hn.
  destruct (daysChecked w1 <? 365); [|exact R].
  pose proof (streakStep_sameWalk k w1 w2 Hb R) as S.
  destruct (streakStep host1 h1 w1) as [a|] eqn:Ea,
           (streakStep host2 h2 w2) as [b|]; simpl in S;
    try contradiction.
  2: exact R.
  apply IH; [|exact S].
  apply streakStep_next in Ea. destruct Ea as (_ & Ec & _).
  rewrite Ec, Day_LocalTime_addDays. lia.
Qed.
End WalkSimulation.

Lemma sameWalk_start (host1 host2 : Host) :
  Day (LocalTime host1 (now host1)) = Day (LocalTime host2 (now host2)) ->
  sameWalk host1 host2 0 (streakStart host1) (streakStart host2).
Proof.
  intros E. unfold sameWalk, streakStart.
  cbn [currentDate streak checkingToday daysChecked].
  rewrite !Day_LocalTime_startOfDay. split; [exact E|]. repeat split.
Qed.

(** X8. The current streak depends on the clock and the zone through the
    local calendar day only: on two hosts whose local day is the same,
    [calculateStreak] gives the same number for a habit. *)
Theorem calculateStreak_same_local_day :
  forall (host1 host2 : Host) (h : Habit),
    Day (LocalTime host1 (now host1)) = Day (LocalTime host2 (now host2)) ->
    calculateStreak host1 h = calculateStreak host2 h.
Proof.
  intros host1 host2 h E. unfold calculateStreak, streakWalk.
  destruct (List.length (completions h) =? 0)%nat; [reflexivity|].
  pose proof (streakLoop_sameWalk host1 host2 h h
                (Day (LocalTime host1 (currentDate (streakStart host1))))
                eq_refl (fun _ _ => eq_refl) 365 0
                (streakStart host1) (streakStart host2)
                (Z.le_refl _) (sameWalk_start host1 host2 E)) as (_ & Hs & _).
  lia.
Qed.

Lemma calculateStreak_same_local_day_witness :
  calculateStreak sundayNoonUTC mwfHabit
  = calculateStreak sundayEveningEast mwfHabit.
Proof.
  apply (calculateStreak_same_local_day sundayNoonUTC sundayEveningEast mwfHabit).
  vm_compute. reflexivity.
Defined.

(** ** The early return of [calculateStreak] *)

Lemma streakLoop_no_completions (host : Host) (h : Habit) (fuel : nat)
    (w : Walk) :
  completions h = [] -> streak (streakLoop host fuel h w) = streak w.
Proof.
  intros E. revert w. induction fuel as [|fuel IH]; intros w; [reflexivity|].
  simpl. destruct (daysChecked w <? 365); [|reflexivity].
  unfold streakStep, isCompletedOn. rewrite E. simpl includes.
  destruct (isActiveOnDay host h _); [destruct (checkingToday w)|];
    try reflexivity; now rewrite IH.
Qed.

(** Without the early return the loop gives the same number. *)
Lemma calculateStreak_walk (host : Host) (h : Habit) :
  calculateStreak host h = streak (streakWalk host h).
Proof.
  unfold calculateStreak.
  destruct (List.length (completions h) =? 0)%nat eqn:E; [|reflexivity].
  apply Nat.eqb_eq, length_zero_iff_nil in E.
  unfold streakWalk. now rewrite streakLoop_no_completions.
Qed.

(** ** Marking today and the current streak *)

Lemma includes_string_iff (l1 l2 : list string) (x : string) :
  (In x l1 <-> In x l2) -> includes l1 x = includes l2 x.
Proof.
  intros H.
  destruct (includes l1 x) eqn:E1, (includes l2 x) eqn:E2; try reflexivity.
  - apply includes_string_In, H, includes_string_In in E1. congruence.
  - apply includes_string_In, H, includes_string_In in E2. congruence.
Qed.

Lemma streakLoop_S (host : Host) (fuel : nat) (h : Habit) (w : Walk) :
  streakLoop host (S fuel) h w
  = if daysChecked w <? 365 then
      match streakStep host h w with
      | Some w' => streakLoop host fuel h w'
      | None => w
      end
    else w.
Proof. reflexivity. Qed.

Lemma markCompleted_daysOfWeek (host : Host) (date : DateArg) (h : Habit) :
  daysOfWeek (markCompleted host date h) = daysOfWeek h.
Proof. rewrite markCompleted_set. reflexivity. Qed.

(** Two habits with the same schedule whose completions agree on every
    day before today, the second one completed today and the first one
    not: the streak of the second is one more when today is scheduled, and
    the same otherwise. *)
Lemma streak_gains_today (host : Host) (h h' : Habit) :
  let T := Day (LocalTime host (now host)) in
  daysOfWeek h = daysOfWeek h' ->
  (forall d : Z, d <= T - 1 ->
     includes (completions h) (formatDay d)
     = includes (completions h') (formatDay d)) ->
  includes (completions h) (formatDay T) = false ->
  includes (completions h') (formatDay T) = true ->
  calculateStreak host h'
  = calculateStreak host h
    + (if isActiveOnDay host h (DayDate (now host)) then 1 else 0).
Proof.
  intros T Hsched Hbelow Hnot Htoday.
  rewrite !calculateStreak_walk. unfold streakWalk.
  change 365%nat with (S 364). rewrite !streakLoop_S.
  change (daysChecked (streakStart host) <? 365) with true. cbv iota.
  unfold streakStep.
  rewrite !_normalizeDate_DateObject, !isCompletedOn_formatDay,
    !isActiveOnDay_day.
  change (currentDate (streakStart host)) with (startOfDay host (now host)).
  rewrite Day_LocalTime_startOfDay. fold T.
  rewrite (isActiveOnDay_DayNumber_same host host h' h) by (now symmetry).
  rewrite Htoday, Hnot.
  change (checkingToday (streakStart host)) with true.
  change (streak (streakStart host)) with 0.
  change (daysChecked (streakStart host)) with 0.
  destruct (isActiveOnDay host h (DayNumber (weekDayOfDay T))).
  - match goal with
    | |- streak (streakLoop _ _ _ ?b) = streak (streakLoop _ _ _ ?a) + 1 =>
        pose proof (streakLoop_sameWalk host host h h' (T - 1) Hsched Hbelow
                      364 1 a b) as S
    end.
    cbn [currentDate] in S. rewrite Day_LocalTime_addDays in S.
    rewrite Day_LocalTime_startOfDay in S. fold T in S.
    destruct S as (_ & S & _); [lia | repeat split | exact S].
  - match goal with
    | |- streak (streakLoop _ _ _ ?b) = streak (streakLoop _ _ _ ?a) + 0 =>
        pose proof (streakLoop_sameWalk host host h h' (T - 1) Hsched Hbelow
                      364 0 a b) as S
    end.
    cbn [currentDate] in S. rewrite Day_LocalTime_addDays in S.
    rewrite Day_LocalTime_startOfDay in S. fold T in S.
    destruct S as (_ & S & _); [lia | repeat split | exact S].
Qed.

Lemma markIncomplete_daysOfWeek (host : Host) (date : DateArg) (h : Habit) :
  daysOfWeek (markIncomplete host date h) = daysOfWeek h.
Proof. rewrite markIncomplete_set. reflexivity. Qed.

(** X9. Marking today completed raises the current streak by exactly one
    when today is scheduled and was not completed yet, and leaves it as it
    is otherwise.  Today is the local day; [date] is any argument that names
    it. *)
Theorem markCompleted_today_streak :
  forall (host : Host) (date : DateArg) (h : Habit),
    _normalizeDate host date = _normalizeDate host (DateObject (now host)) ->
    calculateStreak host (markCompleted host date h)
    = calculateStreak host h
      + (if (isActiveOnDay host h (DayDate (now host))
             && negb (isCompletedOn host h date))%bool
         then 1 else 0).
Proof.
  intros host date h Hd.
  destruct (isCompletedOn host h date) eqn:Hc.
  { rewrite markCompleted_completed by assumption.
    rewrite andb_false_r. lia. }
  rewrite andb_true_r.
  rewrite _normalizeDate_DateObject in Hd.
  apply streak_gains_today.
  - symmetry. apply markCompleted_daysOfWeek.
  - intros d Hle. apply includes_string_iff.
    rewrite markCompleted_In, Hd. split; [now left|].
    intros [H | H]; [assumption|]. apply formatDay_inj in H. lia.
  - rewrite <- Hd. exact Hc.
  - apply includes_string_In. rewrite markCompleted_In, Hd. now right.
Qed.

Lemma markCompleted_today_streak_witness :
  calculateStreak sundayNoonUTC
    (markCompleted sundayNoonUTC (DateString "2024-01-07")
       (dailyHabit ["2024-01-05"; "2024-01-06"]))
  = calculateStreak sundayNoonUTC (dailyHabit ["2024-01-05"; "2024-01-06"])
    + (if (isActiveOnDay sundayNoonUTC
             (dailyHabit ["2024-01-05"; "2024-01-06"])
             (DayDate (now sundayNoonUTC))
           && negb (isCompletedOn sundayNoonUTC
                      (dailyHabit ["2024-01-05"; "2024-01-06"])
                      (DateString "2024-01-07")))%bool
       then 1 else 0).
Proof.
  apply (markCompleted_today_streak sundayNoonUTC (DateString "2024-01-07")
           (dailyHabit ["2024-01-05"; "2024-01-06"])).
  vm_compute. reflexivity.
Defined.

(** X10. Marking today incomplete lowers the current streak by exactly
    one when today is scheduled and was completed, and leaves it as it is
    otherwise, for completions without repetition. *)
Theorem markIncomplete_today_streak :
  forall (host : Host) (date : DateArg) (h : Habit),
    NoDup (completions h) ->
    _normalizeDate host date = _normalizeDate host (DateObject (now host)) ->
    calculateStreak host (markIncomplete host date h)
    = calculateStreak host h
      - (if (isActiveOnDay host h (DayDate (now host))
             && isCompletedOn host h date)%bool
         then 1 else 0).
Proof.
  intros host date h Hnd Hd.
  destruct (isCompletedOn host h date) eqn:Hc.
  2: { rewrite markIncomplete_not_completed by assumption.
       rewrite andb_false_r. lia. }
  rewrite andb_true_r.
  rewrite _normalizeDate_DateObject in Hd.
  assert (Hin : forall x, In x (completions (markIncomplete host date h))
                          <-> In x (completions h) /\ x <> _normalizeDate host date).
  { intros x. rewrite markIncomplete_completions. now apply removeFirst_In. }
  pose proof (streak_gains_today host (markIncomplete host date h) h) as G.
  cbv zeta in G.
  rewrite (isActiveOnDay_day host (markIncomplete host date h)) in G.
  rewrite (isActiveOnDay_DayNumber_same host host
             (markIncomplete host date h) h) in G
    by apply markIncomplete_daysOfWeek.
  rewrite <- isActiveOnDay_day in G. rewrite G; [lia| | | |].
  - apply markIncomplete_daysOfWeek.
  - intros d Hle. apply includes_string_iff. rewrite Hin, Hd.
    split; [tauto|]. intros H. split; [assumption|].
    intros E. apply formatDay_inj in E. lia.
  - destruct (includes _ _) eqn:E; [|reflexivity].
    apply includes_string_In, Hin in E. rewrite Hd in E. tauto.
  - rewrite <- Hd. exact Hc.
Qed.

Lemma markIncomplete_today_streak_witness :
  calculateStreak sundayNoonUTC
    (markIncomplete sundayNoonUTC (DateString "2024-01-07")
       (dailyHabit ["2024-01-06"; "2024-01-07"]))
  = calculateStreak sundayNoonUTC (dailyHabit ["2024-01-06"; "2024-01-07"])
    - (if (isActiveOnDay sundayNoonUTC
             (dailyHabit ["2024-01-06"; "2024-01-07"])
             (DayDate (now sundayNoonUTC))
           && isCompletedOn sundayNoonUTC
                (dailyHabit ["2024-01-06"; "2024-01-07"])
                (DateString "2024-01-07"))%bool
       then 1 else 0).
Proof.
  apply (markIncomplete_today_streak sundayNoonUTC (DateString "2024-01-07")
           (dailyHabit ["2024-01-06"; "2024-01-07"])).
  - repeat (constructor; [simpl; intuition discriminate|]). constructor.
  - vm_compute. reflexivity.
Defined.

(** ** The current streak and the number of completions *)

Lemma NoDup_map_injective {A B} (f : A -> B) (l : list A) :
  (forall a b, f a = f b -> a = b) -> NoDup l -> NoDup (map f l).
Proof.
  intros Hf. induction 1 as [|x l Hx Hnd IH]; simpl; constructor;
    [|assumption].
  intros Hin. apply in_map_iff in Hin. destruct Hin as (y & E & Hy).
  apply Hf in E. now subst.
Qed.

(** ** The days the walk counts *)

Section CountedRun.
Variable host : Host.
Variable h : Habit.
Variable today : Z.

Lemma streakStep_countedRun (w w' : Walk) (ds : list Z) (top : Z) :
  countedRun host h today w ds top -> streakStep host h w = Some w' ->
  exists ds' top', countedRun host h today w' ds' top'.
Proof.
  unfold countedRun.
  intros (HD & Hn & Hnd & Hlen & Hin & Hall & Htop & Hflag & Hempty).
  unfold streakStep.
  rewrite _normalizeDate_DateObject, isCompletedOn_formatDay,
    isActiveOnDay_day.
  set (D := Day (LocalTime host (currentDate w))) in *.
  destruct (isActiveOnDay host h (DayNumber (weekDayOfDay D))) eqn:Ea.
  - destruct (includes (completions h) (formatDay D)) eqn:Ec.
    + intros E. inversion E; subst w'. clear E.
      exists (D :: ds), top.
      cbn [currentDate streak checkingToday daysChecked].
      rewrite Day_LocalTime_addDays. fold D.
      split; [lia|]. split; [lia|]. split.
      { constructor; [|assumption]. intros H. destruct (Hin D H). lia. }
      split; [cbn [List.length]; lia|]. split.
      { intros d [<- | Hd].
        - split; [lia | now apply includes_string_In].
        - destruct (Hin d Hd). split; [lia | assumption]. }
      split.
      { intros d Hd Hs. destruct (Z.eq_dec d D) as [->|Hne]; [now left|].
        right. apply Hall; [lia | assumption]. }
      split; [lia|]. split; discriminate.
    + destruct (checkingToday w) eqn:Ef; [|discriminate].
      intros E. inversion E; subst w'. clear E.
      specialize (Hflag eq_refl). subst ds. specialize (Hempty eq_refl).
      exists [], (D - 1).
      cbn [currentDate streak checkingToday daysChecked].
      rewrite Day_LocalTime_addDays. fold D.
      split; [lia|]. split; [lia|]. split; [constructor|].
      split; [exact Hlen|]. split; [intros d []|].
      split; [intros d Hd; lia|]. split; [lia|]. split; [reflexivity|].
      intros _. lia.
  - intros E. inversion E; subst w'. clear E.
    exists ds, (match ds with [] => D - 1 | _ => top end).
    cbn [currentDate streak checkingToday daysChecked].
    rewrite Day_LocalTime_addDays. fold D.
    split; [lia|]. split; [lia|]. split; [assumption|].
    split; [assumption|].
    destruct ds as [|d0 ds0].
    + split; [intros d []|]. split; [intros d Hd; lia|].
      specialize (Hempty eq_refl).
      split; [lia|]. split; [reflexivity|]. intros _. lia.
    + split.
      { intros d Hd. destruct (Hin d Hd). split; [lia | assumption]. }
      split.
      { intros d Hd Hs. destruct (Z.eq_dec d D) as [->|Hne];
          [congruence|]. apply Hall; [lia | assumption]. }
      split; [lia|]. split; [assumption | discriminate].
Qed.

Lemma streakLoop_countedRun (fuel : nat) (w : Walk) (ds : list Z) (top : Z) :
  countedRun host h today w ds top ->
  exists ds' top', countedRun host h today (streakLoop host fuel h w) ds' top'.
Proof.
  revert w ds top. induction fuel as [|fuel IH]; intros w ds top Hc;
    [now exists ds, top|].
  simpl. destruct (daysChecked w <? 365); [|now exists ds, top].
  destruct (streakStep host h w) as [w'|] eqn:E; [|now exists ds, top].
  destruct (streakStep_countedRun w w' ds top Hc E) as (ds' & top' & Hc').
  exact (IH w' ds' top' Hc').
Qed.
End CountedRun.

Lemma countedRun_start (host : Host) (h : Habit) :
  countedRun host h (Day (LocalTime host (now host))) (streakStart host) []
    (Day (LocalTime host (now host))).
Proof.
  unfold countedRun, streakStart.
  cbn [currentDate streak checkingToday daysChecked].
  rewrite Day_LocalTime_startOfDay.
  split; [lia|]. split; [lia|]. split; [constructor|].
  split; [reflexivity|]. split; [intros d []|].
  split; [intros d Hd; lia|]. split; [lia|]. split; reflexivity.
Qed.

Lemma calculateStreak_le_completions (host : Host) (h : Habit) :
  calculateStreak host h <= Z.of_nat (List.length (completions h)).
Proof.
  rewrite calculateStreak_walk. unfold streakWalk.
  destruct (streakLoop_countedRun host h (Day (LocalTime host (now host)))
              365 (streakStart host) [] (Day (LocalTime host (now host)))
              (countedRun_start host h)) as (ds & top & Hrun).
  unfold countedRun in Hrun.
  destruct Hrun as (_ & _ & Hnd & Hlen & Hin & _).
  rewrite <- Hlen. apply inj_le.
  rewrite <- (length_map formatDay ds). apply NoDup_incl_length.
  - apply NoDup_map_injective; [apply formatDay_inj | assumption].
  - intros s Hs. apply in_map_iff in Hs. destruct Hs as (d & <- & Hd).
    now destruct (Hin d Hd).
Qed.

(** ** The bounds of the two streaks *)

Lemma longestLoop_bounds (host : Host) (h : Habit) (prev : option string)
    (rest : list string) (longest temp : Z) :
  0 <= longest -> 0 <= temp ->
  let '(l, t) := longestLoop host h prev rest longest temp in
  0 <= l /\ 0 <= t
  /\ (rest <> [] -> 1 <= t)
  /\ Z.max l t <= Z.max longest (temp + Z.of_nat (List.length rest)).
Proof.
  revert prev longest temp.
  induction rest as [|curr rest IH]; intros prev longest temp Hl Ht.
  - simpl. repeat split; try lia. intros H. now contradiction H.
  - cbn [longestLoop].
    assert (Hstep : forall prev' longest' temp',
               0 <= longest' -> 1 <= temp' ->
               Z.max longest' (temp' + Z.of_nat (List.length rest))
               <= Z.max longest
                    (temp + Z.of_nat (List.length (curr :: rest))) ->
               let '(l, t) := longestLoop host h prev' rest longest' temp' in
               0 <= l /\ 0 <= t /\ (curr :: rest <> [] -> 1 <= t)
               /\ Z.max l t
                  <= Z.max longest
                       (temp + Z.of_nat (List.length (curr :: rest)))).
    { intros prev' longest' temp' Hl' Ht' Hle.
      assert (Ht0 : 0 <= temp') by lia.
      specialize (IH prev' longest' temp' Hl' Ht0).
      destruct rest as [|x rest'].
      - cbn [longestLoop]. cbn [List.length] in *.
        repeat split; lia.
      - destruct (longestLoop host h prev' (x :: rest') longest' temp')
          as [l t].
        destruct IH as (H1 & H2 & H3 & H4).
        repeat split; try lia.
        intros _. apply H3. discriminate. }
    cbn [List.length] in *. rewrite Nat2Z.inj_succ in *.
    destruct prev as [p|].
    + destruct (allScheduledDaysCompleted host h p curr);
        apply Hstep; lia.
    + apply Hstep; lia.
Qed.

Lemma computeLongestStreak_bounds (host : Host) (h : Habit) :
  0 <= computeLongestStreak host h <= Z.of_nat (List.length (completions h))
  /\ (completions h <> [] -> 1 <= computeLongestStreak host h).
Proof.
  unfold computeLongestStreak.
  pose proof (longestLoop_bounds host h None
                (StringSort.sort (completions h)) 0 0
                (Z.le_refl 0) (Z.le_refl 0)) as H.
  pose proof (Permutation_length (StringSort.Permuted_sort (completions h)))
    as Hlen.
  destruct (longestLoop host h None (StringSort.sort (completions h)) 0 0)
    as [l t].
  destruct H as (H1 & H2 & H3 & H4). rewrite <- Hlen in H4.
  split; [lia|]. intros Hne.
  assert (1 <= t); [|lia]. apply H3. intros E.
  apply Hne. apply length_zero_iff_nil. rewrite Hlen, E. reflexivity.
Qed.

(** X11. In the statistics of a habit both streaks lie between 0 and the
    number of completions, and the longest streak is at least 1 as soon as
    there is a completion. *)
Theorem statistics_streaks_bounded :
  forall (host : Host) (h : Habit),
    let s := getStatistics host h in
    0 <= currentStreak s <= totalCompletions s
    /\ 0 <= longestStreak s <= totalCompletions s
    /\ (completions h <> [] -> 1 <= longestStreak s).
Proof.
  intros host h s. unfold s.
  rewrite getStatistics_currentStreak, getStatistics_longestStreak,
    getStatistics_totalCompletions.
  pose proof (computeLongestStreak_bounds host h) as [Hl Hone].
  pose proof (calculateStreak_le_completions host h) as Hc.
  pose proof (streakLoop_bounds host h 365 (streakStart host)) as Hb.
  cbv zeta in Hb. fold (streakWalk host h) in Hb.
  rewrite <- calculateStreak_walk in Hb.
  change (streak (streakStart host)) with 0 in Hb.
  repeat split; try lia. exact Hone.
Qed.

Lemma statistics_streaks_bounded_witness :
  1 <= longestStreak (getStatistics sundayNoonUTC mwfHabit).
Proof.
  destruct (statistics_streaks_bounded sundayNoonUTC mwfHabit)
    as (_ & _ & H).
  apply H. discriminate.
Defined.

(* ================================================================== *)
(** * The statistics, continued *)
(* ================================================================== *)

(** ** Days since creation *)

Lemma Day_mul (d : Z) : Day (d * msPerDay) = d.
Proof. unfold Day. apply Z.div_mul. unfold msPerDay. lia. Qed.

Lemma toISODate_dayString (t : Z) : toISODate t = dayString (Day t).
Proof. unfold dayString, toISODate. now rewrite Day_mul. Qed.

(** X12. A habit built by the constructor without a creation date, looked
    at later (or at once) in any zone: [daysSinceCreation] is the number of
    UTC days from the creation to now, both counted, so 1 on the UTC day of
    the creation; without day restriction [scheduledDaysPassed] is the same
    number. *)
Theorem daysSinceCreation_of_new_habit :
  forall (created later : Host) (random name : string)
         (completions : option (list string))
         (notificationTime : option string) (daysOfWeek : option (list Z))
         (notes : option string) (tags : option (list string)),
    0 <= yearOfDay (Day (now created)) <= 9999 ->
    let h := new_Habit created random name None completions notificationTime
               daysOfWeek notes tags in
    let stats := getStatistics later h in
    daysSinceCreation stats = Some (Day (now later) - Day (now created) + 1)
    /\ (hasDayRestriction h = false ->
        scheduledDaysPassed stats
        = Some (Day (now later) - Day (now created) + 1)).
Proof.
  intros created later random name completions notificationTime daysOfWeek
    notes tags Hy h stats.
  assert (Hp : Date_parse (createdDate h)
               = Some (Day (now created) * msPerDay)).
  { unfold h, new_Habit. cbn [createdDate orString].
    rewrite toISODate_dayString. now apply Date_parse_dayString_year. }
  assert (Hd : daysSinceCreation stats
               = Some (Day (now later) - Day (now created) + 1)).
  { unfold stats. rewrite getStatistics_daysSinceCreation.
    now apply computeDaysSinceCreation_day. }
  split; [exact Hd|]. intros Hr. rewrite <- Hd. unfold stats.
  rewrite getStatistics_scheduledDaysPassed, getStatistics_daysSinceCreation.
  unfold computeScheduledDaysPassed. now rewrite Hr.
Qed.

Lemma daysSinceCreation_of_new_habit_witness :
  daysSinceCreation
    (getStatistics tuesdayNoonWest
       (new_Habit sundayNoonUTC "k3x9q2m1z" "Gym" None None None (Some [1])
          None None))
  = Some (Day (now tuesdayNoonWest) - Day (now sundayNoonUTC) + 1).
Proof.
  apply (daysSinceCreation_of_new_habit sundayNoonUTC tuesdayNoonWest
           "k3x9q2m1z" "Gym" None None (Some [1]) None None).
  vm_compute. split; discriminate.
Defined.

(** ** Scheduled days west of UTC *)

Lemma filter_dayRange_shift (f : Z -> bool) (c : Z) (n : nat) :
  List.length (filter (fun d => f (d - 1)) (dayRange c n))
  = List.length (filter f (dayRange (c - 1) n)).
Proof.
  revert c. induction n as [|n IH]; intros c; [reflexivity|].
  simpl. replace (c - 1 + 1) with (c + 1 - 1) by lia.
  destruct (f (c - 1)); simpl; now rewrite IH.
Qed.

(** X13. In a zone with one fixed offset west of UTC, with a day
    restriction, [scheduledDaysPassed] is the number of scheduled days from
    the day before the creation day through the day before the UTC day of
    now: the loop starts at the UTC midnight of the creation day, which is
    the evening before in local time, and at a fixed offset each step of
    [setDate] is 24 hours. *)
Theorem scheduledDaysPassed_west_of_utc :
  forall (host : Host) (h : Habit) (c : Z),
    - msPerDay <= LocalTZA host < 0 ->
    hasDayRestriction h = true ->
    Date_parse (createdDate h) = Some (c * msPerDay) ->
    scheduledDaysPassed (getStatistics host h)
    = Some (Z.of_nat (List.length
              (scheduledDays host h (c - 1) (Day (now host) - 1)))).
Proof.
  intros host h c Hz Hr Hp.
  rewrite getStatistics_scheduledDaysPassed.
  unfold computeScheduledDaysPassed, scheduledDays.
  rewrite Hr, Hp, daysBetween_created.
  rewrite (countLoop_days host h 1) by
    (first [ intros d; now apply getDay_utc_midnight_west | lia ]).
  rewrite (filter_dayRange_shift
             (fun d => isActiveOnDay host h (DayNumber (weekDayOfDay d)))).
  replace (Day (now host) - 1 - (c - 1) + 1) with (Day (now host) - c + 1)
    by lia.
  reflexivity.
Qed.

Lemma scheduledDaysPassed_west_of_utc_witness :
  scheduledDaysPassed (getStatistics tuesdayNoonWest mwfHabit)
  = Some (Z.of_nat (List.length
            (scheduledDays tuesdayNoonWest mwfHabit (19723 - 1)
               (Day (now tuesdayNoonWest) - 1)))).
Proof.
  apply (scheduledDaysPassed_west_of_utc tuesdayNoonWest mwfHabit 19723).
  - vm_compute. split; [discriminate | reflexivity].
  - reflexivity.
  - vm_compute. reflexivity.
Defined.

(** ** A [Date] and its text name the same weekday *)

Lemma daysFromCivil_day (y m d : Z) :
  daysFromCivil y m 1 + d - 1 = daysFromCivil y m d.
Proof. unfold daysFromCivil. lia. Qed.

Lemma split_formatDay (d : Z) :
  0 <= yearOfDay d ->
  split "-" (formatDay d)
  = let '(y, m, dd) := civilFromDays d in
    [toString y; twoDigits m; twoDigits dd].
Proof.
  unfold yearOfDay, formatDay.
  pose proof (civilFromDays_spec d) as S.
  destruct (civilFromDays d) as [[y m] dd]. simpl fst. intros Hy.
  destruct S as (_ & Hm & Hd).
  pose proof (daysInMonth_le_31 y m) as H31.
  change (toString y ++ "-" ++ twoDigits m ++ "-" ++ twoDigits dd)
    with (toString y ++ String "-" (twoDigits m ++ String "-" (twoDigits dd))).
  rewrite split_append
    by (apply digitsOnly_lacks; [reflexivity | now apply toString_digits]).
  rewrite split_append
    by (apply digitsOnly_lacks; [reflexivity | apply twoDigits_digits; lia]).
  rewrite split_lacks
    by (apply digitsOnly_lacks; [reflexivity | apply twoDigits_digits; lia]).
  reflexivity.
Qed.

Lemma daysFromCivil_bounds (y m d : Z) :
  1000 <= y <= 9999 -> 1 <= m <= 12 -> 1 <= d <= 31 ->
  -400000 <= daysFromCivil y m d <= 3000000.
Proof.
  intros Hy Hm Hd. unfold daysFromCivil.
  destruct (m <=? 2) eqn:E1, (2 <? m) eqn:E2;
    try apply Z.leb_le in E1; try apply Z.leb_gt in E1;
    try apply Z.ltb_lt in E2; try apply Z.ltb_ge in E2;
    Z.div_mod_to_equations; lia.
Qed.

(** X14. [isActiveOnDay] gives the same answer for a [Date] object and for
    the text [_normalizeDate] writes for it: the text is parsed back to the
    local midnight of the same local day.  This holds for local years 1000
    to 9999 in a zone no more than a day off UTC. *)
Theorem isActiveOnDay_date_and_text :
  forall (host : Host) (h : Habit) (t : Z),
    1000 <= getFullYear host t <= 9999 ->
    - msPerDay <= LocalTZA host <= msPerDay ->
    dayOfWeekOf host (DayString (_normalizeDate host (DateObject t)))
    = Some (getDay host t)
    /\ isActiveOnDay host h (DayString (_normalizeDate host (DateObject t)))
       = isActiveOnDay host h (DayDate t).
Proof.
  intros host h t Hy Hz.
  assert (Hw : dayOfWeekOf host
                 (DayString (_normalizeDate host (DateObject t)))
               = Some (getDay host t)).
  { rewrite _normalizeDate_DateObject. unfold dayOfWeekOf.
    set (D := Day (LocalTime host t)).
    unfold getFullYear in Hy. fold D in Hy.
    rewrite split_formatDay by (unfold yearOfDay; lia).
    pose proof (civilFromDays_spec D) as S.
    destruct (civilFromDays D) as [[y m] dd]. simpl fst in Hy.
    destruct S as (Hrt & Hm & Hd).
    pose proof (daysInMonth_le_31 y m) as H31.
    unfold parseIntAt. cbn [nth_error].
    pose proof (yearText_checked y Hy) as Hyt. unfold yearTextChecked in Hyt.
    apply andb_true_iff in Hyt. destruct Hyt as [_ Hyt].
    destruct (parseInt (toString y)) as [y'|]; [|discriminate].
    apply Z.eqb_eq in Hyt. subst y'.
    rewrite !twoDigits_parseInt by lia. cbn [option_map].
    unfold Date_ymd.
    replace ((0 <=? y) && (y <=? 99))%bool with false
      by (symmetry; apply andb_false_iff; right; apply Z.leb_gt; lia).
    replace ((m - 1) / 12) with 0 by (Z.div_mod_to_equations; lia).
    replace ((m - 1) mod 12 + 1) with m by (Z.div_mod_to_equations; lia).
    rewrite Z.add_0_r, daysFromCivil_day, Hrt.
    pose proof (daysFromCivil_bounds y m dd Hy Hm ltac:(lia)) as Hb.
    rewrite Hrt in Hb.
    replace (Z.abs (D * msPerDay - LocalTZA host) <=? 8640000000000000)
      with true
      by (symmetry; apply Z.leb_le; unfold msPerDay in *; lia).
    cbn [option_map]. f_equal. unfold getDay, WeekDay. f_equal. f_equal.
    unfold LocalTime.
    replace (D * msPerDay - LocalTZA host + LocalTZA host)
      with (D * msPerDay) by lia.
    apply Day_mul. }
  split; [exact Hw|]. unfold isActiveOnDay. rewrite Hw. reflexivity.
Qed.

Lemma isActiveOnDay_date_and_text_witness :
  isActiveOnDay tuesdayNoonWest mwfHabit
    (DayString (_normalizeDate tuesdayNoonWest
                  (DateObject (now tuesdayNoonWest))))
  = isActiveOnDay tuesdayNoonWest mwfHabit (DayDate (now tuesdayNoonWest)).
Proof.
  apply (isActiveOnDay_date_and_text tuesdayNoonWest mwfHabit
           (now tuesdayNoonWest)).
  - vm_compute. split; discriminate.
  - vm_compute. split; discriminate.
Defined.

(* ================================================================== *)
(** * Notifications *)
(* ================================================================== *)

(** ** The notification time of a habit *)

Lemma split_timeText (hour minute : Z) :
  0 <= hour -> 0 <= minute ->
  split ":" (timeText hour minute) = [twoDigits hour; twoDigits minute].
Proof.
  intros Hh Hm. unfold timeText.
  change (twoDigits hour ++ ":" ++ twoDigits minute)
    with (twoDigits hour ++ String ":" (twoDigits minute)).
  rewrite split_append
    by (apply digitsOnly_lacks; [reflexivity | now apply twoDigits_digits]).
  rewrite split_lacks
    by (apply digitsOnly_lacks; [reflexivity | now apply twoDigits_digits]).
  reflexivity.
Qed.

Lemma timePart_timeText (hour minute : Z) :
  0 <= hour <= 23 -> 0 <= minute <= 59 ->
  timePart (timeText hour minute) 0 = Some hour
  /\ timePart (timeText hour minute) 1 = Some minute.
Proof.
  intros Hh Hm. unfold timePart.
  rewrite split_timeText by lia. cbn [map nth_error].
  rewrite !twoDigits_Number by lia. split; reflexivity.
Qed.

Lemma timeText_nonempty (hour minute : Z) :
  (timeText hour minute =? "")%string = false.
Proof.
  apply String.eqb_neq. intros E.
  apply (f_equal String.length) in E. unfold timeText in E.
  rewrite !append_length in E. simpl in E. lia.
Qed.

Lemma clockTime_range (hour minute : Z) :
  0 <= hour <= 23 -> 0 <= minute <= 59 ->
  0 <= clockTime hour minute <= msPerDay - msPerMinute.
Proof. unfold clockTime, msPerHour, msPerMinute, msPerDay. lia. Qed.

Section NextNotification.
Variable host : Host.

Lemma timeOfDay_Day (t : Z) :
  LocalTime host t = Day (LocalTime host t) * msPerDay + timeOfDay host t
  /\ 0 <= timeOfDay host t < msPerDay.
Proof.
  unfold timeOfDay, Day.
  pose proof (Z.div_mod (LocalTime host t) msPerDay) as H.
  pose proof (Z.mod_pos_bound (LocalTime host t) msPerDay) as Hb.
  unfold msPerDay in *. lia.
Qed.

Lemma timeOfDay_unique (t d c : Z) :
  LocalTime host t = d * msPerDay + c -> 0 <= c < msPerDay ->
  Day (LocalTime host t) = d /\ timeOfDay host t = c.
Proof.
  intros E Hc. unfold timeOfDay, Day. rewrite E. unfold msPerDay in *.
  split.
  - rewrite Z.add_comm, Z.div_add by lia. rewrite Z.div_small by lia. lia.
  - rewrite Z.add_comm, Z.mod_add by lia. now apply Z.mod_small.
Qed.

Lemma getDay_addDays_week (t : Z) (w : Z) :
  0 <= w <= 6 ->
  exists k : Z, 0 <= k <= 6 /\ getDay host (addDays t k) = w.
Proof.
  intros Hw. unfold getDay, WeekDay.
  set (D := Day (LocalTime host t)).
  exists ((w - (D + 4)) mod 7). split.
  - pose proof (Z.mod_pos_bound (w - (D + 4)) 7). lia.
  - rewrite Day_LocalTime_addDays. fold D. Z.div_mod_to_equations. lia.
Qed.

(** The loop of [getNextNotificationTime]: it stops at the first of the
    next days whose weekday is in [days], and after seven days at the
    latest. *)
Lemma nextActiveDay_spec (days : list Z) (fuel : nat) (t n : Z) :
  7 - n <= Z.of_nat fuel -> 0 <= n <= 7 ->
  exists k : Z,
    0 <= k <= 7 - n
    /\ nextActiveDay host fuel days t n = addDays t k
    /\ (forall j : Z, 0 <= j < k ->
          includes days (getDay host (addDays t j)) = false)
    /\ (k < 7 - n ->
        includes days (getDay host (addDays t k)) = true).
Proof.
  revert t n. induction fuel as [|fuel IH]; intros t n Hf Hn.
  - exists 0. cbn [nextActiveDay]. unfold addDays. repeat split; lia.
  - cbn [nextActiveDay]. destruct (n <? 7) eqn:En.
    + apply Z.ltb_lt in En.
      destruct (includes days (getDay host t)) eqn:Ei.
      * exists 0. unfold addDays. rewrite Z.add_0_r.
        repeat split; try lia. intros _. exact Ei.
      * destruct (IH (addDays t 1) (n + 1) ltac:(lia) ltac:(lia))
          as (k & Hk & Er & Hbefore & Hat).
        assert (Hadd : forall j, addDays (addDays t 1) j = addDays t (j + 1))
          by (intros j; unfold addDays; lia).
        exists (k + 1). rewrite Er, Hadd. repeat split; try lia.
        -- intros j Hj. destruct (Z.eq_dec j 0) as [->|Hj0].
           ++ unfold addDays. now rewrite Z.add_0_r.
           ++ specialize (Hbefore (j - 1) ltac:(lia)). rewrite Hadd in Hbefore.
              now replace (j - 1 + 1) with j in Hbefore by lia.
        -- intros Hlt. rewrite <- Hadd. apply Hat. lia.
    + apply Z.ltb_ge in En. exists 0. unfold addDays.
      rewrite Z.add_0_r. repeat split; lia.
Qed.

Lemma isActiveOnDay_includes (h : Habit) (days : list Z) (x : Z) :
  daysOfWeek h = Some days -> days <> [] ->
  isActiveOnDay host h (DayDate x) = includes days (getDay host x).
Proof.
  intros E Hne. unfold isActiveOnDay. rewrite E.
  destruct days as [|d r]; [contradiction | reflexivity].
Qed.

End NextNotification.

(** The clock reads [hour:minute] exactly during the minute that starts
    at that time of the day. *)
Lemma clock_reads (host : Host) (hour minute t : Z) :
  0 <= hour <= 23 -> 0 <= minute <= 59 ->
  (getHours host t = hour /\ getMinutes host t = minute)
  <-> clockTime hour minute <= timeOfDay host t
      < clockTime hour minute + msPerMinute.
Proof.
  intros Hh Hm.
  unfold getHours, getMinutes, timeOfDay, clockTime.
  unfold msPerDay, msPerHour, msPerMinute.
  split; [intros [H1 H2] | intros H; split];
    Z.div_mod_to_equations; lia.
Qed.

Section ClockOfMoment.
Variable host : Host.
Variables hour minute : Z.
Hypothesis hour_range : 0 <= hour <= 23.
Hypothesis minute_range : 0 <= minute <= 59.

Lemma clock_of_local (t d : Z) :
  LocalTime host t = d * msPerDay + clockTime hour minute ->
  Day (LocalTime host t) = d
  /\ timeOfDay host t = clockTime hour minute
  /\ getHours host t = hour
  /\ getMinutes host t = minute.
Proof.
  intros E. pose proof (clockTime_range hour minute hour_range minute_range)
    as Hc.
  destruct (timeOfDay_unique host t d (clockTime hour minute) E) as [Hd Ht];
    [unfold msPerDay, msPerMinute in *; lia|].
  split; [exact Hd|]. split; [exact Ht|].
  unfold getHours, getMinutes. rewrite E.
  unfold clockTime, msPerDay, msPerHour, msPerMinute.
  split; Z.div_mod_to_equations; lia.
Qed.

(** Today at the notification time, or tomorrow when that moment is not
    after now: the first moment after now at that time of the day. *)
Lemma first_moment (atToday : Z) :
  setHours host (now host) (Some hour) (Some minute) (Some 0) (Some 0)
  = Some atToday ->
  let r := if atToday <=? now host then addDays atToday 1 else atToday in
  now host < r
  /\ (exists d, LocalTime host r = d * msPerDay + clockTime hour minute)
  /\ (forall t, now host < t -> timeOfDay host t = clockTime hour minute ->
        r <= t).
Proof.
  unfold setHours. intros E. injection E as Ea.
  set (D := Day (LocalTime host (now host))) in *.
  fold (clockTime hour minute) in Ea.
  pose proof (clockTime_range hour minute hour_range minute_range) as Hc.
  destruct (timeOfDay_Day host (now host)) as [Hn Hnb]. fold D in Hn.
  unfold LocalTime in Hn.
  cbv zeta. unfold addDays.
  destruct (atToday <=? now host) eqn:Ecmp;
    [apply Z.leb_le in Ecmp | apply Z.leb_gt in Ecmp].
  - split; [unfold msPerDay, msPerMinute in *; lia|]. split.
    + exists (D + 1). unfold LocalTime. lia.
    + intros t Ht Hclock.
      destruct (timeOfDay_Day host t) as [Et _]. rewrite Hclock in Et.
      unfold LocalTime in Et.
      assert (D + 1 <= Day (t + LocalTZA host))
        by (unfold msPerDay, msPerMinute in *; nia).
      unfold msPerDay in *. nia.
  - split; [lia|]. split.
    + exists D. unfold LocalTime. lia.
    + intros t Ht Hclock.
      destruct (timeOfDay_Day host t) as [Et _]. rewrite Hclock in Et.
      unfold LocalTime in Et.
      assert (D <= Day (t + LocalTZA host))
        by (unfold msPerDay, msPerMinute in *; nia).
      unfold msPerDay in *. nia.
Qed.
End ClockOfMoment.

Lemma invariant_length (days : list Z) :
  ScheduleInvariant days -> (List.length days <= 7)%nat.
Proof.
  intros Hinv.
  pose proof (NoDup_incl_length (StronglySorted_lt_NoDup days (proj1 Hinv))
                (invariant_incl_week days Hinv)) as H.
  exact H.
Qed.

(** The date [getNextNotificationTime] returns, by its local day and its
    time of the day. *)
Lemma nextNotificationTime_moment :
  forall (host : Host) (h : Habit) (hour minute : Z),
    0 <= hour <= 23 -> 0 <= minute <= 59 ->
    notificationTime h = Some (timeText hour minute) ->
    HabitScheduleInvariant h ->
    exists r d : Z,
      getNextNotificationTime host h = Some (Some r)
      /\ now host < r
      /\ LocalTime host r = d * msPerDay + clockTime hour minute
      /\ isActiveOnDay host h (DayDate r) = true
      /\ (forall t : Z,
             now host < t ->
             timeOfDay host t = clockTime hour minute ->
             isActiveOnDay host h (DayDate t) = true ->
             r <= t).
Proof.
  intros host h hour minute Hh Hm Htime Hinv.
  unfold getNextNotificationTime. rewrite Htime, timeText_nonempty.
  destruct (timePart_timeText hour minute Hh Hm) as [-> ->].
  destruct (setHours host (now host) (Some hour) (Some minute) (Some 0)
              (Some 0)) as [atToday|] eqn:Eset; [|discriminate].
  destruct (first_moment host hour minute Hh Hm atToday Eset)
    as (Hafter & (d0 & Hlocal) & Hfirst).
  set (r0 := if atToday <=? now host then addDays atToday 1 else atToday) in *.
  assert (Hall : (forall x, isActiveOnDay host h (DayDate x) = true) ->
                 hasSomeDays h = None ->
                 exists r d : Z,
                   match hasSomeDays h with
                   | Some days =>
                       Some (Some (nextActiveDay host 7 days r0 0))
                   | None => Some (Some r0)
                   end = Some (Some r)
                   /\ now host < r
                   /\ LocalTime host r
                      = d * msPerDay + clockTime hour minute
                   /\ isActiveOnDay host h (DayDate r) = true
                   /\ (forall t : Z,
                          now host < t ->
                          timeOfDay host t = clockTime hour minute ->
                          isActiveOnDay host h (DayDate t) = true ->
                          r <= t)).
  { intros Hact Hnone. exists r0, d0. rewrite Hnone.
    repeat (split; [first [reflexivity | assumption | apply Hact]|]).
    intros t Ht Hc _. now apply Hfirst. }
  destruct (daysOfWeek h) as [days|] eqn:Edays.
  2: { apply Hall.
       - intros x. apply isActiveOnDay_absent. now left.
       - unfold hasSomeDays. now rewrite Edays. }
  pose proof (Hinv days Edays) as Hsched.
  pose proof (invariant_length days Hsched) as Hlen.
  destruct days as [|w ws] eqn:Eds.
  { apply Hall.
    - intros x. apply isActiveOnDay_absent. now right.
    - unfold hasSomeDays. now rewrite Edays. }
  rewrite <- Eds in *.
  assert (Hne : days <> []) by (rewrite Eds; discriminate).
  destruct (Nat.eq_dec (List.length days) 7) as [H7|H7].
  { apply Hall.
    - intros x. apply (isActiveOnDay_coversWeek host h days); trivial.
      + now apply invariant_covers_length.
      + apply validDay_DayDate.
    - unfold hasSomeDays. rewrite Edays, H7. reflexivity. }
  assert (Hsome : hasSomeDays h = Some days).
  { unfold hasSomeDays. rewrite Edays.
    replace (0 <? List.length days)%nat with true
      by (symmetry; apply Nat.ltb_lt; rewrite Eds; simpl; lia).
    replace (List.length days <? 7)%nat with true
      by (symmetry; apply Nat.ltb_lt; lia).
    reflexivity. }
  rewrite Hsome.
  destruct (nextActiveDay_spec host days 7 r0 0 ltac:(lia) ltac:(lia))
    as (k & Hk & Er & Hbefore & Hat).
  assert (Hw : 0 <= w <= 6).
  { destruct Hsched as [_ Hr]. rewrite Eds in Hr.
    now apply Forall_cons_iff in Hr. }
  destruct (getDay_addDays_week host r0 w Hw) as (kw & Hkw & Ekw).
  assert (Hk7 : k < 7).
  { destruct (Z.eq_dec k 7) as [->|]; [|lia]. exfalso.
    specialize (Hbefore kw ltac:(lia)). rewrite Ekw in Hbefore.
    assert (includes days w = true)
      by (apply includes_Z_In; rewrite Eds; now left).
    congruence. }
  assert (Hlocalr : LocalTime host (addDays r0 k)
                    = (d0 + k) * msPerDay + clockTime hour minute)
    by (unfold LocalTime, addDays in *; lia).
  exists (addDays r0 k), (d0 + k). rewrite Er.
  split; [reflexivity|]. split; [unfold addDays, msPerDay; lia|].
  split; [assumption|]. split.
  - rewrite (isActiveOnDay_includes host h days) by assumption.
    apply Hat. lia.
  - intros t Ht Hc Hact.
    pose proof (Hfirst t Ht Hc) as Hge.
    destruct (timeOfDay_Day host t) as [Et _]. rewrite Hc in Et.
    set (q := Day (LocalTime host t)) in *.
    assert (Etq : t = addDays r0 (q - d0))
      by (unfold LocalTime, addDays in *; lia).
    assert (Hq : d0 <= q)
      by (unfold LocalTime, msPerDay in *; nia).
    destruct (Z_lt_ge_dec (q - d0) k) as [Hlt|Hge'].
    + specialize (Hbefore (q - d0) ltac:(lia)). rewrite <- Etq in Hbefore.
      rewrite (isActiveOnDay_includes host h days) in Hact by assumption.
      congruence.
    + rewrite Etq. unfold addDays, msPerDay. nia.
Qed.

(** X15. In a zone with one fixed offset from UTC, for a habit with a
    notification time [HH:MM] and a schedule as [setDaysOfWeek] leaves it,
    [getNextNotificationTime] returns the first moment after now at which
    the local clock reads that time, to the second, on a day the habit is
    scheduled.  (At a fixed offset every local time of the day exists once
    on every day; where the clocks change, [setHours] can land on another
    hour.) *)
Theorem getNextNotificationTime_first_scheduled_moment :
  forall (host : Host) (h : Habit) (hour minute : Z),
    0 <= hour <= 23 -> 0 <= minute <= 59 ->
    notificationTime h = Some (timeText hour minute) ->
    HabitScheduleInvariant h ->
    exists r : Z,
      getNextNotificationTime host h = Some (Some r)
      /\ now host < r
      /\ timeOfDay host r = clockTime hour minute
      /\ getHours host r = hour
      /\ getMinutes host r = minute
      /\ isActiveOnDay host h (DayDate r) = true
      /\ (forall t : Z,
             now host < t ->
             timeOfDay host t = clockTime hour minute ->
             isActiveOnDay host h (DayDate t) = true ->
             r <= t).
Proof.
  intros host h hour minute Hh Hm Htime Hinv.
  destruct (nextNotificationTime_moment host h hour minute Hh Hm Htime Hinv)
    as (r & d & Er & Hafter & Hlocal & Hact & Hfirst).
  destruct (clock_of_local host hour minute Hh Hm r d Hlocal)
    as (_ & Hclock & Hhours & Hminutes).
  exists r. repeat (split; [assumption|]). exact Hfirst.
Qed.

Lemma getNextNotificationTime_first_scheduled_moment_witness :
  exists r : Z,
    getNextNotificationTime sundayNoonUTC mwfMorningHabit = Some (Some r)
    /\ now sundayNoonUTC < r
    /\ timeOfDay sundayNoonUTC r = clockTime 7 30
    /\ getHours sundayNoonUTC r = 7
    /\ getMinutes sundayNoonUTC r = 30
    /\ isActiveOnDay sundayNoonUTC mwfMorningHabit (DayDate r) = true
    /\ (forall t : Z,
           now sundayNoonUTC < t ->
           timeOfDay sundayNoonUTC t = clockTime 7 30 ->
           isActiveOnDay sundayNoonUTC mwfMorningHabit (DayDate t) = true ->
           r <= t).
Proof.
  apply (getNextNotificationTime_first_scheduled_moment sundayNoonUTC
           mwfMorningHabit 7 30).
  - lia.
  - lia.
  - reflexivity.
  - intros days E. inversion E. split.
    + repeat (constructor; [repeat constructor; lia|]). constructor.
    + repeat (constructor; [lia|]). constructor.
Defined.

Lemma shouldNotifyForHabit_clock (host : Host) (h : Habit) (hour minute : Z) :
  0 <= hour <= 23 -> 0 <= minute <= 59 ->
  notificationTime h = Some (timeText hour minute) ->
  shouldNotifyForHabit host h
  = (isActiveOnDay host h (DayDate (now host))
     && negb (isCompletedOn host h (DateString (toISODate (now host))))
     && ((getHours host (now host) =? hour)
         && (getMinutes host (now host) =? minute)))%bool.
Proof.
  intros Hh Hm Htime. unfold shouldNotifyForHabit.
  rewrite Htime, timeText_nonempty.
  destruct (timePart_timeText hour minute Hh Hm) as [-> ->].
  destruct (isActiveOnDay host h (DayDate (now host))); [|reflexivity].
  destruct (isCompletedOn host h (DateString (toISODate (now host))));
    reflexivity.
Qed.

(** X16. A habit without notification time never asks for a reminder.
    With the time [HH:MM], [shouldNotifyForHabit] holds exactly when today
    is scheduled, the habit is not completed on the UTC date of now, and
    the local time of the day lies in the minute that starts at [HH:MM]. *)
Theorem shouldNotifyForHabit_during_the_minute :
  forall (host : Host) (h : Habit),
    (notificationTime h = None \/ notificationTime h = Some "" ->
     shouldNotifyForHabit host h = false)
    /\ (forall hour minute : Z,
           0 <= hour <= 23 -> 0 <= minute <= 59 ->
           notificationTime h = Some (timeText hour minute) ->
           shouldNotifyForHabit host h = true
           <-> isActiveOnDay host h (DayDate (now host)) = true
               /\ isCompletedOn host h (DateString (toISODate (now host)))
                  = false
               /\ clockTime hour minute <= timeOfDay host (now host)
                  < clockTime hour minute + msPerMinute).
Proof.
  intros host h. split.
  - unfold shouldNotifyForHabit. now intros [-> | ->].
  - intros hour minute Hh Hm Htime.
    rewrite (shouldNotifyForHabit_clock host h hour minute Hh Hm Htime).
    rewrite <- (clock_reads host hour minute (now host) Hh Hm).
    rewrite !andb_true_iff, negb_true_iff, !Z.eqb_eq. tauto.
Qed.

Lemma shouldNotifyForHabit_during_the_minute_witness :
  shouldNotifyForHabit (hostAt sundayNoonUTC 1704699045000) mwfMorningHabit
  = true
  <-> isActiveOnDay (hostAt sundayNoonUTC 1704699045000) mwfMorningHabit
        (DayDate (now (hostAt sundayNoonUTC 1704699045000))) = true
      /\ isCompletedOn (hostAt sundayNoonUTC 1704699045000) mwfMorningHabit
           (DateString (toISODate (now (hostAt sundayNoonUTC 1704699045000))))
         = false
      /\ clockTime 7 30
         <= timeOfDay (hostAt sundayNoonUTC 1704699045000)
              (now (hostAt sundayNoonUTC 1704699045000))
         < clockTime 7 30 + msPerMinute.
Proof.
  apply (proj2 (shouldNotifyForHabit_during_the_minute
                  (hostAt sundayNoonUTC 1704699045000) mwfMorningHabit) 7 30).
  - lia.
  - lia.
  - reflexivity.
Defined.

Lemma isActiveOnDay_hostAt (host : Host) (h : Habit) (t x : Z) :
  isActiveOnDay (hostAt host t) h (DayDate x)
  = isActiveOnDay host h (DayDate x).
Proof. reflexivity. Qed.

(** X17. In a zone with one fixed offset from UTC, at the moment
    [getNextNotificationTime] returns, [shouldNotifyForHabit] asks for the
    reminder unless the habit is completed on the UTC date of that
    moment. *)
Theorem reminder_due_at_next_notification_time :
  forall (host : Host) (h : Habit) (hour minute r : Z),
    0 <= hour <= 23 -> 0 <= minute <= 59 ->
    notificationTime h = Some (timeText hour minute) ->
    HabitScheduleInvariant h ->
    getNextNotificationTime host h = Some (Some r) ->
    shouldNotifyForHabit (hostAt host r) h
    = negb (isCompletedOn host h (DateString (toISODate r))).
Proof.
  intros host h hour minute r Hh Hm Htime Hinv Er.
  destruct (nextNotificationTime_moment host h hour minute Hh Hm Htime Hinv)
    as (r' & d & Er' & _ & Hlocal & Hact & _).
  rewrite Er in Er'. injection Er' as <-.
  destruct (clock_of_local host hour minute Hh Hm r d Hlocal)
    as (_ & _ & Hhours & Hminutes).
  rewrite (shouldNotifyForHabit_clock (hostAt host r) h hour minute Hh Hm
             Htime).
  change (now (hostAt host r)) with r.
  rewrite isActiveOnDay_hostAt, Hact.
  change (getHours (hostAt host r) r) with (getHours host r).
  change (getMinutes (hostAt host r) r) with (getMinutes host r).
  rewrite Hhours, Hminutes, !Z.eqb_refl.
  change (isCompletedOn (hostAt host r) h (DateString (toISODate r)))
    with (isCompletedOn host h (DateString (toISODate r))).
  now rewrite andb_true_r.
Qed.

Lemma reminder_due_at_next_notification_time_witness :
  shouldNotifyForHabit (hostAt sundayNoonUTC 1704699000000) mwfMorningHabit
  = negb (isCompletedOn sundayNoonUTC mwfMorningHabit
            (DateString (toISODate 1704699000000))).
Proof.
  apply (reminder_due_at_next_notification_time sundayNoonUTC mwfMorningHabit
           7 30 1704699000000).
  - lia.
  - lia.
  - reflexivity.
  - intros days E. inversion E. split.
    + repeat (constructor; [repeat constructor; lia|]). constructor.
    + repeat (constructor; [lia|]). constructor.
  - vm_compute. reflexivity.
Defined.

(* ================================================================== *)
(** * The storage *)
(* ================================================================== *)

(** ** The storage *)

Lemma lookupItem_removeKey_same (key : string) (l : list (string * Item)) :
  lookupItem key (removeKey key l) = None.
Proof.
  induction l as [|[k v] r IH]; [reflexivity|]. simpl.
  destruct (k =? key)%string eqn:E; [exact IH|]. simpl. now rewrite E.
Qed.

Lemma lookupItem_removeKey_other (key k : string) (l : list (string * Item)) :
  k <> key -> lookupItem k (removeKey key l) = lookupItem k l.
Proof.
  intros Hne. induction l as [|[k' v] r IH]; [reflexivity|]. simpl.
  destruct (k' =? key)%string eqn:E.
  - apply String.eqb_eq in E. subst k'.
    replace (key =? k)%string with false
      by (symmetry; apply String.eqb_neq; congruence).
    exact IH.
  - simpl. now rewrite IH.
Qed.

Lemma getItem_setItem_same (ls : LocalStorage) (k : string) (v : Item) :
  getItem (setItem ls k v) k = Some v.
Proof. unfold getItem, setItem. simpl. now rewrite String.eqb_refl. Qed.

Lemma getItem_setItem_other (ls : LocalStorage) (k k' : string) (v : Item) :
  k' <> k -> getItem (setItem ls k v) k' = getItem ls k'.
Proof.
  intros Hne. unfold getItem, setItem. simpl.
  replace (k =? k')%string with false
    by (symmetry; apply String.eqb_neq; congruence).
  now apply lookupItem_removeKey_other.
Qed.

Lemma getItem_removeItem_same (ls : LocalStorage) (k : string) :
  getItem (removeItem ls k) k = None.
Proof. apply lookupItem_removeKey_same. Qed.

Lemma getItem_removeItem_other (ls : LocalStorage) (k k' : string) :
  k' <> k -> getItem (removeItem ls k) k' = getItem ls k'.
Proof. apply lookupItem_removeKey_other. Qed.

Lemma storage_keys_differ : STORAGE_KEY <> STORAGE_VERSION_KEY.
Proof. discriminate. Qed.

Section StorageFacts.
Variable host : Host.
Variable random : nat -> string.

Lemma fromJSONFrom_toJSON (i : nat) (habits : list Habit) :
  Forall hasCreatedDate habits ->
  fromJSONFrom host random i (map toJSON habits) = habits.
Proof.
  intros H. revert i. induction H as [|h r Hh _ IH]; intros i;
    [reflexivity|].
  simpl. now rewrite fromJSON_toJSON, IH.
Qed.

Lemma fromJSON_hasCreatedDate (r : string) (obj : PlainObject) :
  hasCreatedDate (fromJSON host r obj).
Proof.
  unfold hasCreatedDate, fromJSON, new_Habit, set_id. simpl.
  apply orString_nonempty, toISODate_nonempty.
Qed.

Lemma fromJSONFrom_hasCreatedDate (i : nat) (data : list PlainObject) :
  Forall hasCreatedDate (fromJSONFrom host random i data).
Proof.
  revert i. induction data as [|d r IH]; intros i; simpl; constructor;
    [apply fromJSON_hasCreatedDate | apply IH].
Qed.

Lemma loadHabits_hasCreatedDate (ls : LocalStorage) :
  Forall hasCreatedDate (loadHabits host random ls).
Proof.
  unfold loadHabits. destruct (usable ls); [|constructor].
  destruct (getItem ls STORAGE_KEY) as [[t|data]|]; try constructor.
  apply fromJSONFrom_hasCreatedDate.
Qed.

Lemma getItem_saveHabits (habits : list Habit) (ls : LocalStorage) :
  usable ls = true ->
  getItem (snd (saveHabits habits ls)) STORAGE_KEY
  = Some (ItemHabits (map toJSON habits)).
Proof.
  intros Hu. unfold saveHabits. rewrite Hu. cbn [snd].
  rewrite getItem_setItem_other by exact storage_keys_differ.
  apply getItem_setItem_same.
Qed.

Lemma saveHabits_usable (habits : list Habit) (ls : LocalStorage) :
  usable (snd (saveHabits habits ls)) = usable ls.
Proof.
  unfold saveHabits. destruct (usable ls) eqn:E; simpl; congruence.
Qed.

Lemma saveHabits_ok (habits : list Habit) (ls : LocalStorage) :
  fst (saveHabits habits ls) = usable ls.
Proof. unfold saveHabits. now destruct (usable ls). Qed.

Lemma loadHabits_saveHabits (habits : list Habit) (ls : LocalStorage) :
  usable ls = true -> Forall hasCreatedDate habits ->
  loadHabits host random (snd (saveHabits habits ls)) = habits.
Proof.
  intros Hu Hc. unfold loadHabits.
  rewrite saveHabits_usable, Hu, getItem_saveHabits by assumption.
  now apply fromJSONFrom_toJSON.
Qed.
End StorageFacts.

Lemma Reachable_hasCreatedDate (habits : list Habit) :
  Forall Reachable habits -> Forall hasCreatedDate habits.
Proof.
  apply Forall_impl. intros h. apply Reachable_createdDate.
Qed.

(** X18. On a usable storage [saveHabits] succeeds, and [loadHabits]
    afterwards, at any time, gives back the habits as they were saved; the
    version kept is the current one and no other key is touched.  On a
    storage that cannot be used [saveHabits] returns [false], changes
    nothing, and [loadHabits] gives the empty array. *)
Theorem saveHabits_then_loadHabits :
  forall (host : Host) (random : nat -> string) (habits : list Habit)
         (ls : LocalStorage),
    Forall Reachable habits ->
    let saved := saveHabits habits ls in
    (usable ls = true ->
     fst saved = true
     /\ loadHabits host random (snd saved) = habits
     /\ getStorageVersion (snd saved) = Some (ItemText CURRENT_VERSION)
     /\ (forall key : string,
            key <> STORAGE_KEY -> key <> STORAGE_VERSION_KEY ->
            getItem (snd saved) key = getItem ls key))
    /\ (usable ls = false ->
        saved = (false, ls) /\ loadHabits host random ls = []).
Proof.
  intros host random habits ls Hr saved. unfold saved. split.
  2: { intros Hu. unfold saveHabits, loadHabits. now rewrite Hu. }
  intros Hu.
  split; [now rewrite saveHabits_ok|].
  split; [apply loadHabits_saveHabits;
          [assumption | now apply Reachable_hasCreatedDate]|].
  unfold getStorageVersion. rewrite saveHabits_usable, Hu.
  unfold saveHabits. rewrite Hu. cbn [snd].
  split; [apply getItem_setItem_same|].
  intros key H1 H2. now rewrite !getItem_setItem_other.
Qed.

Lemma saveHabits_then_loadHabits_witness :
  fst (saveHabits [mondayHabitCreatedToday] emptyStorage) = true
  /\ loadHabits tuesdayUTC sampleRandom
       (snd (saveHabits [mondayHabitCreatedToday] emptyStorage))
     = [mondayHabitCreatedToday].
Proof.
  destruct (saveHabits_then_loadHabits tuesdayUTC sampleRandom
              [mondayHabitCreatedToday] emptyStorage) as [H _].
  - constructor; [apply Reach_new | constructor].
  - destruct (H eq_refl) as (H1 & H2 & _). split; [exact H1 | exact H2].
Defined.

(** ** Saving one habit *)

Lemma findIndexFrom_none {A} (p : A -> bool) (l : list A) (i : Z) :
  (forall x, In x l -> p x = false) -> findIndexFrom i p l = -1.
Proof.
  revert i. induction l as [|y r IH]; intros i H; [reflexivity|]. simpl.
  rewrite (H y) by now left. apply IH. intros x Hx. apply H. now right.
Qed.

Lemma findIndexFrom_some {A} (p : A -> bool) (pre post : list A) (x : A)
    (i : Z) :
  (forall y, In y pre -> p y = false) -> p x = true ->
  findIndexFrom i p (pre ++ x :: post)%list = i + Z.of_nat (List.length pre).
Proof.
  revert i. induction pre as [|y r IH]; intros i Hpre Hx; simpl.
  - rewrite Hx. lia.
  - rewrite (Hpre y) by now left.
    rewrite IH by (intros; try apply Hpre; try right; assumption). lia.
Qed.

(** An array is either free of elements that satisfy [p], or splits at the
    first one that does. *)
Lemma first_match {A} (p : A -> bool) (l : list A) :
  (forall x, In x l -> p x = false)
  \/ exists pre x post,
       l = (pre ++ x :: post)%list
       /\ (forall y, In y pre -> p y = false) /\ p x = true.
Proof.
  induction l as [|y r IH].
  - left. intros x [].
  - destruct (p y) eqn:Ey.
    + right. exists [], y, r. repeat split; [intros z []|assumption].
    + destruct IH as [H | (pre & x & post & -> & Hpre & Hx)].
      * left. intros x [<- | Hx]; [assumption | now apply H].
      * right. exists (y :: pre), x, post. repeat split; [|assumption].
        intros z [<- | Hz]; [assumption | now apply Hpre].
Qed.

Lemma setAt_middle {A} (pre post : list A) (x y : A) :
  setAt (pre ++ x :: post)%list (Z.of_nat (List.length pre)) y
  = (pre ++ y :: post)%list.
Proof.
  unfold setAt. rewrite Nat2Z.id.
  rewrite firstn_app, firstn_all, Nat.sub_diag. simpl firstn.
  rewrite app_nil_r. f_equal. f_equal.
  rewrite skipn_app, (skipn_all2 pre) by lia.
  replace (S (List.length pre) - List.length pre)%nat with 1%nat by lia.
  reflexivity.
Qed.

Lemma upsert_absent (habits : list Habit) (habit : Habit) :
  (forall x, In x habits -> hasId (id habit) x = false) ->
  upsert habits habit = (habits ++ [habit])%list.
Proof.
  intros H. unfold upsert, findIndex.
  rewrite (findIndexFrom_none (fun h => (id h =? id habit)%string))
    by exact H.
  reflexivity.
Qed.

Lemma upsert_present (pre post : list Habit) (x habit : Habit) :
  (forall y, In y pre -> hasId (id habit) y = false) ->
  hasId (id habit) x = true ->
  upsert (pre ++ x :: post)%list habit = (pre ++ habit :: post)%list.
Proof.
  intros Hpre Hx. unfold upsert, findIndex.
  rewrite (findIndexFrom_some (fun h => (id h =? id habit)%string))
    by assumption.
  replace (0 <=? 0 + Z.of_nat (List.length pre)) with true
    by (symmetry; apply Z.leb_le; lia).
  apply setAt_middle.
Qed.

Lemma find_app_none {A} (p : A -> bool) (l1 l2 : list A) :
  (forall x, In x l1 -> p x = false) -> find p (l1 ++ l2)%list = find p l2.
Proof.
  induction l1 as [|y r IH]; intros H; [reflexivity|]. simpl.
  rewrite (H y) by now left. apply IH. intros x Hx. apply H. now right.
Qed.

Lemma find_app_some {A} (p : A -> bool) (l1 l2 : list A) (x : A) :
  find p l1 = Some x -> find p (l1 ++ l2)%list = Some x.
Proof.
  induction l1 as [|y r IH]; [discriminate|]. simpl.
  destruct (p y); [trivial | exact IH].
Qed.

Lemma find_none_iff {A} (p : A -> bool) (l : list A) :
  find p l = None <-> (forall x, In x l -> p x = false).
Proof.
  split; [apply find_none|]. induction l as [|y r IH]; intros H;
    [reflexivity|].
  simpl. rewrite (H y) by now left. apply IH. intros x Hx. apply H.
  now right.
Qed.

Lemma hasId_other (i : string) (x y : Habit) :
  id y <> i -> hasId (id y) x = true -> hasId i x = false.
Proof.
  unfold hasId. intros Hne E. apply String.eqb_eq in E.
  apply String.eqb_neq. congruence.
Qed.

(** The habit found under an identifier after an upsert. *)
Lemma find_upsert (habits : list Habit) (habit : Habit) (i : string) :
  find (hasId i) (upsert habits habit)
  = if (id habit =? i)%string then Some habit else find (hasId i) habits.
Proof.
  destruct (first_match (hasId (id habit)) habits)
    as [Hno | (pre & x & post & -> & Hpre & Hx)].
  - rewrite upsert_absent by assumption.
    destruct (id habit =? i)%string eqn:E.
    + apply String.eqb_eq in E. subst i.
      rewrite find_app_none by assumption. simpl.
      unfold hasId at 1. now rewrite String.eqb_refl.
    + destruct (find (hasId i) habits) as [y|] eqn:Ef.
      * now apply find_app_some.
      * rewrite find_app_none by (now apply find_none_iff). simpl.
        unfold hasId at 1. now rewrite E.
  - rewrite upsert_present by assumption.
    destruct (id habit =? i)%string eqn:E.
    + apply String.eqb_eq in E. subst i.
      rewrite find_app_none by assumption. simpl.
      unfold hasId at 1. now rewrite String.eqb_refl.
    + apply String.eqb_neq in E.
      destruct (find (hasId i) pre) as [y|] eqn:Ef.
      * now rewrite !(find_app_some _ _ _ _ Ef).
      * rewrite find_none_iff in Ef. rewrite !find_app_none by assumption.
        simpl. unfold hasId at 1 3.
        replace (id habit =? i)%string with false
          by (symmetry; now apply String.eqb_neq).
        pose proof (hasId_other i x habit E Hx) as Hxi.
        unfold hasId in Hxi. now rewrite Hxi.
Qed.

Lemma upsert_ids (habits : list Habit) (habit : Habit) :
  (forall x, In x habits -> hasId (id habit) x = false)
  /\ map id (upsert habits habit) = (map id habits ++ [id habit])%list
  \/ (exists x, In x habits /\ hasId (id habit) x = true)
     /\ map id (upsert habits habit) = map id habits.
Proof.
  destruct (first_match (hasId (id habit)) habits)
    as [Hno | (pre & x & post & -> & Hpre & Hx)].
  - left. split; [assumption|]. rewrite upsert_absent by assumption.
    now rewrite map_app.
  - right. split.
    + exists x. split; [apply in_or_app; right; now left | assumption].
    + rewrite upsert_present by assumption. rewrite !map_app. simpl.
      unfold hasId in Hx. apply String.eqb_eq in Hx. now rewrite Hx.
Qed.

Lemma upsert_NoDup (habits : list Habit) (habit : Habit) :
  NoDup (map id habits) -> NoDup (map id (upsert habits habit)).
Proof.
  intros Hnd. destruct (upsert_ids habits habit) as [[Hno ->] | [_ ->]];
    [|assumption].
  apply NoDup_app; [assumption | constructor; [intros [] | constructor]|].
  intros i Hi [<- | []]. apply in_map_iff in Hi.
  destruct Hi as (x & Ex & Hx). specialize (Hno x Hx).
  unfold hasId in Hno. apply String.eqb_neq in Hno. congruence.
Qed.

Lemma upsert_hasCreatedDate (habits : list Habit) (habit : Habit) :
  Forall hasCreatedDate habits -> hasCreatedDate habit ->
  Forall hasCreatedDate (upsert habits habit).
Proof.
  intros Hs Hh.
  destruct (first_match (hasId (id habit)) habits)
    as [Hno | (pre & x & post & -> & Hpre & Hx)].
  - rewrite upsert_absent by assumption. apply Forall_app. split;
      [assumption | now constructor].
  - rewrite upsert_present by assumption.
    apply Forall_app in Hs. destruct Hs as [H1 H2].
    apply Forall_app. split; [assumption|].
    inversion H2; subst. now constructor.
Qed.

(** X19. [saveHabit] on a usable storage succeeds.  Afterwards the habit
    is the one found under its identifier, the habit found under any other
    identifier is the one found before, the number of stored habits grows
    by one exactly when the identifier was not stored before, and
    identifiers that were all different stay so. *)
Theorem saveHabit_stores_the_habit :
  forall (host later : Host) (random random' : nat -> string)
         (habit : Habit) (ls : LocalStorage),
    usable ls = true ->
    Reachable habit ->
    let before := loadHabits host random ls in
    let saved := saveHabit host random habit ls in
    let after := loadHabits later random' (snd saved) in
    fst saved = true
    /\ getHabitById later random' (id habit) (snd saved) = Some habit
    /\ (forall other : string,
           other <> id habit ->
           getHabitById later random' other (snd saved)
           = getHabitById host random other ls)
    /\ List.length after
       = match getHabitById host random (id habit) ls with
         | Some _ => List.length before
         | None => S (List.length before)
         end
    /\ (NoDup (map id before) -> NoDup (map id after)).
Proof.
  intros host later random random' habit ls Hu Hr before saved after.
  assert (Hafter : after = upsert before habit).
  { unfold after, saved, saveHabit. apply loadHabits_saveHabits;
      [assumption|].
    apply upsert_hasCreatedDate; [apply loadHabits_hasCreatedDate|].
    now apply Reachable_createdDate. }
  split; [unfold saved, saveHabit; now rewrite saveHabits_ok|].
  unfold getHabitById. fold after before. rewrite Hafter.
  fold (hasId (id habit)).
  split; [rewrite find_upsert; now rewrite String.eqb_refl|].
  split.
  { intros other Hne. fold (hasId other). rewrite find_upsert.
    replace (id habit =? other)%string with false
      by (symmetry; apply String.eqb_neq; congruence).
    reflexivity. }
  split; [|apply upsert_NoDup].
  destruct (upsert_ids before habit) as [[Hno E] | [(x & Hx & Hid) E]];
    apply (f_equal (@List.length string)) in E;
    rewrite ?length_app, !length_map in E; rewrite E.
  - replace (find (hasId (id habit)) before) with (@None Habit)
      by (symmetry; now apply find_none_iff).
    simpl. lia.
  - destruct (find (hasId (id habit)) before) eqn:Ef; [reflexivity|].
    rewrite find_none_iff in Ef. rewrite (Ef x Hx) in Hid. discriminate.
Qed.

Lemma saveHabit_stores_the_habit_witness :
  fst (saveHabit sundayNoonUTC sampleRandom mondayHabitCreatedToday
         emptyStorage) = true
  /\ getHabitById tuesdayUTC sampleRandom (id mondayHabitCreatedToday)
       (snd (saveHabit sundayNoonUTC sampleRandom mondayHabitCreatedToday
               emptyStorage))
     = Some mondayHabitCreatedToday.
Proof.
  destruct (saveHabit_stores_the_habit sundayNoonUTC tuesdayUTC sampleRandom
              sampleRandom mondayHabitCreatedToday emptyStorage)
    as (H1 & H2 & _).
  - reflexivity.
  - apply Reach_new.
  - split; [exact H1 | exact H2].
Defined.

(** ** Deleting a habit *)

Lemma find_filter_other (i j : string) (l : list Habit) :
  i <> j ->
  find (hasId i) (filter (fun h => negb (hasId j h)) l) = find (hasId i) l.
Proof.
  intros Hne. induction l as [|y r IH]; [reflexivity|]. simpl.
  destruct (hasId j y) eqn:Ej; simpl.
  - replace (hasId i y) with false; [exact IH|].
    symmetry. unfold hasId in *. apply String.eqb_eq in Ej.
    apply String.eqb_neq. congruence.
  - now rewrite IH.
Qed.

Lemma find_filter_same (i : string) (l : list Habit) :
  find (hasId i) (filter (fun h => negb (hasId i h)) l) = None.
Proof.
  apply find_none_iff. intros x Hx. apply filter_In in Hx.
  destruct Hx as [_ Hx]. now apply negb_true_iff in Hx.
Qed.

Lemma filter_length_all {A} (p : A -> bool) (l : list A) :
  List.length (filter p l) = List.length l
  <-> (forall x, In x l -> p x = true).
Proof.
  induction l as [|y r IH]; simpl.
  - split; [intros _ x [] | reflexivity].
  - pose proof (filter_length_le p r) as Hle. destruct (p y) eqn:Ey; simpl.
    + split.
      * intros E x [<- | Hx]; [assumption|]. apply IH; [lia | assumption].
      * intros H. f_equal. apply IH. intros x Hx. apply H. now right.
    + split; [lia|]. intros H. specialize (H y (or_introl eq_refl)).
      congruence.
Qed.

Lemma filter_hasCreatedDate (p : Habit -> bool) (l : list Habit) :
  Forall hasCreatedDate l -> Forall hasCreatedDate (filter p l).
Proof.
  rewrite !Forall_forall. intros H x Hx. apply filter_In in Hx.
  now apply H.
Qed.

(** X20. [deleteHabit] on a usable storage returns [true] exactly when a
    habit with the identifier is stored; when it returns [false] the
    storage is as before.  After a deletion the stored habits are the
    earlier ones without those of the identifier, in their order: none is
    found under the identifier and the others are found as before. *)
Theorem deleteHabit_removes_the_habit :
  forall (host later : Host) (random random' : nat -> string)
         (habitId : string) (ls : LocalStorage),
    usable ls = true ->
    let before := loadHabits host random ls in
    let deleted := deleteHabit host random habitId ls in
    (fst deleted = true <-> getHabitById host random habitId ls <> None)
    /\ (fst deleted = false -> snd deleted = ls)
    /\ (fst deleted = true ->
        loadHabits later random' (snd deleted)
        = filter (fun h => negb (hasId habitId h)) before
        /\ getHabitById later random' habitId (snd deleted) = None
        /\ (forall other : string,
               other <> habitId ->
               getHabitById later random' other (snd deleted)
               = getHabitById host random other ls)).
Proof.
  intros host later random random' habitId ls Hu before deleted.
  unfold deleted, deleteHabit, getHabitById. fold before.
  fold (hasId habitId).
  change (fun h : Habit => negb (id h =? habitId)%string)
    with (fun h : Habit => negb (hasId habitId h)).
  set (rest := filter (fun h => negb (hasId habitId h)) before).
  destruct (List.length rest =? List.length before)%nat eqn:E.
  - apply Nat.eqb_eq in E. unfold rest in E.
    rewrite filter_length_all in E. cbn [fst snd].
    split; [|split; [reflexivity | discriminate]].
    split; [discriminate|]. intros Hf. exfalso. apply Hf.
    apply find_none_iff. intros x Hx. specialize (E x Hx).
    now apply negb_true_iff in E.
  - apply Nat.eqb_neq in E. rewrite saveHabits_ok, Hu.
    split; [|split; [discriminate|]].
    + split; [|reflexivity]. intros _ Hnone. apply E. unfold rest.
      apply filter_length_all. intros x Hx. apply negb_true_iff.
      rewrite find_none_iff in Hnone. now apply Hnone.
    + intros _.
      assert (Hl : loadHabits later random' (snd (saveHabits rest ls))
                   = rest).
      { apply loadHabits_saveHabits; [assumption|].
        apply filter_hasCreatedDate, loadHabits_hasCreatedDate. }
      rewrite Hl. split; [reflexivity|].
      split; [apply find_filter_same|].
      intros other Hne. fold (hasId other). now apply find_filter_other.
Qed.

Lemma deleteHabit_removes_the_habit_witness :
  fst (deleteHabit sundayNoonUTC sampleRandom (id mwfHabit) twoHabitStorage)
  = true
  /\ loadHabits tuesdayUTC sampleRandom
       (snd (deleteHabit sundayNoonUTC sampleRandom (id mwfHabit)
               twoHabitStorage))
     = [saturdayHabit].
Proof.
  destruct (deleteHabit_removes_the_habit sundayNoonUTC tuesdayUTC
              sampleRandom sampleRandom (id mwfHabit) twoHabitStorage
              eq_refl) as (H1 & _ & H3).
  assert (Ht : fst (deleteHabit sundayNoonUTC sampleRandom (id mwfHabit)
                      twoHabitStorage) = true) by reflexivity.
  split; [exact Ht|]. destruct (H3 Ht) as (H4 & _). rewrite H4.
  reflexivity.
Defined.

(** ** Export and import *)

(** X21. The text [exportData] writes, imported into any usable storage
    without merging, makes that storage hold the exported habits; a text
    that is not an export changes nothing and gives [false]. *)
Theorem exportData_then_importData :
  forall (host1 host2 host3 : Host) (random1 random2 random3 : nat -> string)
         (source target : LocalStorage) (merge : bool),
    usable target = true ->
    let text := exportData host1 random1 source in
    let imported := importData host2 random2 text false target in
    fst imported = true
    /\ loadHabits host3 random3 (snd imported)
       = loadHabits host1 random1 source
    /\ importData host2 random2 ImportOther merge target = (false, target).
Proof.
  intros host1 host2 host3 random1 random2 random3 source target merge Hu
    text imported.
  unfold imported, text, exportData, importData.
  pose proof (loadHabits_hasCreatedDate host1 random1 source) as Hc.
  rewrite fromJSONFrom_toJSON by assumption.
  split; [now rewrite saveHabits_ok|].
  split; [now apply loadHabits_saveHabits | reflexivity].
Qed.

Lemma exportData_then_importData_witness :
  loadHabits tuesdayUTC sampleRandom
    (snd (importData tuesdayUTC sampleRandom
            (exportData sundayNoonUTC sampleRandom twoHabitStorage) false
            emptyStorage))
  = loadHabits sundayNoonUTC sampleRandom twoHabitStorage.
Proof.
  destruct (exportData_then_importData sundayNoonUTC tuesdayUTC tuesdayUTC
              sampleRandom sampleRandom sampleRandom twoHabitStorage
              emptyStorage false eq_refl) as (_ & H & _).
  exact H.
Defined.

Lemma find_fold_upsert (imported habits : list Habit) (i : string) :
  find (hasId i) (fold_left upsert imported habits)
  = match find (hasId i) (rev imported) with
    | Some x => Some x
    | None => find (hasId i) habits
    end.
Proof.
  revert habits. induction imported as [|y r IH]; intros habits;
    [reflexivity|].
  simpl fold_left. rewrite IH, find_upsert. simpl rev.
  destruct (find (hasId i) (rev r)) as [x|] eqn:Ef.
  - now rewrite (find_app_some _ _ _ _ Ef).
  - rewrite find_none_iff in Ef. rewrite find_app_none by assumption.
    simpl. unfold hasId at 2. now destruct (id y =? i)%string.
Qed.

Lemma fold_upsert_NoDup (imported habits : list Habit) :
  NoDup (map id habits) -> NoDup (map id (fold_left upsert imported habits)).
Proof.
  revert habits. induction imported as [|y r IH]; intros habits H;
    [assumption|].
  simpl. apply IH. now apply upsert_NoDup.
Qed.

Lemma fold_upsert_hasCreatedDate (imported habits : list Habit) :
  Forall hasCreatedDate imported -> Forall hasCreatedDate habits ->
  Forall hasCreatedDate (fold_left upsert imported habits).
Proof.
  intros Hi. revert habits. induction Hi as [|y r Hy _ IH]; intros habits H;
    [assumption|].
  simpl. apply IH. now apply upsert_hasCreatedDate.
Qed.

(** X22. Import with merging, on a usable storage: under an identifier
    the import names, the habit found afterwards is the last record of the
    import with that identifier; under every other identifier it is the
    habit found before.  Identifiers that were all different stay so. *)
Theorem importData_merge :
  forall (host later : Host) (random random' : nat -> string)
         (version exportDate : string) (records : list PlainObject)
         (ls : LocalStorage),
    usable ls = true ->
    let imported := fromJSONFrom host random 0 records in
    let merged :=
      importData host random (ImportDocument version exportDate records) true
        ls in
    fst merged = true
    /\ (forall i : string,
           getHabitById later random' i (snd merged)
           = match find (hasId i) (rev imported) with
             | Some x => Some x
             | None => getHabitById host random i ls
             end)
    /\ (NoDup (map id (loadHabits host random ls)) ->
        NoDup (map id (loadHabits later random' (snd merged)))).
Proof.
  intros host later random random' version exportDate records ls Hu imported
    merged.
  unfold merged, importData, mergeHabits. fold imported.
  set (all := fold_left upsert imported (loadHabits host random ls)).
  assert (Hl : loadHabits later random' (snd (saveHabits all ls)) = all).
  { apply loadHabits_saveHabits; [assumption|].
    apply fold_upsert_hasCreatedDate;
      [apply fromJSONFrom_hasCreatedDate | apply loadHabits_hasCreatedDate]. }
  split; [now rewrite saveHabits_ok|].
  unfold getHabitById. rewrite Hl. split.
  - intros i. fold (hasId i). apply find_fold_upsert.
  - apply fold_upsert_NoDup.
Qed.

Lemma importData_merge_witness :
  fst (importData sundayNoonUTC sampleRandom
         (ImportDocument "1.0" "2024-01-07T12:00:00.000Z" [unsortedRecord])
         true twoHabitStorage) = true.
Proof.
  destruct (importData_merge sundayNoonUTC tuesdayUTC sampleRandom
              sampleRandom "1.0" "2024-01-07T12:00:00.000Z" [unsortedRecord]
              twoHabitStorage eq_refl) as (H & _).
  exact H.
Defined.

(** ** Clearing and probing the storage *)

(** X23. [clearAllData] on a usable storage removes the habits and the
    version and leaves every other key as it was. *)
Theorem clearAllData_forgets_the_habits :
  forall (host : Host) (random : nat -> string) (ls : LocalStorage),
    usable ls = true ->
    let cleared := clearAllData ls in
    fst cleared = true
    /\ loadHabits host random (snd cleared) = []
    /\ getStorageVersion (snd cleared) = None
    /\ (forall key : string,
           key <> STORAGE_KEY -> key <> STORAGE_VERSION_KEY ->
           getItem (snd cleared) key = getItem ls key).
Proof.
  intros host random ls Hu cleared. unfold cleared, clearAllData.
  rewrite Hu. cbn [fst snd]. split; [reflexivity|].
  unfold loadHabits, getStorageVersion.
  change (usable (removeItem (removeItem ls STORAGE_KEY) STORAGE_VERSION_KEY))
    with (usable ls).
  rewrite Hu. rewrite getItem_removeItem_same.
  rewrite getItem_removeItem_other by exact storage_keys_differ.
  rewrite getItem_removeItem_same.
  split; [reflexivity|]. split; [reflexivity|].
  intros key H1 H2. now rewrite !getItem_removeItem_other.
Qed.

Lemma clearAllData_forgets_the_habits_witness :
  loadHabits sundayNoonUTC sampleRandom (snd (clearAllData twoHabitStorage))
  = [].
Proof.
  destruct (clearAllData_forgets_the_habits sundayNoonUTC sampleRandom
              twoHabitStorage eq_refl) as (_ & H & _).
  exact H.
Defined.

(** X24. The probe of [isStorageAvailable] answers whether the storage
    can be used and disturbs neither the habits nor the version. *)
Theorem isStorageAvailable_keeps_the_habits :
  forall (host : Host) (random : nat -> string) (ls : LocalStorage),
    let probed := isStorageAvailable ls in
    fst probed = usable ls
    /\ loadHabits host random (snd probed) = loadHabits host random ls
    /\ getStorageVersion (snd probed) = getStorageVersion ls.
Proof.
  intros host random ls probed. unfold probed, isStorageAvailable.
  destruct (usable ls) eqn:Hu; cbn [fst snd];
    [|repeat split; reflexivity].
  split; [reflexivity|].
  unfold loadHabits, getStorageVersion.
  change (usable (removeItem (setItem ls "__storage_test__" (ItemText "test"))
                    "__storage_test__")) with (usable ls).
  rewrite Hu.
  rewrite !getItem_removeItem_other, !getItem_setItem_other by discriminate.
  split; reflexivity.
Qed.

(* ================================================================== *)
(** * The statistics and the order of the completions *)
(* ================================================================== *)

(** ** The order of the completions *)

Lemma strLe_trans (a b c : string) : strLe a b -> strLe b c -> strLe a c.
Proof.
  unfold strLe, String.leb. intros Hab Hbc.
  destruct (String.compare a b) eqn:E1; try discriminate;
    destruct (String.compare b c) eqn:E2; try discriminate.
  - apply String.compare_eq_iff in E1, E2. subst.
    now rewrite string_compare_refl.
  - apply String.compare_eq_iff in E1. subst. now rewrite E2.
  - apply String.compare_eq_iff in E2. subst. now rewrite E1.
  - now rewrite (string_compare_lt_trans a b c E1 E2).
Qed.

(** Two arrays in ascending order with the same elements, each as often,
    are the same array. *)
Lemma sorted_permutation_unique (l1 l2 : list string) :
  StronglySorted strLe l1 -> StronglySorted strLe l2 ->
  Permutation l1 l2 -> l1 = l2.
Proof.
  intros H1. revert l2. induction H1 as [|a l1 Hs1 IH Ha]; intros l2 H2 Hp.
  - apply Permutation_nil in Hp. now subst.
  - destruct H2 as [|b l2 Hs2 Hb].
    + apply Permutation_sym, Permutation_nil in Hp. discriminate.
    + assert (E : a = b).
      { rewrite Forall_forall in Ha, Hb.
        assert (Hina : In a (b :: l2))
          by (apply (Permutation_in _ Hp); now left).
        assert (Hinb : In b (a :: l1))
          by (apply (Permutation_in _ (Permutation_sym Hp)); now left).
        destruct Hina as [<- | Hina]; [reflexivity|].
        destruct Hinb as [<- | Hinb]; [reflexivity|].
        apply String.leb_antisym; [now apply Ha | now apply Hb]. }
      subst b. f_equal. apply IH; [assumption|].
      now apply Permutation_cons_inv in Hp.
Qed.

Lemma sort_permutation (l1 l2 : list string) :
  Permutation l1 l2 -> StringSort.sort l1 = StringSort.sort l2.
Proof.
  intros Hp. apply sorted_permutation_unique.
  - apply Sorted_StronglySorted; [exact strLe_trans|].
    apply StringSort.Sorted_sort.
  - apply Sorted_StronglySorted; [exact strLe_trans|].
    apply StringSort.Sorted_sort.
  - eapply Permutation_trans;
      [apply Permutation_sym, StringSort.Permuted_sort|].
    eapply Permutation_trans; [exact Hp|]. apply StringSort.Permuted_sort.
Qed.

Lemma includes_permutation (l1 l2 : list string) (x : string) :
  Permutation l1 l2 -> includes l1 x = includes l2 x.
Proof.
  intros Hp. apply includes_string_iff. split; apply Permutation_in;
    [assumption | now apply Permutation_sym].
Qed.

Lemma countLoop_same (host : Host) (h1 h2 : Habit) :
  (forall t, isActiveOnDay host h1 (DayDate t)
             = isActiveOnDay host h2 (DayDate t)) ->
  forall (fuel : nat) (checkDate today acc : Z),
    countLoop host fuel h1 checkDate today acc
    = countLoop host fuel h2 checkDate today acc.
Proof.
  intros Hs. induction fuel as [|fuel IH]; intros checkDate today acc;
    [reflexivity|].
  simpl. now rewrite Hs, IH.
Qed.

Section OrderOfCompletions.
Variable host : Host.
Variable h : Habit.
Variable l : list string.

Lemma permuted_schedule (t : Z) :
  isActiveOnDay host (set_completions l h) (DayDate t)
  = isActiveOnDay host h (DayDate t).
Proof. reflexivity. Qed.

Lemma permuted_calculateStreak :
  Permutation (completions h) l ->
  calculateStreak host (set_completions l h) = calculateStreak host h.
Proof.
  intros permuted.
  rewrite !calculateStreak_walk. unfold streakWalk.
  pose proof (streakLoop_sameWalk host host h (set_completions l h)
                (Day (LocalTime host (currentDate (streakStart host))))
                eq_refl
                (fun d _ => includes_permutation _ _ (formatDay d) permuted)
                365 0 (streakStart host) (streakStart host)
                (Z.le_refl _)) as (_ & S & _).
  - repeat split.
  - lia.
Qed.

Lemma permuted_computeLongestStreak :
  Permutation (completions h) l ->
  computeLongestStreak host (set_completions l h)
  = computeLongestStreak host h.
Proof.
  intros permuted.
  unfold computeLongestStreak.
  change (completions (set_completions l h)) with l.
  rewrite <- (sort_permutation _ _ permuted).
  now rewrite (same_longestLoop host (set_completions l h) h
                 permuted_schedule).
Qed.

Lemma permuted_computeScheduledDaysPassed :
  computeScheduledDaysPassed host (set_completions l h)
  = computeScheduledDaysPassed host h.
Proof.
  unfold computeScheduledDaysPassed, computeDaysSinceCreation.
  change (hasDayRestriction (set_completions l h))
    with (hasDayRestriction h).
  change (createdDate (set_completions l h)) with (createdDate h).
  destruct (hasDayRestriction h); [|reflexivity].
  destruct (Date_parse (createdDate h)); [|reflexivity].
  now rewrite (countLoop_same host (set_completions l h) h
                 permuted_schedule).
Qed.
End OrderOfCompletions.

(** X25. The statistics of a habit do not depend on the order in which
    its completions are stored. *)
Theorem statistics_independent_of_order :
  forall (host : Host) (h : Habit) (l : list string),
    Permutation (completions h) l ->
    getStatistics host (set_completions l h) = getStatistics host h.
Proof.
  intros host h l Hp. unfold getStatistics.
  rewrite (permuted_calculateStreak host h l Hp),
    (permuted_computeLongestStreak host h l Hp),
    (permuted_computeScheduledDaysPassed host h l).
  change (completions (set_completions l h)) with l.
  rewrite <- (Permutation_length Hp).
  reflexivity.
Qed.

Lemma statistics_independent_of_order_witness :
  getStatistics sundayNoonUTC
    (set_completions ["2024-01-08"; "2024-01-06"] saturdayHabit)
  = getStatistics sundayNoonUTC saturdayHabit.
Proof.
  apply (statistics_independent_of_order sundayNoonUTC saturdayHabit
           ["2024-01-08"; "2024-01-06"]).
  apply perm_swap.
Defined.

(* ================================================================== *)
(** * The current streak and the longest streak *)
(* ================================================================== *)

(** ** The calendar in the order of the days *)

Lemma daysBeforeMarch_step (y : Z) :
  daysBeforeMarch (y + 1)
  = daysBeforeMarch y + (if isLeapYear (y + 1) then 366 else 365).
Proof.
  unfold daysBeforeMarch, isLeapYear.
  destruct (Z.eqb_spec ((y + 1) mod 4) 0) as [E4|E4];
    destruct (Z.eqb_spec ((y + 1) mod 100) 0) as [E100|E100];
    destruct (Z.eqb_spec ((y + 1) mod 400) 0) as [E400|E400];
    cbn [andb orb negb]; Z.div_mod_to_equations; lia.
Qed.

Lemma daysBeforeMarch_mono (a b : Z) :
  a < b -> daysBeforeMarch a + 365 <= daysBeforeMarch b.
Proof.
  intros Hab. replace b with (a + 1 + (b - a - 1)) by lia.
  assert (Hn : 0 <= b - a - 1) by lia.
  generalize (b - a - 1) Hn. clear Hab Hn b.
  apply natlike_ind.
  - rewrite Z.add_0_r, daysBeforeMarch_step.
    destruct (isLeapYear (a + 1)); lia.
  - intros n Hn IH.
    replace (a + 1 + Z.succ n) with (a + 1 + n + 1) by lia.
    rewrite daysBeforeMarch_step.
    destruct (isLeapYear (a + 1 + n + 1)); lia.
Qed.

Lemma daysFromCivil_march (y m d : Z) :
  daysFromCivil y m d
  = daysBeforeMarch (if m <=? 2 then y - 1 else y)
    + (153 * (if 2 <? m then m - 3 else m + 9) + 2) / 5 + d - 1 - 719468.
Proof.
  unfold daysFromCivil, daysBeforeMarch.
  destruct (m <=? 2), (2 <? m); Z.div_mod_to_equations; lia.
Qed.

(** A day of a month falls before the first day of the next month, and the
    last day of February is the last day of the year counted from March. *)
Lemma validDate_marchMonth (y m d : Z) :
  validDate (y, m, d) ->
  0 <= marchMonth m <= 11
  /\ (marchMonth m < 11 ->
      (153 * marchMonth m + 2) / 5 + d
      <= (153 * (marchMonth m + 1) + 2) / 5)
  /\ (marchMonth m = 11 ->
      (153 * marchMonth m + 2) / 5 + d
      <= (if isLeapYear y then 366 else 365)).
Proof.
  unfold validDate, daysInMonth, marchMonth. intros [Hm Hd].
  assert (Hcases : m = 1 \/ m = 2 \/ m = 3 \/ m = 4 \/ m = 5 \/ m = 6
                   \/ m = 7 \/ m = 8 \/ m = 9 \/ m = 10 \/ m = 11 \/ m = 12)
    by lia.
  destruct Hcases as [-> | [-> | [-> | [-> | [-> | [-> | [-> | [-> | [->
                     | [-> | [-> | ->]]]]]]]]]]];
    cbn [Z.ltb Z.eqb Z.compare Pos.compare Pos.compare_cont Pos.eqb orb]
      in *;
    destruct (isLeapYear y);
    repeat split; try lia; intros ?; Z.div_mod_to_equations; lia.
Qed.

Lemma daysFromCivil_mono (y1 m1 d1 y2 m2 d2 : Z) :
  validDate (y1, m1, d1) -> validDate (y2, m2, d2) ->
  dateBefore (y1, m1, d1) (y2, m2, d2) ->
  daysFromCivil y1 m1 d1 < daysFromCivil y2 m2 d2.
Proof.
  intros V1 V2 Hlt.
  pose proof (validDate_marchMonth y1 m1 d1 V1) as (Hp1 & Hn1 & Hf1).
  pose proof (validDate_marchMonth y2 m2 d2 V2) as (Hp2 & Hn2 & Hf2).
  unfold validDate, dateBefore in *. destruct V1 as [Hm1 Hd1], V2 as [Hm2 Hd2].
  rewrite !daysFromCivil_march. fold (marchMonth m1) (marchMonth m2).
  set (p1 := marchMonth m1) in *. set (p2 := marchMonth m2) in *.
  assert (Ep1 : p1 = if 2 <? m1 then m1 - 3 else m1 + 9) by reflexivity.
  assert (Ep2 : p2 = if 2 <? m2 then m2 - 3 else m2 + 9) by reflexivity.
  clearbody p1 p2.
  pose proof (daysBeforeMarch_step (y1 - 1)) as S1.
  replace (y1 - 1 + 1) with y1 in S1 by lia.
  assert (S1lo : daysBeforeMarch (y1 - 1) + 365 <= daysBeforeMarch y1)
    by (destruct (isLeapYear y1); lia).
  assert (Hstart : forall a b, 0 <= a -> a < b ->
            (153 * (a + 1) + 2) / 5 <= (153 * b + 2) / 5)
    by (intros a b Ha Hab; Z.div_mod_to_equations; lia).
  assert (Hs0 : 0 <= (153 * p2 + 2) / 5)
    by (Z.div_mod_to_equations; lia).
  assert (Hs1 : (153 * p1 + 2) / 5 + d1 <= 366).
  { destruct (Z.eq_dec p1 11) as [E|E].
    - specialize (Hf1 E). destruct (isLeapYear y1); lia.
    - specialize (Hn1 ltac:(lia)).
      assert ((153 * (p1 + 1) + 2) / 5 <= 337)
        by (Z.div_mod_to_equations; lia).
      lia. }
  destruct (m1 <=? 2) eqn:E1, (m2 <=? 2) eqn:E2;
    try apply Z.leb_le in E1; try apply Z.leb_gt in E1;
    try apply Z.leb_le in E2; try apply Z.leb_gt in E2;
    destruct (2 <? m1) eqn:F1; try (apply Z.ltb_lt in F1; lia);
    destruct (2 <? m2) eqn:F2; try (apply Z.ltb_lt in F2; lia);
    try (apply Z.ltb_ge in F1; lia); try (apply Z.ltb_ge in F2; lia).
  - (* both in January or February *)
    destruct (Z.lt_trichotomy y1 y2) as [Hy | [Hy | Hy]]; [| |lia].
    + pose proof (daysBeforeMarch_mono (y1 - 1) (y2 - 1) ltac:(lia)) as M.
      destruct (Z.eq_dec p1 11) as [E|E].
      * specialize (Hf1 E).
        destruct (Z.eq_dec (y1 + 1) y2) as [Ey|Ey].
        -- subst y2. replace (y1 + 1 - 1) with y1 in * by lia.
           destruct (isLeapYear y1); lia.
        -- pose proof (daysBeforeMarch_mono y1 (y2 - 1) ltac:(lia)).
           destruct (isLeapYear y1); lia.
      * specialize (Hn1 ltac:(lia)).
        assert ((153 * (p1 + 1) + 2) / 5 <= 337)
          by (Z.div_mod_to_equations; lia).
        lia.
    + subst y2. destruct Hlt as [Hlt | [_ Hlt]]; [lia|].
      destruct Hlt as [Hlt | [Em Hlt]].
      * specialize (Hn1 ltac:(lia)).
        pose proof (Hstart p1 p2 ltac:(lia) ltac:(lia)). lia.
      * subst m2. replace p2 with p1 by lia. lia.
  - (* the first in January or February, the second later in its year *)
    destruct (Z.lt_trichotomy y1 y2) as [Hy | [Hy | Hy]]; [| |lia].
    + pose proof (daysBeforeMarch_mono (y1 - 1) y2 ltac:(lia)) as M.
      destruct (Z.eq_dec p1 11) as [E|E].
      * specialize (Hf1 E).
        destruct (Z.eq_dec (y1 + 1) y2) as [Ey|Ey].
        -- subst y2. pose proof (daysBeforeMarch_step y1).
           destruct (isLeapYear y1), (isLeapYear (y1 + 1)); lia.
        -- pose proof (daysBeforeMarch_mono y1 y2 ltac:(lia)).
           destruct (isLeapYear y1); lia.
      * specialize (Hn1 ltac:(lia)).
        assert ((153 * (p1 + 1) + 2) / 5 <= 337)
          by (Z.div_mod_to_equations; lia).
        lia.
    + subst y2.
      destruct (Z.eq_dec p1 11) as [E|E].
      * specialize (Hf1 E). destruct (isLeapYear y1); lia.
      * specialize (Hn1 ltac:(lia)).
        assert ((153 * (p1 + 1) + 2) / 5 <= 337)
          by (Z.div_mod_to_equations; lia).
        lia.
  - (* the first in March or later, the second in January or February *)
    destruct (Z.lt_trichotomy y1 y2) as [Hy | [Hy | Hy]]; [| |lia].
    + destruct (Z.eq_dec (y1 + 1) y2) as [Ey|Ey].
      * subst y2. replace (y1 + 1 - 1) with y1 by lia.
        specialize (Hn1 ltac:(lia)).
        pose proof (Hstart p1 p2 ltac:(lia) ltac:(lia)). lia.
      * pose proof (daysBeforeMarch_mono y1 (y2 - 1) ltac:(lia)) as M.
        specialize (Hn1 ltac:(lia)).
        assert ((153 * (p1 + 1) + 2) / 5 <= 337)
          by (Z.div_mod_to_equations; lia).
        lia.
    + subst y2. destruct Hlt as [Hlt | [_ Hlt]]; lia.
  - (* both in March or later *)
    destruct (Z.lt_trichotomy y1 y2) as [Hy | [Hy | Hy]]; [| |lia].
    + pose proof (daysBeforeMarch_mono y1 y2 ltac:(lia)) as M.
      specialize (Hn1 ltac:(lia)).
      assert ((153 * (p1 + 1) + 2) / 5 <= 337)
        by (Z.div_mod_to_equations; lia).
      lia.
    + subst y2. destruct Hlt as [Hlt | [_ Hlt]]; [lia|].
      destruct Hlt as [Hlt | [Em Hlt]].
      * specialize (Hn1 ltac:(lia)).
        pose proof (Hstart p1 p2 ltac:(lia) ltac:(lia)). lia.
      * subst m2. replace p2 with p1 by lia. lia.
Qed.

Lemma dateBefore_total (a b : Z * Z * Z) :
  dateBefore a b \/ a = b \/ dateBefore b a.
Proof.
  destruct a as [[y1 m1] d1], b as [[y2 m2] d2]. unfold dateBefore.
  destruct (Z.lt_trichotomy y1 y2) as [H | [H | H]];
    [left; lia | | right; right; lia].
  destruct (Z.lt_trichotomy m1 m2) as [Hm | [Hm | Hm]];
    [left; lia | | right; right; lia].
  destruct (Z.lt_trichotomy d1 d2) as [Hd | [Hd | Hd]];
    [left; lia | | right; right; lia].
  right. left. congruence.
Qed.

Lemma civilFromDays_valid (d : Z) : validDate (civilFromDays d).
Proof.
  pose proof (civilFromDays_spec d) as S.
  destruct (civilFromDays d) as [[y m] dd]. unfold validDate. tauto.
Qed.

Lemma daysFromCivil_civilFromDays (d : Z) :
  let '(y, m, dd) := civilFromDays d in daysFromCivil y m dd = d.
Proof.
  pose proof (civilFromDays_spec d) as S.
  destruct (civilFromDays d) as [[y m] dd]. tauto.
Qed.

(** Later days have later dates. *)
Lemma civilFromDays_mono (d1 d2 : Z) :
  d1 < d2 -> dateBefore (civilFromDays d1) (civilFromDays d2).
Proof.
  intros Hlt.
  pose proof (civilFromDays_valid d1) as V1.
  pose proof (civilFromDays_valid d2) as V2.
  pose proof (daysFromCivil_civilFromDays d1) as R1.
  pose proof (daysFromCivil_civilFromDays d2) as R2.
  destruct (dateBefore_total (civilFromDays d1) (civilFromDays d2))
    as [H | [H | H]]; [assumption | |].
  - rewrite H in R1. destruct (civilFromDays d2) as [[y m] dd]. lia.
  - destruct (civilFromDays d1) as [[y1 m1] dd1],
             (civilFromDays d2) as [[y2 m2] dd2].
    pose proof (daysFromCivil_mono y2 m2 dd2 y1 m1 dd1 V2 V1 H). lia.
Qed.

(** The date of the day of a valid date is that date. *)
Lemma civilFromDays_daysFromCivil (y m d : Z) :
  validDate (y, m, d) -> civilFromDays (daysFromCivil y m d) = (y, m, d).
Proof.
  intros V.
  pose proof (civilFromDays_valid (daysFromCivil y m d)) as V'.
  pose proof (daysFromCivil_civilFromDays (daysFromCivil y m d)) as R.
  destruct (civilFromDays (daysFromCivil y m d)) as [[y' m'] d'].
  destruct (dateBefore_total (y', m', d') (y, m, d)) as [H | [H | H]];
    [|assumption|].
  - pose proof (daysFromCivil_mono y' m' d' y m d V' V H). lia.
  - pose proof (daysFromCivil_mono y m d y' m' d' V V' H). lia.
Qed.

Lemma yearOfDay_mono (d1 d2 : Z) : d1 <= d2 -> yearOfDay d1 <= yearOfDay d2.
Proof.
  intros Hle. destruct (Z.eq_dec d1 d2) as [->|Hne]; [lia|].
  pose proof (civilFromDays_mono d1 d2 ltac:(lia)) as H.
  unfold yearOfDay.
  destruct (civilFromDays d1) as [[y1 m1] dd1],
           (civilFromDays d2) as [[y2 m2] dd2].
  unfold dateBefore in H. simpl. lia.
Qed.

(** ** The order of the texts of the days *)

Lemma twoDigits_next (v : Z) :
  0 <= v < 99 -> strLt (twoDigits v) (twoDigits (v + 1)).
Proof.
  intros Hv.
  assert (H : forallb nextTwoDigitsGreater (dayRange 0 99) = true)
    by (vm_compute; reflexivity).
  rewrite forallb_forall in H. apply (H v), dayRange_In. lia.
Qed.

Lemma twoDigits_lt (a b : Z) :
  0 <= a -> a < b -> b <= 99 -> strLt (twoDigits a) (twoDigits b).
Proof.
  intros Ha Hab Hb. replace b with (a + 1 + (b - a - 1)) in * by lia.
  assert (Hn : 0 <= b - a - 1) by lia.
  revert Hb. generalize (b - a - 1) Hn. clear Hab Hn b.
  apply (natlike_ind (fun n => a + 1 + n <= 99 ->
                               strLt (twoDigits a) (twoDigits (a + 1 + n)))).
  - intros Hb. rewrite Z.add_0_r. apply twoDigits_next. lia.
  - intros n Hn IH Hb.
    apply (strLt_trans _ (twoDigits (a + 1 + n))); [apply IH; lia|].
    replace (a + 1 + Z.succ n) with (a + 1 + n + 1) by lia.
    apply twoDigits_next. lia.
Qed.

Lemma fourDigits_split (y : Z) :
  0 <= y <= 9999 ->
  fourDigits y = twoDigits (y / 100) ++ twoDigits (y mod 100).
Proof.
  intros Hy.
  assert (H : forallb fourDigitsSplit (dayRange 0 (Z.to_nat 10000)) = true)
    by (vm_compute; reflexivity).
  rewrite forallb_forall in H. apply String.eqb_eq, (H y), dayRange_In. lia.
Qed.

Lemma compare_append_same (a s t : string) :
  String.compare (a ++ s) (a ++ t) = String.compare s t.
Proof.
  induction a as [|c a IH]; [reflexivity|]. simpl.
  now rewrite ascii_compare_refl.
Qed.

Lemma strLt_append_same (a s t : string) :
  strLt s t -> strLt (a ++ s) (a ++ t).
Proof. unfold strLt, String.ltb. now rewrite compare_append_same. Qed.

Lemma strLt_append_lt (a b s t : string) :
  String.length a = String.length b -> strLt a b -> strLt (a ++ s) (b ++ t).
Proof.
  unfold strLt, String.ltb. revert b.
  induction a as [|c a IH]; intros [|c' b] Hlen Hlt; simpl in *;
    try discriminate.
  destruct (Ascii.compare c c'); try discriminate; [|reflexivity].
  apply IH; [lia | assumption].
Qed.

Lemma fourDigits_lt (a b : Z) :
  0 <= a -> a < b -> b <= 9999 -> strLt (fourDigits a) (fourDigits b).
Proof.
  intros Ha Hab Hb. rewrite !fourDigits_split by lia.
  assert (Hq : a / 100 < b / 100 \/ (a / 100 = b / 100 /\ a mod 100 < b mod 100))
    by (Z.div_mod_to_equations; lia).
  destruct Hq as [Hq | [Hq Hr]].
  - apply strLt_append_lt.
    + rewrite !twoDigits_length; [reflexivity | |];
        Z.div_mod_to_equations; lia.
    + apply twoDigits_lt; Z.div_mod_to_equations; lia.
  - rewrite Hq. apply strLt_append_same.
    apply twoDigits_lt; Z.div_mod_to_equations; lia.
Qed.

Lemma fourDigits_length (y : Z) :
  0 <= y <= 9999 -> String.length (fourDigits y) = 4%nat.
Proof.
  intros Hy. pose proof (fourDigits_checked y Hy) as H.
  unfold fourDigitsChecked in H. apply andb_true_iff in H.
  destruct H as [H _]. now apply Nat.eqb_eq in H.
Qed.

(** The text of a day of the years 0 to 9999. *)
Lemma dayString_parts (d : Z) :
  0 <= yearOfDay d <= 9999 ->
  dayString d
  = let '(y, m, dd) := civilFromDays d in
    fourDigits y ++ "-" ++ twoDigits m ++ "-" ++ twoDigits dd.
Proof.
  unfold yearOfDay, dayString, toISODate. rewrite Day_mul.
  destruct (civilFromDays d) as [[y m] dd]. simpl fst. intros Hy.
  unfold isoYear.
  replace ((0 <=? y) && (y <=? 9999))%bool with true
    by (symmetry; apply andb_true_iff; split; apply Z.leb_le; lia).
  reflexivity.
Qed.

(** Over the years 0 to 9999 the texts of the days are in the order of
    the days. *)
Lemma dayString_mono (d1 d2 : Z) :
  d1 < d2 -> 0 <= yearOfDay d1 -> yearOfDay d2 <= 9999 ->
  strLt (dayString d1) (dayString d2).
Proof.
  intros Hlt Hy1 Hy2.
  pose proof (yearOfDay_mono d1 d2 ltac:(lia)) as Hy.
  rewrite !dayString_parts by lia.
  pose proof (civilFromDays_mono d1 d2 Hlt) as Hb.
  pose proof (civilFromDays_valid d1) as V1.
  pose proof (civilFromDays_valid d2) as V2.
  unfold yearOfDay in *.
  destruct (civilFromDays d1) as [[y1 m1] dd1],
           (civilFromDays d2) as [[y2 m2] dd2].
  simpl fst in *. unfold validDate, dateBefore in *.
  destruct V1 as [Hm1 Hd1], V2 as [Hm2 Hd2].
  pose proof (daysInMonth_le_31 y1 m1). pose proof (daysInMonth_le_31 y2 m2).
  destruct Hb as [Hb | [-> Hb]].
  - apply strLt_append_lt; [|apply fourDigits_lt; lia].
    now rewrite !fourDigits_length by lia.
  - apply strLt_append_same.
    change ("-" ++ twoDigits m1 ++ "-" ++ twoDigits dd1)
      with ("-" ++ (twoDigits m1 ++ "-" ++ twoDigits dd1)).
    change ("-" ++ twoDigits m2 ++ "-" ++ twoDigits dd2)
      with ("-" ++ (twoDigits m2 ++ "-" ++ twoDigits dd2)).
    apply strLt_append_same.
    destruct Hb as [Hb | [-> Hb]].
    + apply strLt_append_lt; [|apply twoDigits_lt; lia].
      now rewrite !twoDigits_length by lia.
    + apply strLt_append_same. apply (strLt_append_same "-").
      apply twoDigits_lt; lia.
Qed.

Lemma dayString_le_days (d1 d2 : Z) :
  0 <= yearOfDay d2 -> yearOfDay d1 <= 9999 ->
  strLe (dayString d1) (dayString d2) -> d1 <= d2.
Proof.
  intros Hy2 Hy1 Hle. destruct (Z_le_gt_dec d1 d2) as [H|H]; [assumption|].
  exfalso. pose proof (dayString_mono d2 d1 ltac:(lia) Hy2 Hy1) as Hlt.
  apply (strLt_irrefl (dayString d2)).
  unfold strLt, strLe, String.ltb, String.leb in *.
  destruct (String.compare (dayString d2) (dayString d1)) eqn:E;
    try discriminate.
  rewrite String.compare_antisym, E in Hle. discriminate.
Qed.

(** ** Reading the text of a day back *)

Lemma split_nonempty (sep : ascii) (s : string) : split sep s <> [].
Proof.
  destruct s as [|c r]; simpl; [discriminate|].
  destruct (Ascii.eqb c sep); [discriminate|].
  destruct (split sep r); discriminate.
Qed.

(** Joining the parts of a text with the separator gives the text. *)
Lemma split_concat (sep : ascii) (s : string) :
  String.concat (String sep "") (split sep s) = s.
Proof.
  induction s as [|c r IH]; [reflexivity|]. simpl.
  pose proof (split_nonempty sep r) as Hne.
  destruct (Ascii.eqb c sep) eqn:E.
  - apply Ascii.eqb_eq in E. subst c.
    destruct (split sep r) as [|w ws]; [contradiction|].
    simpl in *. now rewrite IH.
  - destruct (split sep r) as [|w ws]; [contradiction|].
    destruct ws as [|w' ws']; simpl in *; now rewrite <- IH.
Qed.

Lemma isDigit_value (c : ascii) :
  isDigit c = true ->
  (48 <= nat_of_ascii c <= 57)%nat
  /\ digitValue 10 c = Some (Z.of_nat (nat_of_ascii c) - 48).
Proof.
  unfold isDigit, digitValue. rewrite andb_true_iff, !Nat.leb_le.
  intros Hc. split; [assumption|].
  replace ((48 <=? Z.of_nat (nat_of_ascii c))
           && (Z.of_nat (nat_of_ascii c) <=? 57))%bool with true
    by (symmetry; apply andb_true_iff; split; apply Z.leb_le; lia).
  replace (Z.of_nat (nat_of_ascii c) - 48 <? 10) with true
    by (symmetry; apply Z.ltb_lt; lia).
  reflexivity.
Qed.

Lemma twoDigits_of_chars (c1 c2 : ascii) :
  isDigit c1 = true -> isDigit c2 = true ->
  let v := 10 * (Z.of_nat (nat_of_ascii c1) - 48)
           + (Z.of_nat (nat_of_ascii c2) - 48) in
  0 <= v <= 99 /\ twoDigits v = String c1 (String c2 "").
Proof.
  intros H1 H2 v.
  destruct (isDigit_value c1 H1) as [B1 _], (isDigit_value c2 H2) as [B2 _].
  assert (Hv : 0 <= v <= 99) by (unfold v; lia).
  split; [exact Hv|]. rewrite twoDigits_shape by assumption.
  replace (v / 10) with (Z.of_nat (nat_of_ascii c1) - 48)
    by (unfold v; Z.div_mod_to_equations; lia).
  replace (v mod 10) with (Z.of_nat (nat_of_ascii c2) - 48)
    by (unfold v; Z.div_mod_to_equations; lia).
  now rewrite !digitChar_of_char by lia.
Qed.

Lemma two_digit_text (s : string) :
  String.length s = 2%nat -> digitsOnly s = true ->
  exists v, 0 <= v <= 99 /\ digitsPrefix 10 s None = Some v
            /\ s = twoDigits v.
Proof.
  destruct s as [|c1 [|c2 [|c3 r]]]; try discriminate. intros _.
  unfold digitsOnly. cbn [list_ascii_of_string forallb digitsPrefix].
  rewrite !andb_true_iff.
  intros (H1 & H2 & _).
  destruct (twoDigits_of_chars c1 c2 H1 H2) as [Hv Ht].
  eexists. split; [exact Hv|]. split; [|symmetry; exact Ht].
  destruct (isDigit_value c1 H1) as [_ ->], (isDigit_value c2 H2) as [_ ->].
  first [reflexivity | f_equal; lia].
Qed.

Lemma four_digit_text (s : string) :
  String.length s = 4%nat -> digitsOnly s = true ->
  exists y, 0 <= y <= 9999 /\ digitsPrefix 10 s None = Some y
            /\ s = fourDigits y.
Proof.
  destruct s as [|c1 [|c2 [|c3 [|c4 [|c5 r]]]]]; try discriminate. intros _.
  unfold digitsOnly. cbn [list_ascii_of_string forallb digitsPrefix].
  rewrite !andb_true_iff.
  intros (H1 & H2 & H3 & H4 & _).
  destruct (twoDigits_of_chars c1 c2 H1 H2) as [Ha Hta].
  destruct (twoDigits_of_chars c3 c4 H3 H4) as [Hb Htb].
  set (a := 10 * (Z.of_nat (nat_of_ascii c1) - 48)
            + (Z.of_nat (nat_of_ascii c2) - 48)) in *.
  set (b := 10 * (Z.of_nat (nat_of_ascii c3) - 48)
            + (Z.of_nat (nat_of_ascii c4) - 48)) in *.
  exists (100 * a + b). split; [lia|]. split.
  - destruct (isDigit_value c1 H1) as [_ ->], (isDigit_value c2 H2) as [_ ->],
             (isDigit_value c3 H3) as [_ ->], (isDigit_value c4 H4) as [_ ->].
    first [reflexivity | f_equal; unfold a, b; lia].
  - rewrite fourDigits_split by lia.
    replace ((100 * a + b) / 100) with a by (Z.div_mod_to_equations; lia).
    replace ((100 * a + b) mod 100) with b by (Z.div_mod_to_equations; lia).
    now rewrite Hta, Htb.
Qed.

(** A text [new Date] reads as a day is the text [toISOString] writes
    for that day, a day of the years 0 to 9999. *)
Lemma Date_parse_inv (s : string) (t : Z) :
  Date_parse s = Some t ->
  exists p, s = dayString p /\ t = p * msPerDay /\ 0 <= yearOfDay p <= 9999.
Proof.
  unfold Date_parse. pose proof (split_concat "-" s) as Hs.
  destruct (split "-" s) as [|ys [|ms [|ds [|x r]]]]; try discriminate.
  destruct (_ && _)%bool eqn:Hc; [|discriminate].
  rewrite !andb_true_iff, !Nat.eqb_eq in Hc.
  destruct Hc as (((((L4 & L2) & L2') & D4) & D2) & D2').
  destruct (four_digit_text ys L4 D4) as (y & Hy & -> & ->).
  destruct (two_digit_text ms L2 D2) as (m & Hm & -> & ->).
  destruct (two_digit_text ds L2' D2') as (d & Hd & -> & ->).
  destruct (_ && _)%bool eqn:Hv; [|discriminate].
  rewrite !andb_true_iff, !Z.leb_le in Hv.
  intros E. injection E as <-.
  assert (V : validDate (y, m, d)) by (unfold validDate; lia).
  pose proof (civilFromDays_daysFromCivil y m d V) as Hcivil.
  exists (daysFromCivil y m d).
  assert (Hyear : yearOfDay (daysFromCivil y m d) = y)
    by (unfold yearOfDay; now rewrite Hcivil).
  split; [|split; [reflexivity | lia]].
  rewrite dayString_parts by lia. rewrite Hcivil.
  rewrite <- Hs. reflexivity.
Qed.

(** ** The longest streak over a run of the sorted completions *)

Section LongestLoop.
Variable host : Host.
Variable h : Habit.

Lemma longestLoop_mono (rest : list string) (p : string) (l t : Z) :
  let '(l', t') := longestLoop host h (Some p) rest l t in
  Z.max l t <= Z.max l' t'.
Proof.
  revert p l t. induction rest as [|y r IH]; intros p l t; simpl; [lia|].
  destruct (allScheduledDaysCompleted host h p y).
  - specialize (IH y l (t + 1)).
    destruct (longestLoop host h (Some y) r l (t + 1)). lia.
  - specialize (IH y (Z.max l t) 1).
    destruct (longestLoop host h (Some y) r (Z.max l t) 1). lia.
Qed.

Lemma longestLoop_run (M B : list string) (x : string) (l t : Z) :
  allPass host h x M = true ->
  let '(l', t') := longestLoop host h (Some x) (M ++ B) l t in
  t + Z.of_nat (List.length M) <= Z.max l' t'.
Proof.
  revert x t. induction M as [|y M IH]; intros x t Hp.
  - simpl. pose proof (longestLoop_mono B x l t) as H.
    destruct (longestLoop host h (Some x) B l t). lia.
  - simpl in Hp. apply andb_true_iff in Hp. destruct Hp as [Hxy Hp].
    simpl app. cbn [longestLoop]. rewrite Hxy.
    specialize (IH y (t + 1) Hp).
    destruct (longestLoop host h (Some y) (M ++ B) l (t + 1)).
    cbn [List.length]. lia.
Qed.

(** A run of [1 + length M] neighbours that pass the test, anywhere in the
    array, is a lower bound of the longest streak. *)
Lemma longestLoop_segment (A M B : list string) (x : string)
    (prev : option string) (l t : Z) :
  0 <= t ->
  allPass host h x M = true ->
  let '(l', t') := longestLoop host h prev (A ++ x :: M ++ B) l t in
  1 + Z.of_nat (List.length M) <= Z.max l' t'.
Proof.
  intros Ht Hp. revert prev l t Ht.
  induction A as [|a A IH]; intros prev l t Ht.
  - simpl app. cbn [longestLoop].
    destruct prev as [p|];
      [destruct (allScheduledDaysCompleted host h p x)|].
    + pose proof (longestLoop_run M B x l (t + 1) Hp) as H.
      destruct (longestLoop host h (Some x) (M ++ B) l (t + 1)). lia.
    + pose proof (longestLoop_run M B x (Z.max l t) 1 Hp) as H.
      destruct (longestLoop host h (Some x) (M ++ B) (Z.max l t) 1). lia.
    + pose proof (longestLoop_run M B x l 1 Hp) as H.
      destruct (longestLoop host h (Some x) (M ++ B) l 1). lia.
  - simpl app. cbn [longestLoop].
    destruct prev as [p|];
      [destruct (allScheduledDaysCompleted host h p a)|];
      apply IH; lia.
Qed.
End LongestLoop.

(** A sorted array splits into the elements before a range of the order,
    those in it and those after it. *)
Lemma sorted_range_split (lo hi : string) (S : list string) :
  StronglySorted strLe S ->
  exists A M B,
    S = (A ++ M ++ B)%list
    /\ Forall (fun x => textBetween lo hi x = false) A
    /\ Forall (fun x => textBetween lo hi x = true) M
    /\ Forall (fun x => textBetween lo hi x = false) B.
Proof.
  induction 1 as [|s S Hs IH Hall].
  - exists [], [], []. repeat split; constructor.
  - destruct IH as (A & M & B & E & HA & HM & HB).
    destruct (textBetween lo hi s) eqn:Ps.
    2: { exists (s :: A), M, B. subst S. repeat split; try assumption.
         constructor; assumption. }
    destruct A as [|a A].
    { exists [], (s :: M), B. subst S. repeat split; try assumption;
        constructor; assumption. }
    assert (Hhi : String.leb a hi = false).
    { apply Forall_cons_iff in HA. destruct HA as [Pa _].
      rewrite Forall_forall in Hall.
      assert (Hsa : strLe s a) by (apply Hall; subst S; now left).
      unfold textBetween in *. apply andb_true_iff in Ps.
      destruct Ps as [P1 P2]. apply andb_false_iff in Pa.
      destruct Pa as [Pa | Pa]; [|assumption].
      pose proof (strLe_trans lo s a P1 Hsa) as H.
      unfold strLe in H. congruence. }
    destruct M as [|m M].
    + exists [], [s], ((a :: A) ++ B)%list. subst S.
      split; [reflexivity|]. split; [constructor|].
      split; [constructor; [assumption | constructor]|].
      apply Forall_app. split; assumption.
    + exfalso. subst S.
      apply StronglySorted_app_inv in Hs. destruct Hs as (_ & _ & Hs).
      assert (Ham : strLe a m).
      { apply Hs; [now left | apply in_or_app; left; now left]. }
      apply Forall_cons_iff in HM. destruct HM as [Pm _].
      unfold textBetween in Pm. apply andb_true_iff in Pm.
      destruct Pm as [_ Pm].
      pose proof (strLe_trans a m hi Ham Pm) as H.
      unfold strLe in H. congruence.
Qed.

Lemma strLe_refl (a : string) : strLe a a.
Proof. unfold strLe, String.leb. now rewrite string_compare_refl. Qed.

Lemma strLt_strLe (a b : string) : strLt a b -> strLe a b.
Proof.
  unfold strLt, strLe, String.ltb, String.leb.
  now destruct (String.compare a b).
Qed.

Lemma strLe_strLt_false (a b : string) : strLe a b -> strLt b a -> False.
Proof.
  unfold strLt, strLe, String.ltb, String.leb.
  rewrite (String.compare_antisym a b).
  now destruct (String.compare b a).
Qed.

(** In a sorted run the test passes between all neighbours when it
    passes between every two texts of the run that have none of the texts
    [K] strictly between them, and the run holds every text of [K] that is
    not before it. *)
Lemma allPass_sorted (host : Host) (h : Habit) (K : string -> Prop)
    (lo hi : string) :
  (forall u v : string,
      textBetween lo hi u = true -> textBetween lo hi v = true ->
      strLe u v ->
      (forall k, K k -> strLe k u \/ strLe v k) ->
      allScheduledDaysCompleted host h u v = true) ->
  forall (M : list string) (x : string),
    StronglySorted strLe (x :: M) ->
    Forall (fun y => textBetween lo hi y = true) (x :: M) ->
    (forall k, K k -> strLe k x \/ In k M) ->
    allPass host h x M = true.
Proof.
  intros Hpass. induction M as [|y M IH]; intros x Hs HP HK; [reflexivity|].
  simpl. apply StronglySorted_inv in Hs. destruct Hs as [Hs Hx].
  pose proof (Forall_inv Hx) as Hxy.
  apply Forall_cons_iff in HP. destruct HP as [Px HP].
  pose proof (Forall_inv HP) as Py.
  pose proof Hs as Hs'. apply StronglySorted_inv in Hs'.
  destruct Hs' as [_ Hy]. rewrite Forall_forall in Hy.
  apply andb_true_iff. split.
  - apply Hpass; try assumption. intros k Hk.
    destruct (HK k Hk) as [H | [<- | H]].
    + now left.
    + right. apply strLe_refl.
    + right. now apply Hy.
  - apply IH; try assumption. intros k Hk.
    destruct (HK k Hk) as [H | [<- | H]].
    + left. now apply (strLe_trans k x y).
    + left. apply strLe_refl.
    + now right.
Qed.

(** ** The current streak and the longest streak *)

Section RunTest.
Variable host : Host.
Variable h : Habit.
Variables a b : Z.
Variable ds : list Z.
Hypothesis east : 0 <= LocalTZA host < msPerDay.
Hypothesis a_le_b : a <= b.
Hypothesis year_a : 1000 <= yearOfDay a.
Hypothesis year_b : yearOfDay b <= 9999.
Hypothesis counted :
  forall d, a <= d <= b ->
    isActiveOnDay host h (DayNumber (weekDayOfDay d)) = true -> In d ds.

(** Between two texts of the range that have no counted day strictly
    between them the run test passes. *)
Lemma run_test_passes (u v : string) :
  textBetween (dayString a) (dayString b) u = true ->
  textBetween (dayString a) (dayString b) v = true ->
  strLe u v ->
  (forall k, (exists d, In d ds /\ k = dayString d) ->
             strLe k u \/ strLe v k) ->
  allScheduledDaysCompleted host h u v = true.
Proof.
  intros Pu Pv Huv HK.
  pose proof (yearOfDay_mono a b a_le_b) as Hyab.
  destruct (Date_parse u) as [tu|] eqn:Eu;
    [|unfold allScheduledDaysCompleted; now rewrite Eu].
  destruct (Date_parse v) as [tv|] eqn:Ev;
    [|unfold allScheduledDaysCompleted; now rewrite Eu, Ev].
  destruct (Date_parse_inv u tu Eu) as (p & -> & -> & Hyp).
  destruct (Date_parse_inv v tv Ev) as (c & -> & -> & Hyc).
  apply (allScheduledDaysCompleted_east host h _ _ p c east Eu Ev).
  intros d Hd.
  destruct (isActiveOnDay host h (DayNumber (weekDayOfDay d))) eqn:Es;
    [exfalso | reflexivity].
  unfold textBetween in Pu, Pv. apply andb_true_iff in Pu, Pv.
  destruct Pu as [Pu _], Pv as [_ Pv].
  assert (Hap : a <= p) by (apply dayString_le_days; [lia | lia | exact Pu]).
  assert (Hcb : c <= b) by (apply dayString_le_days; [lia | lia | exact Pv]).
  pose proof (yearOfDay_mono a d ltac:(lia)).
  pose proof (yearOfDay_mono d b ltac:(lia)).
  assert (Hin : In d ds) by (apply counted; [lia | assumption]).
  destruct (HK (dayString d)) as [Hk | Hk]; [now exists d| |].
  - pose proof (dayString_le_days d p ltac:(lia) ltac:(lia) Hk). lia.
  - pose proof (dayString_le_days c d ltac:(lia) ltac:(lia) Hk). lia.
Qed.
End RunTest.

(** On or east of UTC the current streak is at most the longest streak. *)
Lemma calculateStreak_le_computeLongestStreak (host : Host) (h : Habit) :
  0 <= LocalTZA host < msPerDay ->
  1000 <= yearOfDay (Day (LocalTime host (now host)) - 364) ->
  yearOfDay (Day (LocalTime host (now host))) <= 9999 ->
  calculateStreak host h <= computeLongestStreak host h.
Proof.
  intros Hz Hlow Hhigh. set (T := Day (LocalTime host (now host))) in *.
  rewrite calculateStreak_walk. unfold streakWalk.
  destruct (streakLoop_countedRun host h T 365 (streakStart host) [] T
              (countedRun_start host h)) as (ds & top & Hrun).
  pose proof (streakLoop_bounds host h 365 (streakStart host)) as Hb.
  cbv zeta in Hb. change (daysChecked (streakStart host)) with 0 in Hb.
  set (w := streakLoop host 365 h (streakStart host)) in *.
  unfold countedRun in Hrun.
  set (D := Day (LocalTime host (currentDate w))) in *.
  destruct Hrun as (HD & Hn & Hnd & Hlen & Hin & Hall & Htop & _ & Hempty).
  pose proof (computeLongestStreak_bounds host h) as [Hlong _].
  destruct ds as [|d0 ds0] eqn:Eds; [simpl in Hlen; lia|].
  rewrite <- Eds in *. clear Hempty.
  assert (Hab : D + 1 <= top).
  { destruct (Hin d0) as [H _]; [rewrite Eds; now left | lia]. }
  assert (Hya : 1000 <= yearOfDay (D + 1)).
  { pose proof (yearOfDay_mono (T - 364) (D + 1) ltac:(lia)). lia. }
  assert (Hyb : yearOfDay top <= 9999).
  { pose proof (yearOfDay_mono top T ltac:(lia)). lia. }
  assert (Hfmt : forall d, D + 1 <= d <= top -> formatDay d = dayString d).
  { intros d Hd. apply formatDay_dayString.
    pose proof (yearOfDay_mono (D + 1) d ltac:(lia)).
    pose proof (yearOfDay_mono d top ltac:(lia)). lia. }
  unfold computeLongestStreak.
  set (S := StringSort.sort (completions h)).
  assert (Hsorted : StronglySorted strLe S).
  { apply Sorted_StronglySorted; [exact strLe_trans|].
    apply StringSort.Sorted_sort. }
  destruct (sorted_range_split (dayString (D + 1)) (dayString top) S Hsorted)
    as (A & M & B & ES & HA & HM & HB).
  assert (HKM : forall d, In d ds -> In (dayString d) M).
  { intros d Hd. destruct (Hin d Hd) as [Hr Hc].
    rewrite Hfmt in Hc by lia.
    assert (HinS : In (dayString d) S) by (now apply sort_In).
    assert (HP : textBetween (dayString (D + 1)) (dayString top)
                   (dayString d) = true).
    { unfold textBetween. apply andb_true_iff.
      pose proof (yearOfDay_mono (D + 1) d ltac:(lia)).
      pose proof (yearOfDay_mono d top ltac:(lia)).
      split.
      - destruct (Z.eq_dec (D + 1) d) as [<-|Hne]; [apply strLe_refl|].
        apply strLt_strLe, dayString_mono; lia.
      - destruct (Z.eq_dec d top) as [->|Hne]; [apply strLe_refl|].
        apply strLt_strLe, dayString_mono; lia. }
    rewrite ES in HinS. apply in_app_or in HinS.
    rewrite Forall_forall in HA, HB.
    destruct HinS as [H | H]; [rewrite (HA _ H) in HP; discriminate|].
    apply in_app_or in H.
    destruct H as [H | H]; [assumption|].
    rewrite (HB _ H) in HP. discriminate. }
  assert (HlenM : Z.of_nat (List.length ds) <= Z.of_nat (List.length M)).
  { apply inj_le. rewrite <- (length_map formatDay ds).
    apply NoDup_incl_length.
    - apply NoDup_map_injective; [apply formatDay_inj | assumption].
    - intros k Hk. apply in_map_iff in Hk. destruct Hk as (d & <- & Hd).
      destruct (Hin d Hd) as [Hr _]. rewrite Hfmt by lia. now apply HKM. }
  destruct M as [|x M0].
  { rewrite Eds in HlenM. simpl in HlenM. lia. }
  assert (HsM : StronglySorted strLe (x :: M0)).
  { rewrite ES in Hsorted.
    apply StronglySorted_app_inv in Hsorted.
    destruct Hsorted as (_ & Hsorted & _).
    apply StronglySorted_app_inv in Hsorted. tauto. }
  assert (Hpass : allPass host h x M0 = true).
  { apply (allPass_sorted host h
             (fun k => exists d, In d ds /\ k = dayString d)
             (dayString (D + 1)) (dayString top)); try assumption.
    - intros u v Pu Pv Huv HK.
      apply (run_test_passes host h (D + 1) top ds); try assumption.
      intros d Hd Hs. apply Hall; [lia | assumption].
    - intros k (d & Hd & ->). apply HKM in Hd.
      destruct Hd as [<- | Hd]; [left; apply strLe_refl | now right]. }
  pose proof (longestLoop_segment host h A M0 B x None 0 0 (Z.le_refl 0) Hpass)
    as Hseg.
  rewrite ES. change ((x :: M0) ++ B)%list with (x :: M0 ++ B)%list.
  destruct (longestLoop host h None (A ++ x :: M0 ++ B) 0 0) as [l t].
  cbn [List.length] in HlenM. lia.
Qed.

(** X26. In a zone with one fixed offset on or east of UTC, for a today
    whose last 365 days lie in the years 1000 to 9999 and for completions
    that are the texts [YYYY-MM-DD] of calendar days of the years 0 to
    9999, in any order and with or without repeats, the current streak of
    the statistics is at most the longest streak.  The completions are
    restricted to the texts [markCompleted] stores for a [Date], for which
    [Date_parse] reads what the language reads; a completion with a time
    of the day, which the constructor accepts, can break the run of the
    longest streak and not that of the current one. *)
Theorem currentStreak_le_longestStreak :
  forall (host : Host) (h : Habit) (ds : list Z),
    0 <= LocalTZA host < msPerDay ->
    1000 <= yearOfDay (Day (LocalTime host (now host)) - 364) ->
    yearOfDay (Day (LocalTime host (now host))) <= 9999 ->
    completions h = map dayString ds ->
    Forall (fun d => 0 <= yearOfDay d <= 9999) ds ->
    currentStreak (getStatistics host h)
    <= longestStreak (getStatistics host h).
Proof.
  intros host h ds Hz Hlow Hhigh _ _.
  rewrite getStatistics_currentStreak, getStatistics_longestStreak.
  now apply calculateStreak_le_computeLongestStreak.
Qed.

Lemma currentStreak_le_longestStreak_witness :
  currentStreak (getStatistics sundayNoonUTC mwfHabit)
  <= longestStreak (getStatistics sundayNoonUTC mwfHabit).
Proof.
  apply (currentStreak_le_longestStreak sundayNoonUTC mwfHabit [19725]).
  - vm_compute. split; [discriminate | reflexivity].
  - vm_compute. discriminate.
  - vm_compute. discriminate.
  - vm_compute. reflexivity.
  - constructor; [|constructor].
    vm_compute. split; discriminate.
Defined.

(** ** Completions in the order of the days *)

Lemma insertDay_In (d : Z) (days : list Z) (x : Z) :
  In x (insertDay d days) <-> x = d \/ In x days.
Proof.
  induction days as [|y r IH]; simpl; [intuition|].
  destruct (d <? y) eqn:E1; [simpl; intuition|].
  destruct (d =? y) eqn:E2.
  - apply Z.eqb_eq in E2. subst. simpl. intuition.
  - simpl. rewrite IH. intuition.
Qed.

Lemma insertDay_sorted (d : Z) (days : list Z) :
  StronglySorted Z.lt days -> StronglySorted Z.lt (insertDay d days).
Proof.
  induction 1 as [|y r Hs IH Hall]; simpl.
  - constructor; constructor.
  - destruct (d <? y) eqn:E1.
    + apply Z.ltb_lt in E1. constructor; [now constructor|].
      constructor; [assumption|]. rewrite Forall_forall in *.
      intros z Hz. specialize (Hall z Hz). lia.
    + destruct (d =? y) eqn:E2; [now constructor|].
      apply Z.ltb_ge in E1. apply Z.eqb_neq in E2.
      constructor; [assumption|]. rewrite Forall_forall in *.
      intros z Hz. apply insertDay_In in Hz.
      destruct Hz as [-> | Hz]; [lia | now apply Hall].
Qed.

Lemma dayString_ascending (days : list Z) :
  Forall (fun d => 0 <= yearOfDay d <= 9999) days ->
  StronglySorted Z.lt days ->
  StrictlyAscending (map dayString days).
Proof.
  intros Hy Hs. induction Hs as [|d r Hs IH Hall]; simpl; constructor.
  - apply IH. now inversion Hy.
  - rewrite Forall_forall in *. intros s Hs'. apply in_map_iff in Hs'.
    destruct Hs' as (x & <- & Hx).
    pose proof (Hy d (or_introl eq_refl)).
    pose proof (Hy x (or_intror Hx)).
    apply dayString_mono; [now apply Hall | lia | lia].
Qed.

(** X27. For completions that are the texts of ascending days of the years
    0 to 9999, [markCompleted] with the text of a day of these years puts
    the text at the place of its day: the order of the strings that
    [sort] keeps is the order of the calendar. *)
Theorem markCompleted_inserts_chronologically :
  forall (host : Host) (h : Habit) (days : list Z) (d : Z),
    StronglySorted Z.lt days ->
    Forall (fun x => 0 <= yearOfDay x <= 9999) days ->
    0 <= yearOfDay d <= 9999 ->
    completions h = map dayString days ->
    completions (markCompleted host (DateString (dayString d)) h)
    = map dayString (insertDay d days).
Proof.
  intros host h days d Hs Hy Hd Hc.
  assert (Hn : _normalizeDate host (DateString (dayString d)) = dayString d).
  { unfold _normalizeDate. rewrite split_lacks; [reflexivity|].
    rewrite dayString_parts by assumption.
    pose proof (civilFromDays_valid d) as V. unfold yearOfDay in Hd.
    destruct (civilFromDays d) as [[y m] dd]. simpl fst in Hd.
    destruct V as [Hm Hdd]. pose proof (daysInMonth_le_31 y m).
    rewrite !lacks_append. repeat split;
      first [ intros [E | []]; discriminate
            | apply digitsOnly_lacks;
              [reflexivity
              |first [ apply padStart_digits, toString_digits; lia
                     | apply twoDigits_digits; lia ]] ]. }
  apply StrictlyAscending_ext.
  - apply markCompleted_ascending. rewrite Hc.
    now apply dayString_ascending.
  - apply dayString_ascending; [|now apply insertDay_sorted].
    rewrite Forall_forall in *. intros x Hx. apply insertDay_In in Hx.
    destruct Hx as [-> | Hx]; [assumption | now apply Hy].
  - intros s. rewrite markCompleted_In, Hn, Hc, !in_map_iff. split.
    + intros [(x & <- & Hx) | ->].
      * exists x. split; [reflexivity|]. apply insertDay_In. now right.
      * exists d. split; [reflexivity|]. apply insertDay_In. now left.
    + intros (x & <- & Hx). apply insertDay_In in Hx.
      destruct Hx as [-> | Hx]; [now right|]. left. now exists x.
Qed.

Lemma markCompleted_inserts_chronologically_witness :
  completions (markCompleted sundayNoonUTC (DateString (dayString 19727))
                 saturdayHabit)
  = map dayString (insertDay 19727 [19728; 19730]).
Proof.
  apply (markCompleted_inserts_chronologically sundayNoonUTC saturdayHabit
           [19728; 19730] 19727).
  - repeat (constructor; [repeat constructor; lia|]). constructor.
  - repeat (constructor; [vm_compute; split; discriminate|]). constructor.
  - vm_compute. split; discriminate.
  - vm_compute. reflexivity.
Defined.
